(** * importo: the import-graph analyzer, embedded and verified

    A shallow embedding of [import_visitor.py], [import_analyzer.py],
    [optimizer.py], [load_time_analyzer.py] and of [get_changed_files] of
    [lint_and_format.py].  Python values are modelled as follows.

    - [str] is [string]; [int] is [Z].
    - A [dict] keeps insertion order, so it is an association list with
      unique keys; a [defaultdict] inserts its default at the end when a
      missing key is read.
    - A [set] has no duplicates and an iteration order that the program
      does not control.  It is a duplicate-free list whose order stands for
      the iteration order; statements that must not depend on that order
      quantify over it.
    - [pathlib] paths are a root marker and a list of components.
    - What the program reads from outside is an input of the model: the
      files that [rglob] yields with what reading and parsing them gives,
      [sys.builtin_module_names], [importlib.util.find_spec] as a function
      that returns a spec or [None] or raises, the hash order of string
      sets, and how deep the interpreter lets calls nest.
      Output written with [print] is modelled for the load-time loops
      only. *)

From Stdlib Require Import String Ascii List ZArith Bool Arith Lia.
From Stdlib Require Import Permutation Sorted DecimalString PrimFloat.
Import ListNotations.

Local Open Scope string_scope.
Local Open Scope list_scope.

Set Implicit Arguments.
Set Warnings "-register-all".

(** ** Python strings *)

Module PyStr.

(** [pat in s] for two strings. *)
Fixpoint contains (pat s : string) : bool :=
  String.prefix pat s ||
  match s with
  | EmptyString => false
  | String _ s' => contains pat s'
  end.

(** [s.split(c)[0]]: the characters before the first [c]. *)
Fixpoint first_segment (c : ascii) (s : string) : string :=
  match s with
  | EmptyString => EmptyString
  | String a s' => if Ascii.eqb a c then EmptyString
                   else String a (first_segment c s')
  end.

(** [s.replace(a, b)] for one-character [a] and [b]. *)
Fixpoint replace (a b : ascii) (s : string) : string :=
  match s with
  | EmptyString => EmptyString
  | String x s' => String (if Ascii.eqb x a then b else x) (replace a b s')
  end.

(** [s.rfind(c)], with [None] for Python's [-1]. *)
Fixpoint rfind (c : ascii) (s : string) : option nat :=
  match s with
  | EmptyString => None
  | String a s' =>
      match rfind c s' with
      | Some i => Some (S i)
      | None => if Ascii.eqb a c then Some 0 else None
      end
  end.

(** [sep.join(parts)]. *)
Fixpoint join (sep : string) (parts : list string) : string :=
  match parts with
  | [] => EmptyString
  | [p] => p
  | p :: rest => p ++ sep ++ join sep rest
  end.

(** [str(n)] for an [int]. *)
Definition of_int (n : Z) : string := NilZero.string_of_int (Z.to_int n).

(** Truthiness of a string: [if s:]. *)
Definition truthy (s : string) : bool :=
  match s with EmptyString => false | _ => true end.

Definition mem (x : string) (l : list string) : bool :=
  existsb (String.eqb x) l.

End PyStr.

(** ** Ordered dictionaries *)

Module Dict.
Section WithValue.
Variable V : Type.

Definition t := list (string * V).

Fixpoint get (d : t) (k : string) : option V :=
  match d with
  | [] => None
  | (k', v) :: d' => if String.eqb k k' then Some v else get d' k
  end.

Definition keys (d : t) : list string := map fst d.

Definition has (d : t) (k : string) : bool := PyStr.mem k (keys d).

(** [d[k] = v]: an existing key keeps its position, a new one goes last. *)
Fixpoint set (d : t) (k : string) (v : V) : t :=
  match d with
  | [] => [(k, v)]
  | (k', v') :: d' =>
      if String.eqb k k' then (k', v) :: d' else (k', v') :: set d' k v
  end.

(** [d[k]] on a [defaultdict(default)]: the value, and the dictionary
    after the read (a missing key is inserted with the default). *)
Definition getitem_default (default : V) (d : t) (k : string) : V * t :=
  match get d k with
  | Some v => (v, d)
  | None => (default, set d k default)
  end.

(** [d.get(k, dflt)], which never inserts. *)
Definition get_or (d : t) (k : string) (dflt : V) : V :=
  match get d k with Some v => v | None => dflt end.

End WithValue.
End Dict.

(** ** pathlib *)

Module Pathlib.

(** A pure POSIX path: [anchor] is ["/"] for an absolute path and empty
    otherwise. *)
Record Path := mkPath { anchor : string; parts : list string }.

(** [str(p)]. *)
Definition str (p : Path) : string :=
  match parts p with
  | [] => if PyStr.truthy (anchor p) then anchor p else "."
  | ps => anchor p ++ PyStr.join "/" ps
  end.

(** [p / rel] for a relative path given by its components. *)
Definition joinpath (p : Path) (rel : list string) : Path :=
  mkPath (anchor p) (parts p ++ rel).

(** [p.name]. *)
Definition name (p : Path) : string := last (parts p) "".

(** [p.suffix]. *)
Definition suffix (p : Path) : string :=
  let n := name p in
  match PyStr.rfind "." n with
  | Some i =>
      if (0 <? i)%nat && (i <? String.length n - 1)%nat
      then substring i (String.length n - i) n
      else ""
  | None => ""
  end.

Fixpoint strip_prefix (base ps : list string) : option (list string) :=
  match base, ps with
  | [], _ => Some ps
  | b :: base', p :: ps' =>
      if String.eqb b p then strip_prefix base' ps' else None
  | _ :: _, [] => None
  end.

(** [p.relative_to(base)]; [None] stands for the [ValueError]. *)
Definition relative_to (p base : Path) : option Path :=
  if String.eqb (anchor p) (anchor base) then
    match strip_prefix (parts base) (parts p) with
    | Some rest => Some (mkPath "" rest)
    | None => None
    end
  else None.

(** [p.with_suffix("")]; [None] stands for the [ValueError] raised on an
    empty name. *)
Definition with_suffix_empty (p : Path) : option Path :=
  let n := name p in
  if PyStr.truthy n then
    let old := suffix p in
    let n' := substring 0 (String.length n - String.length old) n in
    Some (mkPath (anchor p) (removelast (parts p) ++ [n']))
  else None.

End Pathlib.


(** ** import_visitor.py *)

(** A Python [set] of strings: [add] keeps the first occurrence. *)
Definition str_set_add (x : string) (s : list string) : list string :=
  if PyStr.mem x s then s else s ++ [x].

(** The part of a syntax tree that the visitor looks at. *)
Inductive ast : Type :=
| Import (names : list string)          (* [import a.b, c]: the alias names *)
| ImportFrom (module : option string)   (* [from m import x]: [node.module] *)
| Node (children : list ast).           (* any other node and its children *)

Module ImportVisitor.

(** [visit], with [self.imports] threaded through.  [visit_Import] and
    [visit_ImportFrom] do not descend; every other node is handled by
    [generic_visit], which visits the children in order. *)
Fixpoint visit (imports : list string) (node : ast) {struct node}
  : list string :=
  match node with
  | Import names =>
      fold_left (fun acc n => str_set_add (PyStr.first_segment "." n) acc)
                names imports
  | ImportFrom module =>
      match module with
      | Some m => if PyStr.truthy m
                  then str_set_add (PyStr.first_segment "." m) imports
                  else imports
      | None => imports
      end
  | Node children => fold_left visit children imports
  end.

(** [ImportVisitor()] followed by [visit(tree)]: the final [imports], when
    the traversal returns.  Whether it raises instead is [visit_raises] of
    the environment, which [_analyze_file] consults. *)
Definition run (tree : ast) : list string := visit [] tree.

End ImportVisitor.

(** ** Edges, statistics and the environment *)

(** The three strings [_get_import_type] returns. *)
Inductive import_type : Type := T_stdlib | T_third_party | T_local.

Definition import_type_str (t : import_type) : string :=
  match t with
  | T_stdlib => "stdlib"
  | T_third_party => "third-party"
  | T_local => "local"
  end.

Definition import_type_eqb (a b : import_type) : bool :=
  match a, b with
  | T_stdlib, T_stdlib | T_third_party, T_third_party | T_local, T_local => true
  | _, _ => false
  end.

(** An element of a module's edge set: [(imported_module, import_type)]. *)
Definition edge : Type := string * import_type.

Definition edge_eqb (a b : edge) : bool :=
  String.eqb (fst a) (fst b) && import_type_eqb (snd a) (snd b).

Definition edge_set_add (e : edge) (s : list edge) : list edge :=
  if existsb (edge_eqb e) s then s else s ++ [e].

(** The inner dictionary of [module_stats].  The three counters that are
    created on first use are [None] while their key is absent.
    [import_time] is written by the load-time profiler only. *)
Record stats : Type := mkStats {
  imports : Z;
  imported_by : Z;
  import_time : float;
  stdlib_imports : option Z;
  third_party_imports : option Z;
  local_imports : option Z
}.

(** The default factory of [module_stats]. *)
Definition default_stats : stats := mkStats 0 0 0%float None None None.

(** [stats.get(f"{t}_imports", 0)]. *)
Definition type_imports (t : import_type) (s : stats) : Z :=
  match (match t with
         | T_stdlib => stdlib_imports s
         | T_third_party => third_party_imports s
         | T_local => local_imports s
         end) with
  | Some n => n
  | None => 0
  end.

Definition set_type_imports (t : import_type) (n : Z) (s : stats) : stats :=
  match t with
  | T_stdlib =>
      mkStats (imports s) (imported_by s) (import_time s) (Some n)
              (third_party_imports s) (local_imports s)
  | T_third_party =>
      mkStats (imports s) (imported_by s) (import_time s) (stdlib_imports s)
              (Some n) (local_imports s)
  | T_local =>
      mkStats (imports s) (imported_by s) (import_time s) (stdlib_imports s)
              (third_party_imports s) (Some n)
  end.

Definition incr_imports (s : stats) : stats :=
  mkStats (imports s + 1) (imported_by s) (import_time s) (stdlib_imports s)
          (third_party_imports s) (local_imports s).

Definition incr_imported_by (s : stats) : stats :=
  mkStats (imports s) (imported_by s + 1) (import_time s) (stdlib_imports s)
          (third_party_imports s) (local_imports s).

(** What a call [importlib.util.find_spec(name)] does: it returns a spec,
    of which the program reads [spec.origin] (which may be [None]), or it
    returns [None], or it raises (a [ValueError] for a loaded module that
    has no spec, such as [__main__] in a script). *)
Inductive spec_lookup : Type :=
| Spec (origin : option string)
| NoSpec
| SpecError.

(** What the analysis reads from the interpreter it runs in. *)
Record runtime : Type := mkRuntime {
  (** [sys.builtin_module_names] *)
  builtin_module_names : list string;
  (** [importlib.util.find_spec] *)
  find_spec : string -> spec_lookup;
  (** the place of an element in the iteration order of a set of strings,
      which depends on the hashes of the run *)
  set_rank : list string -> string -> nat;
  (** whether [visitor.visit(tree)] raises: a [RecursionError], when the
      tree nests deeper than the interpreter lets the visiting calls nest *)
  visit_raises : ast -> bool;
  (** the number of calls of [find_cycles] that the interpreter lets nest
      in [get_circular_dependencies]: its recursion limit less the depth
      of the call stack at the first call *)
  recursion_limit : nat
}.

(** Insertion by increasing rank, and the resulting order. *)
Fixpoint insert_by_rank (r : string -> nat) (x : string) (l : list string)
  : list string :=
  match l with
  | [] => [x]
  | y :: l' => if (r x <=? r y)%nat then x :: l else y :: insert_by_rank r x l'
  end.

(** [for x in s] for a set [s] of strings: its elements by increasing rank.
    Every order of the elements is the order of some rank. *)
Definition set_iteration (rt : runtime) (s : list string) : list string :=
  fold_right (insert_by_rank (set_rank rt s)) [] s.

(** [str(x)] for a string or [None]. *)
Definition str_of_origin (o : option string) : string :=
  match o with Some s => s | None => "None" end.

(** What reading and parsing a file yields: [open]/[read] raise, or
    [ast.parse] raises, or there is a tree. *)
Inductive file_content : Type :=
| Unreadable
| Malformed
| Parsed (tree : ast).

(** A file yielded by [rglob]: its components below the project root and
    what reading it gives. *)
Record py_file : Type := mkFile {
  rel : list string;
  content : file_content
}.

(** ** Outcomes of calls *)

(** How a call ends: with a value, or with the [RuntimeError] that a
    dictionary iterator raises when the dictionary has changed size.  A
    [RecursionError] is kept apart from it: a search that ends with one has
    the outcome [None]. *)
Inductive py_result (A : Type) : Type :=
| Returns (a : A)
| RuntimeError.

Arguments Returns {A} a.
Arguments RuntimeError {A}.

(** ** optimizer.py *)

Module Suggest.

(** A dictionary comprehension
    [{module: value(stats) for module, stats in d.items() if cond(stats)}]. *)
Definition comprehension (value : stats -> Z) (cond : stats -> bool)
  (d : Dict.t stats) : Dict.t Z :=
  fold_left
    (fun acc (kv : string * stats) =>
       if cond (snd kv) then Dict.set acc (fst kv) (value (snd kv)) else acc)
    d [].

(** Insertion into a list sorted by decreasing count; among equal counts the
    inserted item, which comes first in the input, stays first. *)
Fixpoint insert_desc (x : string * Z) (l : list (string * Z))
  : list (string * Z) :=
  match l with
  | [] => [x]
  | y :: l' => if (snd y <=? snd x)%Z then x :: l else y :: insert_desc x l'
  end.

(** [sorted(d.items(), key=lambda x: x[1], reverse=True)]: a stable sort by
    decreasing count. *)
Definition sorted_by_count (d : Dict.t Z) : list (string * Z) :=
  fold_right insert_desc [] d.

(** Truthiness of a dictionary: [if d:]. *)
Definition nonempty (A : Type) (d : list A) : bool :=
  match d with [] => false | _ => true end.

Definition nl : string := String (ascii_of_nat 10) EmptyString.

Definition heavy_line (kv : string * Z) : string :=
  "  - " ++ fst kv ++ ": " ++ PyStr.of_int (snd kv) ++ " imports".

Definition common_line (kv : string * Z) : string :=
  "  - " ++ fst kv ++ ": imported by " ++ PyStr.of_int (snd kv) ++ " modules".

Definition third_party_line (kv : string * Z) : string :=
  "  - " ++ fst kv ++ ": " ++ PyStr.of_int (snd kv) ++ " third-party imports".

Definition local_line (kv : string * Z) : string :=
  "  - " ++ fst kv ++ ": " ++ PyStr.of_int (snd kv) ++ " local imports".

Definition heavy_header : string :=
  "Modules with many imports (consider refactoring):".
Definition common_header : string :=
  nl ++ "Frequently imported modules (consider lazy loading):".
Definition third_party_header : string :=
  nl ++ "Consider centralizing these frequently used third-party imports:".
Definition local_header : string :=
  nl ++ "Consider using __all__ to limit exported names in these modules:".

End Suggest.

Module Optimizer.
Import Suggest.

(** [optimizer.suggest_optimizations(module_stats)].  The third-party value
    is read with [stats["third-party_imports"]], which the filter has shown
    to be present. *)
Definition suggest_optimizations (module_stats : Dict.t stats) : list string :=
  let suggestions : list string := [] in
  let heavy_importers :=
    comprehension imports (fun s => (10 <? imports s)%Z) module_stats in
  let suggestions :=
    if nonempty heavy_importers
    then (suggestions ++ [heavy_header])
           ++ map heavy_line (sorted_by_count heavy_importers)
    else suggestions in
  let common_imports :=
    comprehension imported_by (fun s => (5 <? imported_by s)%Z) module_stats in
  let suggestions :=
    if nonempty common_imports
    then (suggestions ++ [common_header])
           ++ map common_line (sorted_by_count common_imports)
    else suggestions in
  let third_party_imports :=
    comprehension (type_imports T_third_party)
                  (fun s => (3 <? type_imports T_third_party s)%Z)
                  module_stats in
  let suggestions :=
    if nonempty third_party_imports
    then (suggestions ++ [third_party_header])
           ++ map third_party_line
                  (firstn 5 (sorted_by_count third_party_imports))
    else suggestions in
  let local_importers :=
    comprehension (type_imports T_local)
                  (fun s => (5 <? type_imports T_local s)%Z) module_stats in
  let suggestions :=
    if nonempty local_importers
    then (suggestions ++ [local_header])
           ++ map local_line (firstn 5 (sorted_by_count local_importers))
    else suggestions in
  suggestions.

End Optimizer.

(** ** Timed imports *)

(** What one pass of a load-time loop gets from
    [importlib.import_module(module)] between two readings of the clock:
    the elapsed time of an import that succeeds, an [ImportError], which
    the loop catches, or any other exception, which it does not.  A
    dictionary holds each key once, so a loop over its keys asks once per
    module. *)
Inductive import_attempt : Type :=
| Imported (load_time : float)
| ImportError
| OtherException.

(** How such a loop ends: after its last pass, or with the exception that
    an import has raised. *)
Inductive loop_end : Type :=
| Finished
| Propagated.

Module LoadTimes.

Definition could_not_import_line (module : string) : string :=
  "Could not import " ++ module ++ " for load time analysis".

(** Insertion into a list sorted by decreasing time; the inserted item,
    which comes first in the input, goes behind the items that are
    greater and before all others. *)
Fixpoint insert_by_time (x : string * float) (l : list (string * float))
  : list (string * float) :=
  match l with
  | [] => [x]
  | y :: l' =>
      if PrimFloat.ltb (snd x) (snd y) then y :: insert_by_time x l'
      else x :: l
  end.

(** [sorted(items, key=lambda x: x[1], reverse=True)]: a stable sort by
    decreasing time, which compares with [<] only.  It is what Python
    returns when [<] orders the times, as it does for all floats but NaN. *)
Definition sorted_by_time (items : list (string * float))
  : list (string * float) :=
  fold_right insert_by_time [] items.

(** [l[:n]]: a negative [n] counts from the end. *)
Definition slice_to (A : Type) (n : Z) (l : list A) : list A :=
  if (0 <=? n)%Z then firstn (Z.to_nat n) l
  else firstn (length l - Z.to_nat (- n)) l.

End LoadTimes.

(** ** import_analyzer.py *)

Module ImportAnalyzer.

Record t : Type := mkAnalyzer {
  project_root : Pathlib.Path;
  import_graph : Dict.t (list edge);
  module_stats : Dict.t stats
}.

(** [__init__] *)
Definition init (root : Pathlib.Path) : t := mkAnalyzer root [] [].

Definition filepath (a : t) (f : py_file) : Pathlib.Path :=
  Pathlib.joinpath (project_root a) (rel f).

Definition skip_patterns : list string :=
  [ "venv"; "env"; "__pycache__"; "tests"; "test_"; ".tox"; ".eggs";
    "build"; "dist"; ".git"; ".env" ].

Definition skip_extensions : list string := [ ".json"; ".js"; ".css"; ".html" ].

Definition _should_skip_file (p : Pathlib.Path) : bool :=
  existsb (fun pattern => PyStr.contains pattern (Pathlib.str p)) skip_patterns
  || PyStr.mem (Pathlib.suffix p) skip_extensions.

(** [None] stands for a [ValueError] of [relative_to] or [with_suffix]. *)
Definition _get_module_name (a : t) (p : Pathlib.Path) : option string :=
  match Pathlib.relative_to p (project_root a) with
  | Some relative_path =>
      match Pathlib.with_suffix_empty relative_path with
      | Some q => Some (PyStr.replace "/" "." (Pathlib.str q))
      | None => None
      end
  | None => None
  end.

(** [None] stands for the exception that [find_spec] raises. *)
Definition _get_import_type (rt : runtime) (module_name : string)
  : option import_type :=
  if PyStr.mem module_name (builtin_module_names rt) then Some T_stdlib
  else match find_spec rt module_name with
       | SpecError => None
       | NoSpec => Some T_local
       | Spec origin =>
           if PyStr.contains "site-packages" (str_of_origin origin)
           then Some T_third_party
           else Some T_stdlib
       end.

(** [self.module_stats[k][field] op= ...]: read through the default
    factory, then store the updated inner dictionary. *)
Definition update_stats (f : stats -> stats) (ms : Dict.t stats) (k : string)
  : Dict.t stats :=
  let '(s, ms1) := Dict.getitem_default default_stats ms k in
  Dict.set ms1 k (f s).

(** One iteration of the loop of [_analyze_file], after
    [_get_import_type] has returned [ty]. *)
Definition record_import (ty : import_type) (module_name : string) (a : t)
  (imported_module : string) : t :=
  let '(es, g1) := Dict.getitem_default [] (import_graph a) module_name in
  let g2 := Dict.set g1 module_name (edge_set_add (imported_module, ty) es) in
  let ms1 := update_stats incr_imports (module_stats a) module_name in
  let ms2 := update_stats incr_imported_by ms1 imported_module in
  let ms3 := update_stats
               (fun s => set_type_imports ty (type_imports ty s + 1) s)
               ms2 module_name in
  mkAnalyzer (project_root a) g2 ms3.

(** The loop of [_analyze_file] over the imports that are left.  An
    iteration starts with the call of [_get_import_type]; when that call
    raises, nothing of the iteration has been done, the loop is left and
    the iterations before it stay recorded. *)
Fixpoint record_imports (rt : runtime) (module_name : string)
  (todo : list string) (a : t) : t :=
  match todo with
  | [] => a
  | imported_module :: rest =>
      match _get_import_type rt imported_module with
      | Some ty =>
          record_imports rt module_name rest
            (record_import ty module_name a imported_module)
      | None => a
      end
  end.

(** [_analyze_file].  Every exception of the [try] block is caught and
    printed.  Those of [open], [read], [ast.parse], [relative_to],
    [with_suffix] and [visitor.visit] are raised before the loop starts, so
    the state is then the one the call started with; one of
    [_get_import_type] ends the loop where it is raised. *)
Definition _analyze_file (rt : runtime) (a : t) (f : py_file) : t :=
  match content f with
  | Parsed tree =>
      match _get_module_name a (filepath a f) with
      | Some module_name =>
          if visit_raises rt tree then a
          else record_imports rt module_name
                 (set_iteration rt (ImportVisitor.run tree)) a
      | None => a
      end
  | Unreadable | Malformed => a
  end.

(** The body of the loop of [analyze_project]. *)
Definition scan_step (rt : runtime) (a : t) (f : py_file) : t :=
  if _should_skip_file (filepath a f) then a else _analyze_file rt a f.

(** [analyze_project] over the files [rglob] yields, in that order. *)
Definition analyze_project (rt : runtime) (a : t) (files : list py_file) : t :=
  fold_left (scan_step rt) files a.

(** *** Cycle detection *)


(** [path.index(node)] for a [node] that occurs in [path]. *)
Fixpoint index (node : string) (path : list string) : nat :=
  match path with
  | [] => 0
  | x :: path' => if String.eqb node x then 0 else S (index node path')
  end.

(** The state that the nested function shares with its caller: the
    [visited] set and [self.import_graph], which a read through the default
    factory can extend. *)
Definition search_state : Type := (list string * Dict.t (list edge))%type.

(** [find_cycles(node, path, visited)].  [path] is a private copy of the
    caller's list; [visited] and the graph are shared, so they are threaded
    through.  [fuel] is the number of calls that may still nest, this one
    included; [None] stands for the [RecursionError] of a call that nests
    deeper, which nothing catches. *)
Fixpoint find_cycles (fuel : nat) (node : string) (path : list string)
  (st : search_state) : option (list (list string) * search_state) :=
  match fuel with
  | O => None
  | S fuel' =>
      let '(visited, g) := st in
      if PyStr.mem node path then
        Some ([skipn (index node path) path], st)
      else if PyStr.mem node visited then
        Some ([], st)
      else
        let visited1 := node :: visited in
        let path1 := path ++ [node] in
        let '(edges, g1) := Dict.getitem_default [] g node in
        fold_left
          (fun acc (e : edge) =>
             match acc with
             | None => None
             | Some (cycles, st') =>
                 match find_cycles fuel' (fst e) path1 st' with
                 | None => None
                 | Some (cs, st'') => Some (cycles ++ cs, st'')
                 end
             end)
          edges (Some ([], (visited1, g1)))
  end.

(** The loop [for node in self.import_graph].  [size] is the size of the
    dictionary when the iterator was created and [todo] the keys it has not
    yielded yet.  Each request for the next key, the last one included,
    first compares the current size with [size]. *)
Fixpoint for_each_node (fuel size : nat) (todo : list string)
  (all_cycles : list (list string)) (st : search_state)
  : option (py_result (list (list string)) * search_state) :=
  if negb (length (snd st) =? size)%nat then Some (RuntimeError, st)
  else match todo with
       | [] => Some (Returns all_cycles, st)
       | node :: todo' =>
           match find_cycles fuel node [] st with
           | None => None
           | Some (cycles, st') =>
               for_each_node fuel size todo' (all_cycles ++ cycles) st'
           end
       end.


(** The body of [get_circular_dependencies] on the graph of the analyzer:
    the outcome of the call and the shared state at its end, or [None] for
    a [RecursionError]. *)
Definition search (rt : runtime) (g : Dict.t (list edge))
  : option (py_result (list (list string)) * search_state) :=
  for_each_node (recursion_limit rt) (length g) (Dict.keys g) [] ([], g).

(** [get_circular_dependencies]: what the call returns or raises. *)
Definition get_circular_dependencies (rt : runtime) (a : t)
  : option (py_result (list (list string))) :=
  option_map fst (search rt (import_graph a)).

(** The analyzer after a call of [get_circular_dependencies] that has not
    ended with a [RecursionError]: keys that the search added to
    [self.import_graph] stay there. *)
Definition after_get_circular_dependencies (rt : runtime) (a : t) : option t :=
  option_map (fun r => mkAnalyzer (project_root a) (snd (snd r))
                                  (module_stats a))
             (search rt (import_graph a)).

(** *** Suggestions *)

(** The method [suggest_optimizations], on [self.module_stats].  It differs
    from the function of [optimizer.py] in one expression: the third-party
    value is read with [stats.get("third-party_imports", 0)]. *)
Definition suggest_optimizations (a : t) : list string :=
  let suggestions : list string := [] in
  let heavy_importers :=
    Suggest.comprehension imports (fun s => (10 <? imports s)%Z)
                          (module_stats a) in
  let suggestions :=
    if Suggest.nonempty heavy_importers
    then (suggestions ++ [Suggest.heavy_header])
           ++ map Suggest.heavy_line (Suggest.sorted_by_count heavy_importers)
    else suggestions in
  let common_imports :=
    Suggest.comprehension imported_by (fun s => (5 <? imported_by s)%Z)
                          (module_stats a) in
  let suggestions :=
    if Suggest.nonempty common_imports
    then (suggestions ++ [Suggest.common_header])
           ++ map Suggest.common_line (Suggest.sorted_by_count common_imports)
    else suggestions in
  let third_party_imports :=
    Suggest.comprehension (type_imports T_third_party)
                          (fun s => (3 <? type_imports T_third_party s)%Z)
                          (module_stats a) in
  let suggestions :=
    if Suggest.nonempty third_party_imports
    then (suggestions ++ [Suggest.third_party_header])
           ++ map Suggest.third_party_line
                  (firstn 5 (Suggest.sorted_by_count third_party_imports))
    else suggestions in
  let local_importers :=
    Suggest.comprehension (type_imports T_local)
                          (fun s => (5 <? type_imports T_local s)%Z)
                          (module_stats a) in
  let suggestions :=
    if Suggest.nonempty local_importers
    then (suggestions ++ [Suggest.local_header])
           ++ map Suggest.local_line
                  (firstn 5 (Suggest.sorted_by_count local_importers))
    else suggestions in
  suggestions.

(** *** Load times *)

(** [stats["import_time"] = load_time]. *)
Definition set_import_time (load_time : float) (s : stats) : stats :=
  mkStats (imports s) (imported_by s) load_time (stdlib_imports s)
          (third_party_imports s) (local_imports s).

(** The loop of [analyze_import_load_times] over the keys that are left,
    on the statistics and the lines printed so far. *)
Fixpoint time_modules (import_module : string -> import_attempt)
  (modules : list string) (st : Dict.t stats * list string)
  : Dict.t stats * list string * loop_end :=
  match modules with
  | [] => (st, Finished)
  | module :: rest =>
      match import_module module with
      | Imported load_time =>
          time_modules import_module rest
            (update_stats (set_import_time load_time) (fst st) module, snd st)
      | ImportError =>
          time_modules import_module rest
            (fst st, snd st ++ [LoadTimes.could_not_import_line module])
      | OtherException => (st, Propagated)
      end
  end.

(** [analyze_import_load_times]: the analyzer after the call, the lines it
    has printed and how it ended. *)
Definition analyze_import_load_times (import_module : string -> import_attempt)
  (a : t) : t * list string * loop_end :=
  let '(ms, out, e) :=
    time_modules import_module (Dict.keys (import_graph a))
                 (module_stats a, []) in
  (mkAnalyzer (project_root a) (import_graph a) ms, out, e).

(** [get_top_import_times(top_n)]. *)
Definition get_top_import_times (top_n : Z) (a : t) : list (string * float) :=
  LoadTimes.slice_to top_n
    (LoadTimes.sorted_by_time
       (map (fun kv : string * stats => (fst kv, import_time (snd kv)))
            (module_stats a))).

End ImportAnalyzer.

(** ** load_time_analyzer.py *)

Module LoadTimeAnalyzer.

(** The loop of the function over the keys that are left, on [load_times]
    and the lines printed so far. *)
Fixpoint collect (import_module : string -> import_attempt)
  (modules : list string) (st : list (string * float) * list string)
  : list (string * float) * list string * loop_end :=
  match modules with
  | [] => (st, Finished)
  | module :: rest =>
      match import_module module with
      | Imported load_time =>
          collect import_module rest (fst st ++ [(module, load_time)], snd st)
      | ImportError =>
          collect import_module rest
            (fst st, snd st ++ [LoadTimes.could_not_import_line module])
      | OtherException => (st, Propagated)
      end
  end.

(** [analyze_import_load_times(import_graph, top_n)]: the lines printed,
    and the returned list, or [None] when an exception has ended the call. *)
Definition analyze_import_load_times (import_module : string -> import_attempt)
  (import_graph : Dict.t (list edge)) (top_n : Z)
  : list string * option (list (string * float)) :=
  let '(load_times, out, e) :=
    collect import_module (Dict.keys import_graph) ([], []) in
  match e with
  | Finished =>
      (out, Some (LoadTimes.slice_to top_n (LoadTimes.sorted_by_time load_times)))
  | Propagated => (out, None)
  end.

End LoadTimeAnalyzer.

(** ** lint_and_format.py *)

Module LintAndFormat.

Definition newline : ascii := ascii_of_nat 10.

(** [s.split(sep)] for a separator of one character: the pieces between
    the occurrences of [sep], empty pieces included. *)
Fixpoint split (sep : ascii) (s : string) : list string :=
  match s with
  | EmptyString => [EmptyString]
  | String c s' =>
      if Ascii.eqb c sep then EmptyString :: split sep s'
      else match split sep s' with
           | [] => [String c EmptyString]
           | piece :: pieces => String c piece :: pieces
           end
  end.

(** [s.endswith(suffix)]. *)
Definition endswith (suffix s : string) : bool :=
  (String.length suffix <=? String.length s)%nat
  && String.eqb (String.substring (String.length s - String.length suffix)
                                  (String.length suffix) s)
                suffix.

(** [get_changed_files()], on the standard output of
    [git diff --name-only --cached]. *)
Definition get_changed_files (stdout : string) : list string :=
  filter (endswith ".py") (split newline stdout).

End LintAndFormat.

(** ** Notions used in the statements *)

(** [pat] occurs in [s] as a run of consecutive characters. *)
Definition is_substring (pat s : string) : Prop :=
  exists pre post, s = (pre ++ pat ++ post)%string.

(** The tree contains an import statement of either form. *)
Fixpoint has_import (node : ast) : bool :=
  match node with
  | Import _ => true
  | ImportFrom _ => true
  | Node children => existsb has_import children
  end.

(** Reading a dictionary that has a default factory, without the insertion. *)
Definition edges_of (g : Dict.t (list edge)) (m : string) : list edge :=
  Dict.get_or g m [].

Definition stats_of (ms : Dict.t stats) (m : string) : stats :=
  Dict.get_or ms m default_stats.

(** The sum of a quantity over the values of a dictionary. *)
Definition dict_sum (V : Type) (w : V -> Z) (d : Dict.t V) : Z :=
  fold_right (fun kv acc => (w (snd kv) + acc)%Z) 0%Z d.

(** The number of edges of the graph, over all sources. *)
Definition total_edges (g : Dict.t (list edge)) : Z :=
  dict_sum (fun es => Z.of_nat (length es)) g.

(** The number of edges of one edge set that point at [target]. *)
Definition edges_to (target : string) (es : list edge) : Z :=
  Z.of_nat (length (filter (fun e : edge => String.eqb (fst e) target) es)).

(** The number of edges of the graph that point at [target]. *)
Definition in_degree (g : Dict.t (list edge)) (target : string) : Z :=
  dict_sum (edges_to target) g.

(** The module names of the files that the scan reads and parses, one per
    file, in scan order. *)
Definition analysed_modules (a : ImportAnalyzer.t) (files : list py_file)
  : list string :=
  flat_map
    (fun f =>
       if ImportAnalyzer._should_skip_file (ImportAnalyzer.filepath a f)
       then []
       else match content f with
            | Parsed _ =>
                match ImportAnalyzer._get_module_name
                        a (ImportAnalyzer.filepath a f) with
                | Some m => [m]
                | None => []
                end
            | _ => []
            end)
    files.

(** The counters agree with the graph: every [imports] counter is the size
    of the module's edge set, every [imported_by] counter is the number of
    edges that point at the module, and the [imported_by] counters add up to
    the number of edges. *)
Definition counters_match_edges (a : ImportAnalyzer.t) : Prop :=
  let g := ImportAnalyzer.import_graph a in
  let ms := ImportAnalyzer.module_stats a in
  (forall m, imports (stats_of ms m) = Z.of_nat (length (edges_of g m))) /\
  (forall x, imported_by (stats_of ms x) = in_degree g x) /\
  dict_sum imported_by ms = total_edges g.

(** Every edge set lists each (target, category) pair once. *)
Definition edge_sets_NoDup (a : ImportAnalyzer.t) : Prop :=
  forall m, NoDup (edges_of (ImportAnalyzer.import_graph a) m).

(** Equality of two import graphs as Python compares them: the same keys,
    and for each key the same set of edges. *)
Definition same_set (s1 s2 : list edge) : Prop :=
  forall e, In e s1 <-> In e s2.

Definition same_graph (g1 g2 : Dict.t (list edge)) : Prop :=
  forall m,
    match Dict.get g1 m, Dict.get g2 m with
    | Some s1, Some s2 => same_set s1 s2
    | None, None => True
    | _, _ => False
    end.

(** Equality of two statistics dictionaries: the same keys with the same
    inner dictionaries. *)
Definition same_stats (ms1 ms2 : Dict.t stats) : Prop :=
  forall m, Dict.get ms1 m = Dict.get ms2 m.

(** Two runs resolve modules in the same way and let the visitor descend
    into the same trees. *)
Definition same_resolution (rt1 rt2 : runtime) : Prop :=
  builtin_module_names rt1 = builtin_module_names rt2 /\
  (forall m, find_spec rt1 m = find_spec rt2 m) /\
  forall tree, visit_raises rt1 tree = visit_raises rt2 tree.

(** The category of a module for which [_get_import_type] returns. *)
Definition import_type_of (rt : runtime) (x : string) : import_type :=
  match ImportAnalyzer._get_import_type rt x with
  | Some ty => ty
  | None => T_local
  end.

(** The imports that the loop of [_analyze_file] records when it iterates
    over [l]: those before the first one for which [_get_import_type]
    raises. *)
Fixpoint resolved_prefix (rt : runtime) (l : list string) : list string :=
  match l with
  | [] => []
  | x :: l' =>
      match ImportAnalyzer._get_import_type rt x with
      | Some _ => x :: resolved_prefix rt l'
      | None => []
      end
  end.

(** The (module, imported module) pairs that scanning a file records, in
    the order of the loop of [_analyze_file]. *)
Definition imports_of (rt : runtime) (a : ImportAnalyzer.t) (f : py_file)
  : list (string * string) :=
  if ImportAnalyzer._should_skip_file (ImportAnalyzer.filepath a f) then []
  else match content f with
       | Parsed tree =>
           match ImportAnalyzer._get_module_name
                   a (ImportAnalyzer.filepath a f) with
           | Some m =>
               if visit_raises rt tree then []
               else map (pair m)
                        (resolved_prefix rt
                           (set_iteration rt (ImportVisitor.run tree)))
           | None => []
           end
       | _ => []
       end.

(** Every import of the files that the scan analyses gets a category:
    [_get_import_type] raises for none of them. *)
Definition imports_resolve (rt : runtime) (a : ImportAnalyzer.t)
  (files : list py_file) : Prop :=
  forall f tree x,
    In f files ->
    ImportAnalyzer._should_skip_file (ImportAnalyzer.filepath a f) = false ->
    content f = Parsed tree ->
    visit_raises rt tree = false ->
    In x (ImportVisitor.run tree) ->
    ImportAnalyzer._get_import_type rt x <> None.

(** The counters that one recorded import touches. *)
Inductive counter : Type :=
| C_imports
| C_imported_by
| C_type (ty : import_type).

Definition bump (c : counter) (s : stats) : stats :=
  match c with
  | C_imports => incr_imports s
  | C_imported_by => incr_imported_by s
  | C_type ty => set_type_imports ty (type_imports ty s + 1) s
  end.

(** The counter updates of one recorded import, in program order. *)
Definition bumps_of (rt : runtime) (p : string * string)
  : list (counter * string) :=
  [ (C_imports, fst p); (C_imported_by, snd p);
    (C_type (import_type_of rt (snd p)), fst p) ].

(** One iteration of the loop of [_analyze_file] on a pair, and its two
    halves: what it does to the graph and to the statistics. *)
Definition record_pair (rt : runtime) (a : ImportAnalyzer.t)
  (p : string * string) : ImportAnalyzer.t :=
  ImportAnalyzer.record_import (import_type_of rt (snd p)) (fst p) a (snd p).

Definition graph_step (rt : runtime) (g : Dict.t (list edge))
  (p : string * string) : Dict.t (list edge) :=
  Dict.set (snd (Dict.getitem_default [] g (fst p))) (fst p)
    (edge_set_add (snd p, import_type_of rt (snd p))
                  (fst (Dict.getitem_default [] g (fst p)))).

Definition bump_step (ms : Dict.t stats) (b : counter * string)
  : Dict.t stats :=
  ImportAnalyzer.update_stats (bump (fst b)) ms (snd b).

(** Module [m] has the counter value [c], and [c] exceeds the threshold. *)
Definition qualifying (value : stats -> Z) (threshold : Z)
  (ms : Dict.t stats) (m : string) (c : Z) : Prop :=
  exists s, In (m, s) ms /\ value s = c /\ (threshold < c)%Z.

(** Counts never increase along the list. *)
Definition descending (l : list (string * Z)) : Prop :=
  StronglySorted (fun x y => (snd y <= snd x)%Z) l.

(** [l] lists the qualifying modules, each once, by decreasing count. *)
Definition ranking (value : stats -> Z) (threshold : Z) (ms : Dict.t stats)
  (l : list (string * Z)) : Prop :=
  (forall m c, In (m, c) l <-> qualifying value threshold ms m c) /\
  descending l /\
  NoDup (map fst l).

(** A section of the report: nothing when no module is listed, else the
    header followed by one line per listed module. *)
Definition report_section (header : string) (line : string * Z -> string)
  (listed : list (string * Z)) : list string :=
  match listed with
  | [] => []
  | _ => header :: map line listed
  end.

(** [u] imports [v]: the graph has an edge from [u] to [v]. *)
Definition has_edge (g : Dict.t (list edge)) (u v : string) : Prop :=
  In v (map fst (edges_of g u)).

(** Each element of the list has an edge to the next one. *)
Fixpoint chain (g : Dict.t (list edge)) (l : list string) : Prop :=
  match l with
  | [] => True
  | x :: l' =>
      match l' with
      | [] => True
      | y :: _ => has_edge g x y /\ chain g l'
      end
  end.

(** A simple cycle of the graph: a non-empty list of distinct modules,
    each importing the next and the last importing the first. *)
Definition simple_cycle (g : Dict.t (list edge)) (c : list string) : Prop :=
  c <> [] /\ NoDup c /\ chain g c /\ has_edge g (last c "") (hd "" c).

Definition acyclic (g : Dict.t (list edge)) : Prop :=
  forall c, ~ simple_cycle g c.

(** Every module that is imported is also a key of the graph. *)
Definition closed (g : Dict.t (list edge)) : Prop :=
  forall u v, has_edge g u v -> In v (Dict.keys g).

(** Two lists that list the same cycle from different starting points. *)
Definition rotation (c c' : list string) : Prop :=
  exists l1 l2, c = l1 ++ l2 /\ c' = l2 ++ l1.

(** The edges are the same in both graphs; keys without edges may differ. *)
Definition same_edges (g g' : Dict.t (list edge)) : Prop :=
  forall k, edges_of g' k = edges_of g k.

(** The body of the loop over the neighbours in [find_cycles], with [None]
    when the recursion depth was not enough. *)
Definition visit_neighbor (fuel : nat) (path : list string)
  (acc : option (list (list string) * ImportAnalyzer.search_state))
  (e : edge) : option (list (list string) * ImportAnalyzer.search_state) :=
  match acc with
  | None => None
  | Some (cycles, st') =>
      match ImportAnalyzer.find_cycles fuel (fst e) path st' with
      | None => None
      | Some (cs, st'') => Some (cycles ++ cs, st'')
      end
  end.

(** What a call of [find_cycles] guarantees when the edges are those of
    [g0]: the edges stay the same, and on a duplicate-free path that follows
    edges and leads to [node], every list returned is a simple cycle. *)
Definition call_sound (g0 : Dict.t (list edge)) (fuel : nat) : Prop :=
  forall node path st cs st',
    same_edges g0 (snd st) ->
    ImportAnalyzer.find_cycles fuel node path st = Some (cs, st') ->
    same_edges g0 (snd st') /\
    (NoDup path -> chain g0 path ->
     (path = [] \/ has_edge g0 (last path "") node) ->
     Forall (simple_cycle g0) cs).

(** What the search has established in a state: the visited modules are
    keys of the graph. *)
Definition visited_are_keys (st : ImportAnalyzer.search_state) : Prop :=
  incl (fst st) (Dict.keys (snd st)).

(** From [st] to [st'] the visited set and the graph only grow, and every
    module visited in between has all the modules it imports visited. *)
Definition search_progress (g0 : Dict.t (list edge))
  (st st' : ImportAnalyzer.search_state) : Prop :=
  incl (fst st) (fst st') /\
  (exists extra, snd st' = snd st ++ extra) /\
  visited_are_keys st' /\
  forall u, In u (fst st') ->
            In u (fst st) \/ forall w, has_edge g0 u w -> In w (fst st').

(** No key of the graph has an empty edge set. *)
Definition keys_have_edges (g : Dict.t (list edge)) : Prop :=
  forall k es, Dict.get g k = Some es -> es <> [].

(** ** Example inputs *)

Module Examples.

(** An interpreter in which [sys] is built in, [os] resolves to the standard
    library, [requests] is installed in site-packages, and nothing else is
    found.  Sets are iterated in insertion order. *)
Definition rt0 : runtime :=
  mkRuntime ["sys"]
    (fun m =>
       if String.eqb m "os" then Spec (Some "/usr/lib/python3.11/os.py")
       else if String.eqb m "requests"
       then Spec (Some "/usr/lib/python3.11/site-packages/requests/__init__.py")
       else if String.eqb m "__main__" then SpecError
       else NoSpec)
    (fun _ _ => 0%nat)
    (fun _ => false)
    1000.

(** The same interpreter with another hash order: a set yields [os] after
    its other elements. *)
Definition rt1 : runtime :=
  mkRuntime (builtin_module_names rt0) (find_spec rt0)
            (fun _ x => if String.eqb x "os" then 1%nat else 0%nat)
            (visit_raises rt0) (recursion_limit rt0).

(** The interpreter of [rt0] with an arbitrary hash order. *)
Definition rt_ranked (rank : list string -> string -> nat) : runtime :=
  mkRuntime (builtin_module_names rt0) (find_spec rt0) rank
            (visit_raises rt0) (recursion_limit rt0).

Definition root0 : Pathlib.Path := Pathlib.mkPath "" ["proj"].

Definition a0 : ImportAnalyzer.t := ImportAnalyzer.init root0.

(** [proj/pkg/empty.py], an empty module. *)
Definition empty_py : py_file := mkFile ["pkg"; "empty.py"] (Parsed (Node [])).

(** [proj/pkg/envelope.py] and [proj/builder/core.py]: the names contain
    ["env"] and ["build"]. *)
Definition envelope_py : py_file :=
  mkFile ["pkg"; "envelope.py"] (Parsed (Node [Import ["os"]])).

Definition builder_core_py : py_file :=
  mkFile ["builder"; "core.py"] (Parsed (Node [Import ["os"]])).


(** [proj/pkg/net.py]: [import os], [import os.path], [import requests]. *)
Definition net_py : py_file :=
  mkFile ["pkg"; "net.py"]
         (Parsed (Node [Import ["os"]; Import ["os.path"]; Import ["requests"]])).

(** [proj/a/b.py] and [proj/a.b.py], both [import os]. *)
Definition a_slash_b_py : py_file :=
  mkFile ["a"; "b.py"] (Parsed (Node [Import ["os"]])).

Definition a_dot_b_py : py_file :=
  mkFile ["a.b.py"] (Parsed (Node [Import ["os"]])).

(** [proj/a.py], whose only statement is [import b]. *)
Definition a_py : py_file := mkFile ["a.py"] (Parsed (Node [Import ["b"]])).

(** [proj/m.py], which imports [os] and [__main__]. *)
Definition m_py : py_file :=
  mkFile ["m.py"] (Parsed (Node [Import ["os"]; Import ["__main__"]])).

(** The edges X->A, X->Y, A->Y, Y->X, with the edge set of X iterated in
    two orders. *)
Definition gx_A_first : Dict.t (list edge) :=
  [ ("X", [("A", T_local); ("Y", T_local)]);
    ("A", [("Y", T_local)]);
    ("Y", [("X", T_local)]) ].

Definition gx_Y_first : Dict.t (list edge) :=
  [ ("X", [("Y", T_local); ("A", T_local)]);
    ("A", [("Y", T_local)]);
    ("Y", [("X", T_local)]) ].

(** An analyzer whose import graph is [g]. *)
Definition with_graph (g : Dict.t (list edge)) : ImportAnalyzer.t :=
  ImportAnalyzer.mkAnalyzer root0 g [].

(** Statistics with one module at 11 imports and one at 10. *)
Definition stats_11_10 : Dict.t stats :=
  [ ("edge", mkStats 10 0 0%float (Some 10%Z) None None);
    ("big", mkStats 11 0 0%float (Some 11%Z) None None) ].

End Examples.

(** ** Notions used in the further properties *)

(** The tree has an import statement that names a module whose first
    dotted segment is [x]: an [import] of such a name anywhere in the tree,
    or a [from] import whose module is present and not empty. *)
Inductive imports_name (x : string) : ast -> Prop :=
| imports_name_Import (names : list string) (n : string) :
    In n names -> PyStr.first_segment "." n = x ->
    imports_name x (Import names)
| imports_name_ImportFrom (m : string) :
    PyStr.truthy m = true -> PyStr.first_segment "." m = x ->
    imports_name x (ImportFrom (Some m))
| imports_name_Node (children : list ast) (c : ast) :
    In c children -> imports_name x c ->
    imports_name x (Node children).

(** The character [c] does not occur in [s]. *)
Fixpoint lacks_char (c : ascii) (s : string) : Prop :=
  match s with
  | EmptyString => True
  | String a s' => a <> c /\ lacks_char c s'
  end.

(** The scan reads and parses [f], names it [m] and gets the tree [tree]. *)
Definition analysed_as (a : ImportAnalyzer.t) (f : py_file) (m : string)
  (tree : ast) : Prop :=
  ImportAnalyzer._should_skip_file (ImportAnalyzer.filepath a f) = false /\
  content f = Parsed tree /\
  ImportAnalyzer._get_module_name a (ImportAnalyzer.filepath a f) = Some m.

(** The (module, imported module) pairs that the scan of [files] records:
    one for each iteration that the loop of [_analyze_file] completes, that
    is, for each analysed file that the visitor gets through, one for each
    element of its import set that is iterated before the first one for
    which [_get_import_type] raises. *)
Definition recorded_pairs (rt : runtime) (a : ImportAnalyzer.t)
  (files : list py_file) : list (string * string) :=
  flat_map (imports_of rt a) files.

(** The number of recorded pairs that satisfy [p]. *)
Definition count_pairs (p : string * string -> bool)
  (l : list (string * string)) : Z :=
  Z.of_nat (length (filter p l)).

(** What a list of counter updates adds to a counter of module [k], when
    one update of kind [c] adds [delta c]. *)
Definition bump_total (delta : counter -> Z) (k : string)
  (bs : list (counter * string)) : Z :=
  fold_right
    (fun b acc => ((if String.eqb (snd b) k then delta (fst b) else 0) + acc)%Z)
    0%Z bs.

(** What one counter update adds to [imports], to [imported_by], to the
    counter of category [ty], and to the difference between [imports] and
    the sum of the three category counters. *)
Definition delta_imports (c : counter) : Z :=
  match c with C_imports => 1 | _ => 0 end.

Definition delta_imported_by (c : counter) : Z :=
  match c with C_imported_by => 1 | _ => 0 end.

Definition delta_type (ty : import_type) (c : counter) : Z :=
  match c with
  | C_type ty' => if import_type_eqb ty' ty then 1 else 0
  | _ => 0
  end.

Definition delta_balance (c : counter) : Z :=
  match c with C_imports => 1 | C_imported_by => 0 | C_type _ => -1 end.

(** [imports] minus the three category counters, each read with
    [stats.get(key, 0)]. *)
Definition balance (s : stats) : Z :=
  (imports s - type_imports T_stdlib s - type_imports T_third_party s
   - type_imports T_local s)%Z.


(** The entries of a listing that have the count [c]. *)
Definition with_count (c : Z) (l : list (string * Z)) : list (string * Z) :=
  filter (fun kv => (snd kv =? c)%Z) l.

(** Modules with equal counts are listed in the order in which the
    statistics dictionary holds them: for every count [c], the entries of
    [l] with that count are the modules of [ms] whose counter is [c] and
    above the threshold, in the order of [ms]. *)
Definition ties_in_dictionary_order (value : stats -> Z) (threshold : Z)
  (ms : Dict.t stats) (l : list (string * Z)) : Prop :=
  forall c : Z,
    with_count c l
    = map (fun kv => (fst kv, value (snd kv)))
          (filter (fun kv => (threshold <? value (snd kv))%Z
                             && (value (snd kv) =? c)%Z) ms).

(** Statistics with two modules tied at 12 imports. *)
Definition stats_tied : Dict.t stats :=
  [ ("zeta", mkStats 12 0 0%float (Some 12%Z) None None);
    ("alpha", mkStats 12 0 0%float (Some 12%Z) None None) ].

(** The import of [m] ends with an [ImportError]. *)
Definition import_fails (import_module : string -> import_attempt)
  (m : string) : bool :=
  match import_module m with ImportError => true | _ => false end.

(** The lines printed for the modules of [l] that cannot be imported. *)
Definition could_not_import (import_module : string -> import_attempt)
  (l : list string) : list string :=
  map LoadTimes.could_not_import_line (filter (import_fails import_module) l).

(** An import that succeeds for [pkg.net], fails for [a] and raises
    something else for every other module. *)
Definition load0 (m : string) : import_attempt :=
  if String.eqb m "pkg.net" then Imported 0.25%float
  else if String.eqb m "a" then ImportError
  else OtherException.

(** The scan of [pkg/net.py] and [a.py], and of [pkg/net.py] and [a/b.py]. *)
Definition scanned_net_a : ImportAnalyzer.t :=
  ImportAnalyzer.analyze_project Examples.rt0
    (ImportAnalyzer.init Examples.root0) [Examples.net_py; Examples.a_py].

Definition scanned_net_ab : ImportAnalyzer.t :=
  ImportAnalyzer.analyze_project Examples.rt0
    (ImportAnalyzer.init Examples.root0)
    [Examples.net_py; Examples.a_slash_b_py].

(** What [git diff --name-only] prints for the paths [names]: each path
    followed by a newline. *)
Definition name_only_output (names : list string) : string :=
  fold_right (fun name out => name ++ Suggest.nl ++ out)%string
             EmptyString names.

(** * Properties *)

(** ** Strings *)

Lemma prefix_app (p s : string) :
  String.prefix p s = true <-> exists t, s = (p ++ t)%string.
Proof.
  revert s; induction p as [|c p IH]; intros s; simpl.
  - split; [intros _; exists s; reflexivity | intros _; destruct s; reflexivity].
  - destruct s as [|d s]; simpl.
    + split; [discriminate | intros [t Ht]; discriminate].
    + destruct (Ascii.ascii_dec c d) as [-> | Hne].
      * rewrite IH. split; intros [t Ht]; exists t; congruence.
      * split; [discriminate | intros [t Ht]; congruence].
Qed.

Lemma contains_is_substring (pat s : string) :
  PyStr.contains pat s = true <-> is_substring pat s.
Proof.
  induction s as [|c s IH]; cbn [PyStr.contains];
    rewrite orb_true_iff, prefix_app.
  - split.
    + intros [[t Ht]|Hf]; [|discriminate]. exists "", t. exact Ht.
    + intros [pre [post H]]. left. destruct pre; [|discriminate].
      exists post. exact H.
  - rewrite IH. split.
    + intros [[t Ht]|[pre [post H]]].
      * exists "", t. exact Ht.
      * exists (String c pre), post. simpl. congruence.
    + intros [pre [post H]]. destruct pre as [|d pre]; simpl in H.
      * left. exists post. exact H.
      * right. exists pre, post. congruence.
Qed.

(** ** Dictionaries *)

Section DictFacts.
Variable V : Type.
Implicit Types (d : Dict.t V) (k : string) (v : V).

Lemma get_set d k v k' :
  Dict.get (Dict.set d k v) k' = if String.eqb k' k then Some v else Dict.get d k'.
Proof.
  induction d as [|[k0 v0] d IH]; simpl.
  - reflexivity.
  - destruct (String.eqb_spec k k0) as [-> | Hne]; simpl.
    + destruct (String.eqb k' k0); reflexivity.
    + rewrite IH. destruct (String.eqb_spec k' k0) as [->|Hne'].
      * destruct (String.eqb_spec k0 k); [congruence | reflexivity].
      * reflexivity.
Qed.

Lemma get_getitem_default (dflt : V) d k k' :
  Dict.get (snd (Dict.getitem_default dflt d k)) k'
  = if String.eqb k' k then Some (Dict.get_or d k dflt) else Dict.get d k'.
Proof.
  unfold Dict.getitem_default, Dict.get_or.
  destruct (Dict.get d k) as [v|] eqn:Hk; simpl.
  - destruct (String.eqb_spec k' k) as [->|]; [exact Hk | reflexivity].
  - apply get_set.
Qed.

Lemma fst_getitem_default (dflt : V) d k :
  fst (Dict.getitem_default dflt d k) = Dict.get_or d k dflt.
Proof.
  unfold Dict.getitem_default, Dict.get_or. destruct (Dict.get d k); reflexivity.
Qed.

Lemma get_None_keys d k : Dict.get d k = None <-> ~ In k (Dict.keys d).
Proof.
  induction d as [|[k0 v0] d IH]; simpl.
  - tauto.
  - destruct (String.eqb_spec k k0) as [-> | Hne].
    + split; [discriminate | intros H; exfalso; apply H; left; reflexivity].
    + rewrite IH. split; [intros H [E|E]; [congruence | tauto] | tauto].
Qed.

Lemma get_Some_In d k v : Dict.get d k = Some v -> In (k, v) d.
Proof.
  induction d as [|[k0 v0] d IH]; simpl; [discriminate|].
  destruct (String.eqb_spec k k0) as [-> | Hne].
  - intros [= ->]. left; reflexivity.
  - intros H. right. apply IH, H.
Qed.

Lemma In_get_Some d k v : NoDup (Dict.keys d) -> In (k, v) d -> Dict.get d k = Some v.
Proof.
  induction d as [|[k0 v0] d IH]; simpl; [tauto|].
  intros Hnd [E|Hin]; inversion Hnd as [|? ? Hnotin Hnd']; subst.
  - inversion E; subst. rewrite String.eqb_refl. reflexivity.
  - destruct (String.eqb_spec k k0) as [-> | Hne].
    + exfalso. apply Hnotin. apply (in_map fst) in Hin. exact Hin.
    + apply IH; assumption.
Qed.

Lemma set_absent d k v : ~ In k (Dict.keys d) -> Dict.set d k v = d ++ [(k, v)].
Proof.
  induction d as [|[k0 v0] d IH]; simpl; [reflexivity|].
  intros H. destruct (String.eqb_spec k k0) as [-> | Hne]; [tauto|].
  rewrite IH; [reflexivity | tauto].
Qed.

Lemma keys_set_present d k v : In k (Dict.keys d) -> Dict.keys (Dict.set d k v) = Dict.keys d.
Proof.
  induction d as [|[k0 v0] d IH]; simpl; [tauto|].
  destruct (String.eqb_spec k k0) as [-> | Hne]; [reflexivity|].
  intros [E|Hin]; [congruence|]. simpl. f_equal. apply IH, Hin.
Qed.

Lemma keys_set d k v :
  Dict.keys (Dict.set d k v)
  = if Dict.has d k then Dict.keys d else Dict.keys d ++ [k].
Proof.
  unfold Dict.has, PyStr.mem.
  destruct (existsb (String.eqb k) (Dict.keys d)) eqn:E.
  - apply keys_set_present. apply existsb_exists in E as [x [Hx Hk]].
    apply String.eqb_eq in Hk. subst. exact Hx.
  - rewrite set_absent.
    + unfold Dict.keys. rewrite map_app. reflexivity.
    + intros Hin. assert (existsb (String.eqb k) (Dict.keys d) = true); [|congruence].
      apply existsb_exists. exists k. split; [exact Hin | apply String.eqb_refl].
Qed.

End DictFacts.

Lemma mem_In (x : string) (l : list string) : PyStr.mem x l = true <-> In x l.
Proof.
  unfold PyStr.mem. rewrite existsb_exists. split.
  - intros [y [Hy E]]. apply String.eqb_eq in E. subst. exact Hy.
  - intros H. exists x. split; [exact H | apply String.eqb_refl].
Qed.

Lemma mem_false (x : string) (l : list string) : PyStr.mem x l = false <-> ~ In x l.
Proof.
  rewrite <- mem_In. destruct (PyStr.mem x l); split; congruence.
Qed.

(** ** The visitor *)

Lemma visit_no_import :
  forall (node : ast) (imports : list string),
    has_import node = false -> ImportVisitor.visit imports node = imports.
Proof.
  fix IH 1. intros node imports H.
  destruct node as [names|module|children]; try discriminate.
  simpl in *. revert imports.
  induction children as [|c cs IHcs]; intros imports; simpl; [reflexivity|].
  simpl in H. apply orb_false_iff in H as [Hc Hcs].
  rewrite (IH c imports Hc). apply IHcs. exact Hcs.
Qed.

(** ** Scanning: what a file contributes *)

Section Scanning.
Import ImportAnalyzer.
Variable rt : runtime.

Lemma record_import_root (ty : import_type) (m : string) (a : t)
  (x : string) :
  project_root (record_import ty m a x) = project_root a.
Proof.
  unfold record_import.
  destruct (Dict.getitem_default [] (import_graph a) m). reflexivity.
Qed.

Lemma record_imports_root (m : string) (l : list string) (a : t) :
  project_root (record_imports rt m l a) = project_root a.
Proof.
  revert a; induction l as [|x l IH]; intros a; simpl; [reflexivity|].
  destruct (_get_import_type rt x) as [ty|]; [|reflexivity].
  rewrite IH. apply record_import_root.
Qed.

Lemma _analyze_file_root (a : t) (f : py_file) :
  project_root (_analyze_file rt a f) = project_root a.
Proof.
  unfold _analyze_file.
  destruct (content f) as [| |tree]; try reflexivity.
  destruct (_get_module_name a (filepath a f)); [|reflexivity].
  destruct (visit_raises rt tree); [reflexivity|].
  apply record_imports_root.
Qed.

Lemma scan_step_root (a : t) (f : py_file) :
  project_root (scan_step rt a f) = project_root a.
Proof.
  unfold scan_step. destruct (_should_skip_file _); [reflexivity|].
  apply _analyze_file_root.
Qed.

Lemma analyze_project_root (files : list py_file) (a : t) :
  project_root (analyze_project rt a files) = project_root a.
Proof.
  unfold analyze_project. revert a.
  induction files as [|f files IH]; intros a; simpl; [reflexivity|].
  rewrite IH. apply scan_step_root.
Qed.

Lemma analyze_project_app (l1 l2 : list py_file) (a : t) :
  analyze_project rt a (l1 ++ l2)
  = analyze_project rt (analyze_project rt a l1) l2.
Proof. unfold analyze_project. apply fold_left_app. Qed.

(** A file on which the step of the loop is the identity in every state
    with the same project root can be taken out of the scan. *)
Lemma analyze_project_drop (f : py_file) (before after : list py_file)
  (a : t) :
  (forall a', project_root a' = project_root a -> scan_step rt a' f = a') ->
  analyze_project rt a (before ++ f :: after)
  = analyze_project rt a (before ++ after).
Proof.
  intros Hid. rewrite !analyze_project_app.
  change (analyze_project rt (analyze_project rt a before) (f :: after))
    with (analyze_project rt (scan_step rt (analyze_project rt a before) f) after).
  rewrite Hid; [reflexivity|]. apply analyze_project_root.
Qed.

Lemma filepath_root (a a' : t) (f : py_file) :
  project_root a' = project_root a -> filepath a' f = filepath a f.
Proof. unfold filepath. intros ->. reflexivity. Qed.

(** C10.  A file whose full path contains one of the skip patterns as a
    substring, wherever in the path it occurs, is skipped by
    [_should_skip_file], and scanning the project with or without that file
    gives the same import graph and the same statistics. *)
Theorem skip_is_by_substring_of_path (a : t) (f : py_file)
  (before after : list py_file) (pattern : string) :
  In pattern skip_patterns ->
  is_substring pattern (Pathlib.str (filepath a f)) ->
  _should_skip_file (filepath a f) = true /\
  analyze_project rt a (before ++ f :: after)
  = analyze_project rt a (before ++ after).
Proof.
  intros Hin Hsub.
  assert (Hskip : _should_skip_file (filepath a f) = true).
  { unfold _should_skip_file. apply orb_true_iff. left.
    apply existsb_exists. exists pattern. split; [exact Hin|].
    apply contains_is_substring. exact Hsub. }
  split; [exact Hskip|].
  apply analyze_project_drop. intros a' Hroot.
  unfold scan_step. rewrite (@filepath_root a a' f Hroot), Hskip. reflexivity.
Qed.


(** C1 (amended).  A file whose syntax tree contains no import statement
    adds nothing: scanning it leaves the import graph and the statistics
    unchanged, so it does not make its module name a key, and the scan gives
    the same result with or without the file. *)
Theorem file_without_imports_adds_nothing (a : t) (f : py_file) (tree : ast)
  (before after : list py_file) :
  content f = Parsed tree ->
  has_import tree = false ->
  _analyze_file rt a f = a /\
  analyze_project rt a (before ++ f :: after)
  = analyze_project rt a (before ++ after).
Proof.
  intros Hc Hno.
  assert (Hid : forall a', _analyze_file rt a' f = a').
  { intros a'. unfold _analyze_file, ImportVisitor.run. rewrite Hc.
    rewrite (visit_no_import tree [] Hno).
    destruct (_get_module_name a' (filepath a' f)); [|reflexivity].
    destruct (visit_raises rt tree); reflexivity. }
  split; [apply Hid|].
  apply analyze_project_drop. intros a' _.
  unfold scan_step. rewrite Hid. destruct (_should_skip_file _); reflexivity.
Qed.

End Scanning.

(** ** Sums over dictionaries *)

Section DictSum.
Variable V : Type.
Variable w : V -> Z.
Implicit Types (d : Dict.t V) (k : string) (v : V).
Local Open Scope Z_scope.

Lemma dict_sum_set d k v :
  dict_sum w (Dict.set d k v)
  = dict_sum w d - match Dict.get d k with Some o => w o | None => 0 end + w v.
Proof.
  induction d as [|[k0 v0] d IH]; simpl.
  - lia.
  - destruct (String.eqb k k0); simpl; [lia|]. rewrite IH. lia.
Qed.

Lemma dict_sum_getitem_default (dflt : V) d k :
  w dflt = 0 ->
  dict_sum w (snd (Dict.getitem_default dflt d k)) = dict_sum w d.
Proof.
  intros H0. unfold Dict.getitem_default.
  destruct (Dict.get d k) eqn:E; simpl; [reflexivity|].
  rewrite dict_sum_set, E. lia.
Qed.

(** Reading [d[k]] through the default factory and storing [f] of it. *)
Lemma dict_sum_update (dflt : V) (f : V -> V) d k :
  w dflt = 0 ->
  dict_sum w (Dict.set (snd (Dict.getitem_default dflt d k)) k
                       (f (fst (Dict.getitem_default dflt d k))))
  = dict_sum w d - w (Dict.get_or d k dflt) + w (f (Dict.get_or d k dflt)).
Proof.
  intros H0. rewrite dict_sum_set, get_getitem_default, String.eqb_refl.
  rewrite dict_sum_getitem_default by exact H0.
  rewrite fst_getitem_default. reflexivity.
Qed.

Lemma get_update (dflt : V) (f : V -> V) d k k' :
  Dict.get (Dict.set (snd (Dict.getitem_default dflt d k)) k
                     (f (fst (Dict.getitem_default dflt d k)))) k'
  = if String.eqb k' k then Some (f (Dict.get_or d k dflt)) else Dict.get d k'.
Proof.
  rewrite get_set, get_getitem_default, fst_getitem_default.
  destruct (String.eqb k' k); reflexivity.
Qed.

End DictSum.

(** ** One recorded import *)

Section RecordImport.
Import ImportAnalyzer.
Variable rt : runtime.
Local Open Scope Z_scope.

Lemma update_stats_eq (f : stats -> stats) (ms : Dict.t stats) (k : string) :
  update_stats f ms k
  = Dict.set (snd (Dict.getitem_default default_stats ms k)) k
             (f (fst (Dict.getitem_default default_stats ms k))).
Proof.
  unfold update_stats. destruct (Dict.getitem_default default_stats ms k).
  reflexivity.
Qed.

Lemma get_update_stats (f : stats -> stats) (ms : Dict.t stats) (k k' : string) :
  Dict.get (update_stats f ms k) k'
  = if String.eqb k' k then Some (f (stats_of ms k)) else Dict.get ms k'.
Proof. rewrite update_stats_eq. apply get_update. Qed.

Lemma stats_of_update_stats (f : stats -> stats) (ms : Dict.t stats)
  (k k' : string) :
  stats_of (update_stats f ms k) k'
  = if String.eqb k' k then f (stats_of ms k) else stats_of ms k'.
Proof.
  unfold stats_of at 1. unfold Dict.get_or. rewrite get_update_stats.
  destruct (String.eqb k' k); reflexivity.
Qed.

Lemma dict_sum_update_stats (w : stats -> Z) (f : stats -> stats)
  (ms : Dict.t stats) (k : string) :
  w default_stats = 0 ->
  dict_sum w (update_stats f ms k)
  = dict_sum w ms - w (stats_of ms k) + w (f (stats_of ms k)).
Proof. intros H. rewrite update_stats_eq. apply dict_sum_update, H. Qed.

(** The graph and the statistics after one iteration of the loop. *)
Lemma import_graph_record_import (ty : import_type) (m : string) (a : t)
  (x : string) :
  import_graph (record_import ty m a x)
  = Dict.set (snd (Dict.getitem_default [] (import_graph a) m)) m
      (edge_set_add (x, ty)
                    (fst (Dict.getitem_default [] (import_graph a) m))).
Proof.
  unfold record_import.
  destruct (Dict.getitem_default [] (import_graph a) m). reflexivity.
Qed.

Lemma module_stats_record_import (ty : import_type) (m : string) (a : t)
  (x : string) :
  module_stats (record_import ty m a x)
  = update_stats
      (fun s => set_type_imports (ty)
                  (type_imports (ty) s + 1) s)
      (update_stats incr_imported_by
         (update_stats incr_imports (module_stats a) m) x) m.
Proof.
  unfold record_import.
  destruct (Dict.getitem_default [] (import_graph a) m). reflexivity.
Qed.

Lemma edges_of_record_import (ty : import_type) (m : string) (a : t)
  (x k : string) :
  edges_of (import_graph (record_import ty m a x)) k
  = if String.eqb k m
    then edge_set_add (x, ty) (edges_of (import_graph a) m)
    else edges_of (import_graph a) k.
Proof.
  rewrite import_graph_record_import. unfold edges_of at 1, Dict.get_or.
  rewrite get_update. destruct (String.eqb k m); reflexivity.
Qed.

Lemma stats_of_record_import (ty : import_type) (m : string) (a : t)
  (x k : string) :
  imports (stats_of (module_stats (record_import ty m a x)) k)
  = imports (stats_of (module_stats a) k) + (if String.eqb k m then 1 else 0)
  /\ imported_by (stats_of (module_stats (record_import ty m a x)) k)
     = imported_by (stats_of (module_stats a) k)
       + (if String.eqb k x then 1 else 0).
Proof.
  rewrite module_stats_record_import. rewrite !stats_of_update_stats.
  rewrite String.eqb_refl.
  repeat match goal with
    | |- context [String.eqb ?p ?q] => destruct (String.eqb_spec p q)
    end;
    subst; try congruence;
    destruct ty; simpl; split; lia.
Qed.

Lemma edge_set_add_fresh (x : string) (ty : import_type) (es : list edge) :
  ~ In x (map fst es) -> edge_set_add (x, ty) es = es ++ [(x, ty)].
Proof.
  intros H. unfold edge_set_add.
  destruct (existsb (edge_eqb (x, ty)) es) eqn:E; [|reflexivity].
  exfalso. apply existsb_exists in E as [[y ty'] [Hin Heq]].
  unfold edge_eqb in Heq. simpl in Heq. apply andb_true_iff in Heq as [Hxy _].
  apply String.eqb_eq in Hxy. subst. apply H.
  apply (in_map fst) in Hin. exact Hin.
Qed.

End RecordImport.

(** ** The counters follow the edges *)

Section Counters.
Import ImportAnalyzer.
Variable rt : runtime.
Local Open Scope Z_scope.

Lemma edges_to_snoc (t x : string) (ty : import_type) (es : list edge) :
  edges_to t (es ++ [(x, ty)])
  = edges_to t es + (if String.eqb x t then 1 else 0).
Proof.
  unfold edges_to. rewrite filter_app, length_app. simpl.
  destruct (String.eqb x t); simpl; lia.
Qed.

Lemma graph_sum_record_import (w : list edge -> Z) (ty : import_type)
  (m : string) (a : t) (x : string) :
  w [] = 0 ->
  dict_sum w (import_graph (record_import ty m a x))
  = dict_sum w (import_graph a) - w (edges_of (import_graph a) m)
    + w (edge_set_add (x, ty) (edges_of (import_graph a) m)).
Proof.
  intros H0. rewrite import_graph_record_import.
  rewrite (dict_sum_update w []
             (fun es => edge_set_add (x, ty) es)
             (import_graph a) m H0).
  reflexivity.
Qed.

Lemma imported_by_sum_record_import (ty : import_type) (m : string) (a : t)
  (x : string) :
  dict_sum imported_by (module_stats (record_import ty m a x))
  = dict_sum imported_by (module_stats a) + 1.
Proof.
  rewrite module_stats_record_import.
  rewrite !dict_sum_update_stats by reflexivity.
  destruct ty; simpl; lia.
Qed.

Lemma record_import_counters (ty : import_type) (m : string) (a : t)
  (x : string) :
  counters_match_edges a ->
  ~ In x (map fst (edges_of (import_graph a) m)) ->
  counters_match_edges (record_import ty m a x).
Proof.
  intros (Himp & Hby & Hsum) Hfresh. unfold counters_match_edges; cbv zeta.
  repeat split.
  - intros k. destruct (stats_of_record_import ty m a x k) as [-> _].
    rewrite edges_of_record_import, Himp.
    destruct (String.eqb_spec k m) as [->|_]; [|lia].
    rewrite (@edge_set_add_fresh _ _ _ Hfresh), length_app. simpl. lia.
  - intros k. destruct (stats_of_record_import ty m a x k) as [_ ->].
    unfold in_degree. rewrite graph_sum_record_import by reflexivity.
    rewrite (@edge_set_add_fresh _ _ _ Hfresh), edges_to_snoc, Hby.
    unfold in_degree. rewrite (String.eqb_sym k x). lia.
  - rewrite imported_by_sum_record_import, Hsum. unfold total_edges.
    rewrite graph_sum_record_import by reflexivity.
    rewrite (@edge_set_add_fresh _ _ _ Hfresh), length_app. simpl. lia.
Qed.

Lemma record_imports_counters (m : string) (l : list string) :
  forall a : t,
    NoDup l ->
    (forall x, In x l -> ~ In x (map fst (edges_of (import_graph a) m))) ->
    counters_match_edges a ->
    counters_match_edges (record_imports rt m l a).
Proof.
  induction l as [|x l IH]; intros a Hnd Hfresh Hinv; simpl; [exact Hinv|].
  destruct (_get_import_type rt x) as [ty|]; [|exact Hinv].
  inversion Hnd as [|? ? Hx Hnd']; subst.
  assert (Hfx : ~ In x (map fst (edges_of (import_graph a) m)))
    by (apply Hfresh; left; reflexivity).
  apply IH; [exact Hnd' | | apply record_import_counters; assumption].
  intros y Hy. rewrite edges_of_record_import, String.eqb_refl.
  rewrite (@edge_set_add_fresh _ _ _ Hfx), map_app, in_app_iff. simpl.
  intros [Hin|[E|[]]].
  - apply (Hfresh y); [right; exact Hy | exact Hin].
  - subst. contradiction.
Qed.

(** The keys of the graph after the loop: the old ones and, if anything
    was imported, the module itself. *)
Lemma record_imports_keys (m : string) (l : list string) :
  forall (a : t) (k : string),
    In k (Dict.keys (import_graph (record_imports rt m l a))) ->
    In k (Dict.keys (import_graph a)) \/ k = m.
Proof.
  induction l as [|x l IH]; intros a k Hk; simpl in Hk; [left; exact Hk|].
  destruct (_get_import_type rt x) as [ty|]; [|left; exact Hk].
  destruct (IH _ _ Hk) as [Hin | ->]; [|right; reflexivity].
  destruct (String.eqb_spec k m) as [-> | Hne]; [right; reflexivity|]. left.
  destruct (Dict.get (import_graph a) k) eqn:E.
  - apply get_Some_In in E. apply (in_map fst) in E. exact E.
  - exfalso. revert Hin. apply get_None_keys.
    rewrite import_graph_record_import, get_update.
    destruct (String.eqb_spec k m); [congruence | exact E].
Qed.

End Counters.

(** ** Sets stay duplicate-free *)

Lemma str_set_add_NoDup (x : string) (s : list string) :
  NoDup s -> NoDup (str_set_add x s).
Proof.
  intros H. unfold str_set_add. destruct (PyStr.mem x s) eqn:E; [exact H|].
  apply mem_false in E. apply NoDup_app; [exact H | repeat constructor; tauto |].
  intros y Hy [<-|[]]. contradiction.
Qed.

Lemma visit_NoDup :
  forall (node : ast) (imports : list string),
    NoDup imports -> NoDup (ImportVisitor.visit imports node).
Proof.
  fix IH 1. intros node imports H.
  destruct node as [names|module|children]; simpl.
  - revert imports H. induction names as [|n names IHn]; intros imports H;
      simpl; [exact H|]. apply IHn, str_set_add_NoDup, H.
  - destruct module as [m|]; [|exact H].
    destruct (PyStr.truthy m); [apply str_set_add_NoDup|]; exact H.
  - revert imports H. induction children as [|c cs IHcs]; intros imports H;
      simpl; [exact H|]. apply IHcs, IH, H.
Qed.

Lemma insert_by_rank_perm (r : string -> nat) (x : string) (l : list string) :
  Permutation (insert_by_rank r x l) (x :: l).
Proof.
  induction l as [|y l IH]; simpl; [reflexivity|].
  destruct (r x <=? r y)%nat; [reflexivity|].
  rewrite IH. apply perm_swap.
Qed.

Lemma sort_by_rank_perm (r : string -> nat) (s : list string) :
  Permutation (fold_right (insert_by_rank r) [] s) s.
Proof.
  induction s as [|x s IH]; simpl; [reflexivity|].
  rewrite insert_by_rank_perm, IH. reflexivity.
Qed.

(** Iterating over a set yields each of its elements once. *)
Lemma set_iteration_perm (rt : runtime) (s : list string) :
  Permutation (set_iteration rt s) s.
Proof. apply sort_by_rank_perm. Qed.

Lemma imports_of_tree_NoDup (rt : runtime) (tree : ast) :
  NoDup (set_iteration rt (ImportVisitor.run tree)).
Proof.
  apply (Permutation_NoDup (Permutation_sym (set_iteration_perm rt _))).
  apply visit_NoDup. constructor.
Qed.

Lemma edge_eqb_eq (a b : edge) : edge_eqb a b = true <-> a = b.
Proof.
  destruct a as [x s], b as [y t]. unfold edge_eqb. simpl.
  rewrite andb_true_iff, String.eqb_eq. split.
  - intros [-> H]. destruct s, t; try discriminate; reflexivity.
  - intros [= -> ->]. split; [reflexivity | destruct t; reflexivity].
Qed.

Lemma edge_set_add_NoDup (e : edge) (s : list edge) :
  NoDup s -> NoDup (edge_set_add e s).
Proof.
  intros H. unfold edge_set_add. destruct (existsb (edge_eqb e) s) eqn:E;
    [exact H|].
  apply NoDup_app; [exact H | repeat constructor; tauto |].
  intros y Hy [<-|[]].
  assert (existsb (edge_eqb e) s = true); [|congruence].
  apply existsb_exists. exists e. split; [exact Hy | apply edge_eqb_eq; reflexivity].
Qed.

Lemma edge_set_add_In (e e' : edge) (s : list edge) :
  In e' (edge_set_add e s) <-> e' = e \/ In e' s.
Proof.
  unfold edge_set_add. destruct (existsb (edge_eqb e) s) eqn:E.
  - apply existsb_exists in E as [y [Hy Heq]]. apply edge_eqb_eq in Heq. subst y.
    split; [tauto | intros [->|H]; assumption].
  - rewrite in_app_iff. simpl. intuition congruence.
Qed.

(** ** The scan keeps the counters in step with the graph *)

Section ScanInvariant.
Import ImportAnalyzer.
Variable rt : runtime.

Lemma record_imports_edge_sets (m : string) (l : list string) :
  forall a : t,
    edge_sets_NoDup a -> edge_sets_NoDup (record_imports rt m l a).
Proof.
  induction l as [|x l IH]; intros a H; simpl; [exact H|].
  destruct (_get_import_type rt x) as [ty|]; [|exact H].
  apply IH. intros k. rewrite edges_of_record_import.
  destruct (String.eqb k m); [apply edge_set_add_NoDup|]; apply H.
Qed.

Lemma _get_module_name_root (a a' : t) (p : Pathlib.Path) :
  project_root a' = project_root a ->
  _get_module_name a' p = _get_module_name a p.
Proof. unfold _get_module_name. intros ->. reflexivity. Qed.

Lemma analysed_modules_root (a a' : t) (files : list py_file) :
  project_root a' = project_root a ->
  analysed_modules a' files = analysed_modules a files.
Proof.
  intros H. unfold analysed_modules.
  induction files as [|f files IH]; simpl; [reflexivity|].
  rewrite IH, (@filepath_root a a' f H).
  rewrite (@_get_module_name_root a a' _ H). reflexivity.
Qed.

Lemma edges_of_absent (g : Dict.t (list edge)) (m : string) :
  ~ In m (Dict.keys g) -> edges_of g m = [].
Proof.
  intros H. apply get_None_keys in H. unfold edges_of, Dict.get_or.
  rewrite H. reflexivity.
Qed.

Lemma analyze_project_invariant (files : list py_file) :
  forall a : t,
    counters_match_edges a ->
    edge_sets_NoDup a ->
    NoDup (analysed_modules a files) ->
    (forall k, In k (Dict.keys (import_graph a)) ->
               ~ In k (analysed_modules a files)) ->
    counters_match_edges (analyze_project rt a files)
    /\ edge_sets_NoDup (analyze_project rt a files).
Proof.
  induction files as [|f files IH]; intros a Hc Hn Hnd Hkeys.
  - split; assumption.
  - change (analyze_project rt a (f :: files))
      with (analyze_project rt (scan_step rt a f) files).
    assert (Hroot := scan_step_root rt a f).
    unfold analysed_modules in Hnd, Hkeys; simpl in Hnd, Hkeys.
    fold (analysed_modules a files) in Hnd, Hkeys.
    unfold scan_step in *.
    destruct (_should_skip_file (filepath a f)); [apply IH; assumption|].
    unfold _analyze_file in *.
    destruct (content f) as [| |tree]; try (apply IH; assumption).
    destruct (_get_module_name a (filepath a f)) as [m|];
      [|apply IH; assumption].
    simpl in Hnd, Hkeys. inversion Hnd as [|? ? Hm Hnd']; subst.
    assert (Hfresh : ~ In m (Dict.keys (import_graph a))).
    { intros Hin. apply (Hkeys m Hin). left; reflexivity. }
    destruct (visit_raises rt tree).
    { apply IH; [exact Hc | exact Hn | exact Hnd' |].
      intros k Hk Hin. apply (Hkeys k Hk). right; exact Hin. }
    apply IH.
    + apply record_imports_counters;
        [apply imports_of_tree_NoDup | | exact Hc].
      intros x _. rewrite (@edges_of_absent _ _ Hfresh). simpl. tauto.
    + apply record_imports_edge_sets, Hn.
    + rewrite (@analysed_modules_root a _ files Hroot). exact Hnd'.
    + rewrite (@analysed_modules_root a _ files Hroot). intros k Hk.
      apply record_imports_keys in Hk as [Hk | ->]; [|exact Hm].
      intros Hin. apply (Hkeys k Hk). right; exact Hin.
Qed.

Lemma init_counters (root : Pathlib.Path) : counters_match_edges (init root).
Proof. repeat split. Qed.

(** C2 (amended).  When no two files that the scan parses derive the same
    module name, after [analyze_project] on a fresh analyzer the [imports]
    counter of every module equals the number of (target, category) pairs
    in its edge set, and that set lists each pair once. *)
Theorem imports_counter_is_edge_count (root : Pathlib.Path)
  (files : list py_file) (m : string) :
  NoDup (analysed_modules (init root) files) ->
  let a := analyze_project rt (init root) files in
  NoDup (edges_of (import_graph a) m) /\
  imports (stats_of (module_stats a) m)
  = Z.of_nat (length (edges_of (import_graph a) m)).
Proof.
  intros Hnd a.
  destruct (@analyze_project_invariant files (init root)) as [Hc Hn].
  - apply init_counters.
  - intros k. constructor.
  - exact Hnd.
  - intros k [].
  - split; [apply Hn | apply Hc].
Qed.

(** C3 (amended).  When no two files that the scan parses derive the same
    module name, after [analyze_project] on a fresh analyzer the
    [imported_by] counters add up to the number of edges of the graph, and
    the counter of each module is the number of edges that point at it. *)
Theorem imported_by_counts_edges (root : Pathlib.Path)
  (files : list py_file) :
  NoDup (analysed_modules (init root) files) ->
  let a := analyze_project rt (init root) files in
  dict_sum imported_by (module_stats a) = total_edges (import_graph a) /\
  forall target,
    imported_by (stats_of (module_stats a) target)
    = in_degree (import_graph a) target.
Proof.
  intros Hnd a.
  destruct (@analyze_project_invariant files (init root)) as [Hc Hn].
  - apply init_counters.
  - intros k. constructor.
  - exact Hnd.
  - intros k [].
  - destruct Hc as (_ & Hby & Hsum). split; [exact Hsum | exact Hby].
Qed.

End ScanInvariant.

(** ** Folding a commutative step over a permuted list *)

Section FoldPermutation.
Variables (A B : Type) (R : A -> A -> Prop) (f : A -> B -> A).
Hypothesis R_refl : forall a, R a a.
Hypothesis R_trans : forall a b c, R a b -> R b c -> R a c.
Hypothesis f_proper : forall a a' b, R a a' -> R (f a b) (f a' b).
Hypothesis f_comm : forall a b c, R (f (f a b) c) (f (f a c) b).

Lemma fold_left_proper (l : list B) :
  forall a a', R a a' -> R (fold_left f l a) (fold_left f l a').
Proof.
  induction l as [|b l IH]; intros a a' H; simpl; [exact H|].
  apply IH, f_proper, H.
Qed.

Lemma fold_left_permutation (l l' : list B) :
  Permutation l l' ->
  forall a a', R a a' -> R (fold_left f l a) (fold_left f l' a').
Proof.
  induction 1 as [|x l l' _ IH|x y l|l l' l'' _ IH1 _ IH2]; intros a a' H.
  - exact H.
  - simpl. apply IH, f_proper, H.
  - simpl. apply fold_left_proper.
    apply R_trans with (f (f a x) y); [apply f_comm|].
    apply f_proper, f_proper, H.
  - apply R_trans with (fold_left f l' a); [apply IH1, R_refl | apply IH2, H].
Qed.

End FoldPermutation.

(** ** When the result of the scan does not depend on the order of iteration *)

Section Reproducible.
Import ImportAnalyzer.
Local Open Scope Z_scope.

Lemma same_stats_refl (ms : Dict.t stats) : same_stats ms ms.
Proof. intros m. reflexivity. Qed.

Lemma same_stats_trans (a b c : Dict.t stats) :
  same_stats a b -> same_stats b c -> same_stats a c.
Proof. intros H1 H2 m. rewrite H1. apply H2. Qed.

Lemma same_set_refl (s : list edge) : same_set s s.
Proof. intros e. reflexivity. Qed.

Lemma same_graph_refl (g : Dict.t (list edge)) : same_graph g g.
Proof. intros m. destruct (Dict.get g m); [apply same_set_refl | exact I]. Qed.

Lemma same_graph_trans (a b c : Dict.t (list edge)) :
  same_graph a b -> same_graph b c -> same_graph a c.
Proof.
  intros H1 H2 m. specialize (H1 m). specialize (H2 m).
  destruct (Dict.get a m), (Dict.get b m), (Dict.get c m);
    try contradiction; try exact I.
  intros e. rewrite (H1 e). apply H2.
Qed.

Lemma same_graph_edges_of (g g' : Dict.t (list edge)) (m : string) :
  same_graph g g' -> same_set (edges_of g m) (edges_of g' m).
Proof.
  intros H. specialize (H m). unfold edges_of, Dict.get_or.
  destruct (Dict.get g m), (Dict.get g' m); try contradiction;
    [exact H | apply same_set_refl].
Qed.

Lemma same_set_add (e : edge) (s s' : list edge) :
  same_set s s' -> same_set (edge_set_add e s) (edge_set_add e s').
Proof. intros H e'. rewrite !edge_set_add_In, (H e'). reflexivity. Qed.

Lemma same_set_add_comm (e1 e2 : edge) (s : list edge) :
  same_set (edge_set_add e1 (edge_set_add e2 s))
           (edge_set_add e2 (edge_set_add e1 s)).
Proof. intros e'. rewrite !edge_set_add_In. tauto. Qed.

Lemma get_graph_step (rt : runtime) (g : Dict.t (list edge))
  (p : string * string) (m : string) :
  Dict.get (graph_step rt g p) m
  = if String.eqb m (fst p)
    then Some (edge_set_add (snd p, import_type_of rt (snd p))
                            (edges_of g (fst p)))
    else Dict.get g m.
Proof. unfold graph_step. rewrite get_update. reflexivity. Qed.

Lemma edges_of_graph_step (rt : runtime) (g : Dict.t (list edge))
  (p : string * string) (m : string) :
  edges_of (graph_step rt g p) m
  = if String.eqb m (fst p)
    then edge_set_add (snd p, import_type_of rt (snd p)) (edges_of g (fst p))
    else edges_of g m.
Proof.
  unfold edges_of at 1, Dict.get_or. rewrite get_graph_step.
  destruct (String.eqb m (fst p)); reflexivity.
Qed.

Lemma graph_step_proper (rt : runtime) (g g' : Dict.t (list edge))
  (p : string * string) :
  same_graph g g' -> same_graph (graph_step rt g p) (graph_step rt g' p).
Proof.
  intros H m. rewrite !get_graph_step.
  destruct (String.eqb m (fst p)); [|apply H].
  apply same_set_add, same_graph_edges_of, H.
Qed.

Lemma graph_step_comm (rt : runtime) (g : Dict.t (list edge))
  (p q : string * string) :
  same_graph (graph_step rt (graph_step rt g p) q)
             (graph_step rt (graph_step rt g q) p).
Proof.
  intros m. rewrite !get_graph_step, !edges_of_graph_step.
  destruct (String.eqb_spec m (fst q)) as [Hq|Hq];
    destruct (String.eqb_spec m (fst p)) as [Hp|Hp]; subst.
  - rewrite <- Hp, String.eqb_refl. apply same_set_add_comm.
  - destruct (String.eqb_spec (fst q) (fst p)); [congruence|].
    apply same_set_refl.
  - destruct (String.eqb_spec (fst p) (fst q)); [congruence|].
    apply same_set_refl.
  - destruct (Dict.get g m); [apply same_set_refl | exact I].
Qed.

Lemma bump_comm (c c' : counter) (s : stats) :
  bump c (bump c' s) = bump c' (bump c s).
Proof.
  destruct s. destruct c as [| |[]], c' as [| |[]]; reflexivity.
Qed.

Lemma get_bump_step (ms : Dict.t stats) (b : counter * string) (m : string) :
  Dict.get (bump_step ms b) m
  = if String.eqb m (snd b) then Some (bump (fst b) (stats_of ms (snd b)))
    else Dict.get ms m.
Proof. unfold bump_step. apply get_update_stats. Qed.

Lemma same_stats_stats_of (ms ms' : Dict.t stats) (m : string) :
  same_stats ms ms' -> stats_of ms m = stats_of ms' m.
Proof. intros H. unfold stats_of, Dict.get_or. rewrite (H m). reflexivity. Qed.

Lemma bump_step_proper (ms ms' : Dict.t stats) (b : counter * string) :
  same_stats ms ms' -> same_stats (bump_step ms b) (bump_step ms' b).
Proof.
  intros H m. rewrite !get_bump_step, (same_stats_stats_of _ H), (H m).
  reflexivity.
Qed.

Lemma stats_of_bump_step (ms : Dict.t stats) (b : counter * string)
  (m : string) :
  stats_of (bump_step ms b) m
  = if String.eqb m (snd b) then bump (fst b) (stats_of ms (snd b))
    else stats_of ms m.
Proof.
  unfold stats_of at 1, Dict.get_or. rewrite get_bump_step.
  destruct (String.eqb m (snd b)); reflexivity.
Qed.

Lemma bump_step_comm (ms : Dict.t stats) (b c : counter * string) :
  same_stats (bump_step (bump_step ms b) c) (bump_step (bump_step ms c) b).
Proof.
  intros m. rewrite !get_bump_step, !stats_of_bump_step.
  destruct (String.eqb_spec m (snd c)) as [Hc|Hc];
    destruct (String.eqb_spec m (snd b)) as [Hb|Hb]; subst.
  - rewrite <- Hb, String.eqb_refl. f_equal. apply bump_comm.
  - destruct (String.eqb_spec (snd c) (snd b)); [congruence | reflexivity].
  - destruct (String.eqb_spec (snd b) (snd c)); [congruence | reflexivity].
  - reflexivity.
Qed.

Lemma import_graph_record_pairs (rt : runtime) (l : list (string * string)) :
  forall a : t,
    import_graph (fold_left (record_pair rt) l a)
    = fold_left (graph_step rt) l (import_graph a).
Proof.
  induction l as [|p l IH]; intros a; simpl; [reflexivity|].
  rewrite IH. f_equal. apply import_graph_record_import.
Qed.

Lemma module_stats_record_pairs (rt : runtime) (l : list (string * string)) :
  forall a : t,
    module_stats (fold_left (record_pair rt) l a)
    = fold_left bump_step (flat_map (bumps_of rt) l) (module_stats a).
Proof.
  induction l as [|p l IH]; intros a; simpl; [reflexivity|].
  rewrite IH. f_equal. apply module_stats_record_import.
Qed.

Lemma record_imports_as_pairs (rt : runtime) (m : string) (l : list string) :
  forall a : t,
    record_imports rt m l a
    = fold_left (record_pair rt) (map (pair m) (resolved_prefix rt l)) a.
Proof.
  induction l as [|x l IH]; intros a; simpl; [reflexivity|].
  destruct (_get_import_type rt x) as [ty|] eqn:E; [|reflexivity].
  simpl. rewrite IH. unfold record_pair, import_type_of. simpl.
  rewrite E. reflexivity.
Qed.

Lemma scan_step_as_pairs (rt : runtime) (a : t) (f : py_file) :
  scan_step rt a f = fold_left (record_pair rt) (imports_of rt a f) a.
Proof.
  unfold scan_step, imports_of, _analyze_file.
  destruct (_should_skip_file (filepath a f)); [reflexivity|].
  destruct (content f) as [| |tree]; try reflexivity.
  destruct (_get_module_name a (filepath a f)); [|reflexivity].
  destruct (visit_raises rt tree); [reflexivity|].
  apply record_imports_as_pairs.
Qed.

Lemma imports_of_root (rt : runtime) (a a' : t) (f : py_file) :
  project_root a' = project_root a -> imports_of rt a' f = imports_of rt a f.
Proof.
  intros H. unfold imports_of.
  rewrite (@filepath_root a a' f H), (@_get_module_name_root a a' _ H).
  reflexivity.
Qed.

Lemma analyze_project_as_pairs (rt : runtime) (files : list py_file) :
  forall a : t,
    analyze_project rt a files
    = fold_left (record_pair rt) (flat_map (imports_of rt a) files) a.
Proof.
  induction files as [|f files IH]; intros a; [reflexivity|].
  change (analyze_project rt a (f :: files))
    with (analyze_project rt (scan_step rt a f) files).
  simpl. rewrite fold_left_app, IH, <- scan_step_as_pairs. f_equal.
  apply flat_map_ext. intros f'. apply imports_of_root, scan_step_root.
Qed.

Lemma fold_left_pointwise (A B : Type) (f g : A -> B -> A) (l : list B) :
  (forall a b, f a b = g a b) ->
  forall a, fold_left f l a = fold_left g l a.
Proof.
  intros H. induction l as [|b l IH]; intros a; simpl; [reflexivity|].
  rewrite H. apply IH.
Qed.

Lemma same_resolution_import_type (rt1 rt2 : runtime) (m : string) :
  same_resolution rt1 rt2 -> _get_import_type rt1 m = _get_import_type rt2 m.
Proof.
  intros (Hb & Hf & _). unfold _get_import_type. rewrite Hb, Hf. reflexivity.
Qed.

Lemma same_resolution_import_type_of (rt1 rt2 : runtime) (m : string) :
  same_resolution rt1 rt2 -> import_type_of rt1 m = import_type_of rt2 m.
Proof.
  intros H. unfold import_type_of.
  rewrite (@same_resolution_import_type rt1 rt2 m H). reflexivity.
Qed.

(** When every import gets a category, the loop records all of them. *)
Lemma resolved_prefix_all (rt : runtime) (l : list string) :
  (forall x, In x l -> _get_import_type rt x <> None) ->
  resolved_prefix rt l = l.
Proof.
  induction l as [|x l IH]; intros H; simpl; [reflexivity|].
  destruct (_get_import_type rt x) eqn:E.
  - rewrite IH; [reflexivity|]. intros y Hy. apply H. right. exact Hy.
  - destruct (H x (or_introl eq_refl) E).
Qed.

Lemma resolved_prefix_In (rt : runtime) (l : list string) (x : string) :
  In x (resolved_prefix rt l) -> In x l /\ _get_import_type rt x <> None.
Proof.
  induction l as [|y l IH]; simpl; [intros []|].
  destruct (_get_import_type rt y) eqn:E; [|intros []].
  intros [<-|H]; [split; [left; reflexivity | congruence]|].
  destruct (IH H) as [H1 H2]. split; [right; exact H1 | exact H2].
Qed.

Lemma imports_of_permutation (rt1 rt2 : runtime) (a : t) (f : py_file) :
  same_resolution rt1 rt2 ->
  imports_resolve rt1 a [f] ->
  Permutation (imports_of rt1 a f) (imports_of rt2 a f).
Proof.
  intros Hres Hall. unfold imports_of.
  destruct (_should_skip_file (filepath a f)) eqn:Hs; [reflexivity|].
  destruct (content f) as [| |tree] eqn:Hc; try reflexivity.
  destruct (_get_module_name a (filepath a f)); [|reflexivity].
  destruct Hres as (Hb & Hf & Hv). rewrite <- (Hv tree).
  destruct (visit_raises rt1 tree) eqn:Hr; [reflexivity|].
  apply Permutation_map.
  assert (H1 : forall x, In x (ImportVisitor.run tree) ->
                         _get_import_type rt1 x <> None).
  { intros x Hx. apply (Hall f tree x); try assumption. left. reflexivity. }
  rewrite !resolved_prefix_all.
  - rewrite (set_iteration_perm rt1), (set_iteration_perm rt2). reflexivity.
  - intros x Hx.
    rewrite <- (@same_resolution_import_type rt1 rt2 x
                  (conj Hb (conj Hf Hv))).
    apply H1. apply (Permutation_in _ (set_iteration_perm rt2 _)). exact Hx.
  - intros x Hx. apply H1.
    apply (Permutation_in _ (set_iteration_perm rt1 _)). exact Hx.
Qed.

Lemma flat_map_permutation_pointwise (A B : Type) (F G : A -> list B)
  (l : list A) :
  (forall x, In x l -> Permutation (F x) (G x)) ->
  Permutation (flat_map F l) (flat_map G l).
Proof.
  induction l as [|x l IH]; intros H; simpl; [reflexivity|].
  apply Permutation_app; [apply H; left; reflexivity|].
  apply IH. intros y Hy. apply H. right. exact Hy.
Qed.

Lemma all_imports_permutation (rt1 rt2 : runtime) (a : t)
  (files1 files2 : list py_file) :
  same_resolution rt1 rt2 ->
  imports_resolve rt1 a files1 ->
  Permutation files1 files2 ->
  Permutation (flat_map (imports_of rt1 a) files1)
              (flat_map (imports_of rt2 a) files2).
Proof.
  intros Hres Hall H.
  rewrite <- (Permutation_flat_map (imports_of rt2 a) H).
  apply flat_map_permutation_pointwise. intros f Hf.
  apply imports_of_permutation; [exact Hres|].
  intros f' tree x [<-|[]]. apply Hall. exact Hf.
Qed.

(** C8 (amended).  Two runs of [analyze_project] on the same tree in the
    same environment produce the same import graph and the same statistics,
    whatever the order in which each run enumerates the files and iterates
    over its sets, provided [find_spec] raises for none of the imports of
    the files that are analysed.  Load times are not part of the scan. *)
Theorem analysis_is_reproducible (rt1 rt2 : runtime) (root : Pathlib.Path)
  (files1 files2 : list py_file) :
  same_resolution rt1 rt2 ->
  Permutation files1 files2 ->
  imports_resolve rt1 (init root) files1 ->
  same_graph (import_graph (analyze_project rt1 (init root) files1))
             (import_graph (analyze_project rt2 (init root) files2))
  /\ same_stats (module_stats (analyze_project rt1 (init root) files1))
                (module_stats (analyze_project rt2 (init root) files2)).
Proof.
  intros Hres Hperm Hall.
  rewrite !analyze_project_as_pairs.
  rewrite !import_graph_record_pairs, !module_stats_record_pairs.
  assert (HP := all_imports_permutation Hres Hall Hperm).
  split.
  - rewrite (@fold_left_pointwise _ _ (graph_step rt1) (graph_step rt2)).
    + apply (@fold_left_permutation _ _ same_graph (graph_step rt2)
               same_graph_refl same_graph_trans
               (graph_step_proper rt2) (graph_step_comm rt2) _ _ HP).
      apply same_graph_refl.
    + intros g p. unfold graph_step.
      rewrite (@same_resolution_import_type_of rt1 rt2 _ Hres). reflexivity.
  - apply (@fold_left_permutation _ _ same_stats bump_step
             same_stats_refl same_stats_trans
             bump_step_proper bump_step_comm).
    + rewrite (flat_map_ext (bumps_of rt1) (bumps_of rt2)).
      * apply Permutation_flat_map, HP.
      * intros p. unfold bumps_of.
        rewrite (@same_resolution_import_type_of rt1 rt2 _ Hres). reflexivity.
    + apply same_stats_refl.
Qed.

End Reproducible.

(** ** Suggestions *)

Section Suggestions.
Import Suggest.
Local Open Scope Z_scope.

Lemma comprehension_from (value : stats -> Z) (cond : stats -> bool)
  (d : Dict.t stats) :
  forall acc : Dict.t Z,
    NoDup (Dict.keys d) ->
    (forall k, In k (Dict.keys d) -> ~ In k (Dict.keys acc)) ->
    fold_left
      (fun acc (kv : string * stats) =>
         if cond (snd kv) then Dict.set acc (fst kv) (value (snd kv)) else acc)
      d acc
    = acc ++ map (fun kv => (fst kv, value (snd kv)))
                 (filter (fun kv => cond (snd kv)) d).
Proof.
  induction d as [|[k s] d IH]; intros acc Hnd Hdisj; simpl.
  - rewrite app_nil_r. reflexivity.
  - inversion Hnd as [|? ? Hk Hnd']; subst.
    destruct (cond s); simpl.
    + rewrite IH; [| exact Hnd' |].
      * rewrite set_absent by (apply Hdisj; left; reflexivity).
        rewrite <- app_assoc. reflexivity.
      * intros k' Hk'. rewrite set_absent by (apply Hdisj; left; reflexivity).
        unfold Dict.keys. rewrite map_app, in_app_iff. simpl.
        intros [Hin|[E|[]]].
        -- apply (Hdisj k'); [right; exact Hk' | exact Hin].
        -- subst. contradiction.
    + apply IH; [exact Hnd'|]. intros k' Hk'. apply Hdisj. right; exact Hk'.
Qed.

Lemma comprehension_filter_map (value : stats -> Z) (cond : stats -> bool)
  (d : Dict.t stats) :
  NoDup (Dict.keys d) ->
  comprehension value cond d
  = map (fun kv => (fst kv, value (snd kv)))
        (filter (fun kv => cond (snd kv)) d).
Proof.
  intros Hnd. unfold comprehension.
  rewrite comprehension_from; [reflexivity | exact Hnd | intros k _ []].
Qed.

Lemma insert_desc_perm (x : string * Z) (l : list (string * Z)) :
  Permutation (insert_desc x l) (x :: l).
Proof.
  induction l as [|y l IH]; simpl; [reflexivity|].
  destruct (snd y <=? snd x); [reflexivity|].
  rewrite IH. apply perm_swap.
Qed.

Lemma sorted_by_count_perm (d : Dict.t Z) : Permutation (sorted_by_count d) d.
Proof.
  induction d as [|x d IH]; simpl; [reflexivity|].
  rewrite insert_desc_perm, IH. reflexivity.
Qed.

Lemma insert_desc_descending (x : string * Z) (l : list (string * Z)) :
  descending l -> descending (insert_desc x l).
Proof.
  unfold descending. induction l as [|y l IH]; intros H; simpl.
  - repeat constructor.
  - inversion H as [|? ? Hl Hy]; subst.
    destruct (Z.leb_spec (snd y) (snd x)) as [Hle|Hlt].
    + constructor; [exact H|]. constructor; [exact Hle|].
      eapply Forall_impl; [|exact Hy]. simpl. intros z Hz. lia.
    + constructor; [apply IH, Hl|].
      apply (Permutation_Forall (Permutation_sym (insert_desc_perm x l))).
      constructor; [lia | exact Hy].
Qed.

Lemma sorted_by_count_descending (d : Dict.t Z) : descending (sorted_by_count d).
Proof.
  induction d as [|x d IH]; simpl; [constructor|].
  apply insert_desc_descending, IH.
Qed.

Lemma NoDup_keys_filter (A : Type) (p : string * A -> bool)
  (d : list (string * A)) :
  NoDup (map fst d) -> NoDup (map fst (filter p d)).
Proof.
  induction d as [|x d IH]; simpl; intros H; [constructor|].
  inversion H as [|? ? Hx Hd]; subst.
  destruct (p x); simpl; [|apply IH, Hd].
  constructor; [|apply IH, Hd].
  intros Hin. apply Hx. apply in_map_iff in Hin as [y [Hy Hin]].
  apply filter_In in Hin as [Hin _]. rewrite <- Hy. apply in_map, Hin.
Qed.

(** The sorted comprehension lists the qualifying modules. *)
Lemma sorted_comprehension_ranking (value : stats -> Z) (threshold : Z)
  (ms : Dict.t stats) :
  NoDup (Dict.keys ms) ->
  ranking value threshold ms
    (sorted_by_count
       (comprehension value (fun s => threshold <? value s) ms)).
Proof.
  intros Hnd. rewrite comprehension_filter_map by exact Hnd.
  set (d := map _ _). repeat split.
  - intros H. apply (Permutation_in _ (sorted_by_count_perm d)) in H.
    unfold d in H. apply in_map_iff in H as [[m' s] [E Hin]].
    apply filter_In in Hin as [Hin Hc]. simpl in *. inversion E; subst.
    exists s. repeat split; [exact Hin | apply Z.ltb_lt, Hc].
  - intros (s & Hin & Hv & Hlt).
    apply (Permutation_in _ (Permutation_sym (sorted_by_count_perm d))).
    unfold d. apply in_map_iff. exists (m, s). simpl. split; [congruence|].
    apply filter_In. split; [exact Hin|]. simpl. apply Z.ltb_lt. lia.
  - apply sorted_by_count_descending.
  - apply (Permutation_NoDup
             (Permutation_map fst (Permutation_sym (sorted_by_count_perm d)))).
    unfold d. rewrite map_map. simpl. apply NoDup_keys_filter, Hnd.
Qed.

Lemma sorted_by_count_nil (d : Dict.t Z) :
  nonempty d = false -> sorted_by_count d = [].
Proof. destruct d; [reflexivity | discriminate]. Qed.

Lemma insert_desc_cons (x : string * Z) (l : list (string * Z)) :
  exists y l', insert_desc x l = y :: l'.
Proof.
  destruct l as [|y l]; simpl; [eexists _, _; reflexivity|].
  destruct (snd y <=? snd x); eexists _, _; reflexivity.
Qed.

Lemma sorted_by_count_cons (d : Dict.t Z) :
  nonempty d = true -> exists y l', sorted_by_count d = y :: l'.
Proof.
  destruct d as [|x d]; [discriminate|]. intros _. apply insert_desc_cons.
Qed.

(** One block of [suggest_optimizations] appends one section. *)
Lemma append_section (acc : list string) (header : string)
  (line : string * Z -> string) (d : Dict.t Z) :
  (if nonempty d
   then (acc ++ [header]) ++ map line (sorted_by_count d)
   else acc)
  = acc ++ report_section header line (sorted_by_count d).
Proof.
  destruct (nonempty d) eqn:E.
  - destruct (sorted_by_count_cons d E) as (y & l' & ->).
    unfold report_section. rewrite <- app_assoc. reflexivity.
  - rewrite (sorted_by_count_nil d E). simpl. rewrite app_nil_r. reflexivity.
Qed.

Lemma append_capped_section (acc : list string) (header : string)
  (line : string * Z -> string) (d : Dict.t Z) :
  (if nonempty d
   then (acc ++ [header]) ++ map line (firstn 5 (sorted_by_count d))
   else acc)
  = acc ++ report_section header line (firstn 5 (sorted_by_count d)).
Proof.
  destruct (nonempty d) eqn:E.
  - destruct (sorted_by_count_cons d E) as (y & l' & ->).
    unfold report_section. simpl. rewrite <- app_assoc. reflexivity.
  - rewrite (sorted_by_count_nil d E). simpl. rewrite app_nil_r. reflexivity.
Qed.

Lemma method_is_function (a : ImportAnalyzer.t) :
  ImportAnalyzer.suggest_optimizations a
  = Optimizer.suggest_optimizations (ImportAnalyzer.module_stats a).
Proof. reflexivity. Qed.

(** C7.  For a statistics dictionary, the suggestions are four sections in
    a row.  The first lists exactly the modules whose [imports] counter is
    greater than 10, the second those imported by more than 5 modules; the
    third and fourth list the first five of the modules with more than 3
    third-party imports and with more than 5 local imports.  Each list is
    by decreasing count, names each module once, and is printed as a header
    followed by one line per listed module, or as nothing when it is empty.
    The method of the analyzer returns the same list. *)
Theorem suggestions_are_ranked_sections (a : ImportAnalyzer.t) :
  NoDup (Dict.keys (ImportAnalyzer.module_stats a)) ->
  exists heavy common third loc : list (string * Z),
    ranking imports 10 (ImportAnalyzer.module_stats a) heavy /\
    ranking imported_by 5 (ImportAnalyzer.module_stats a) common /\
    ranking (type_imports T_third_party) 3 (ImportAnalyzer.module_stats a) third /\
    ranking (type_imports T_local) 5 (ImportAnalyzer.module_stats a) loc /\
    Optimizer.suggest_optimizations (ImportAnalyzer.module_stats a)
    = report_section heavy_header heavy_line heavy
      ++ report_section common_header common_line common
      ++ report_section third_party_header third_party_line (firstn 5 third)
      ++ report_section local_header local_line (firstn 5 loc) /\
    ImportAnalyzer.suggest_optimizations a
    = Optimizer.suggest_optimizations (ImportAnalyzer.module_stats a).
Proof.
  intros Hnd. set (ms := ImportAnalyzer.module_stats a) in *.
  exists (sorted_by_count (comprehension imports (fun s => 10 <? imports s) ms)),
         (sorted_by_count
            (comprehension imported_by (fun s => 5 <? imported_by s) ms)),
         (sorted_by_count
            (comprehension (type_imports T_third_party)
               (fun s => 3 <? type_imports T_third_party s) ms)),
         (sorted_by_count
            (comprehension (type_imports T_local)
               (fun s => 5 <? type_imports T_local s) ms)).
  repeat (split; [apply sorted_comprehension_ranking, Hnd|]).
  split; [|reflexivity].
  unfold Optimizer.suggest_optimizations. cbv zeta.
  rewrite append_section, append_section.
  rewrite append_capped_section, append_capped_section.
  simpl app at 1. rewrite <- !app_assoc. reflexivity.
Qed.

End Suggestions.

(** ** Cycle detection: every reported list is a cycle *)

Section CycleSoundness.
Import ImportAnalyzer.

Lemma same_edges_refl (g : Dict.t (list edge)) : same_edges g g.
Proof. intros k. reflexivity. Qed.

Lemma same_edges_trans (g1 g2 g3 : Dict.t (list edge)) :
  same_edges g1 g2 -> same_edges g2 g3 -> same_edges g1 g3.
Proof. intros H1 H2 k. rewrite H2. apply H1. Qed.

(** Reading a key through the default factory does not change the edges. *)
Lemma getitem_default_edges (g : Dict.t (list edge)) (node : string) :
  fst (Dict.getitem_default [] g node) = edges_of g node /\
  same_edges g (snd (Dict.getitem_default [] g node)).
Proof.
  split; [apply fst_getitem_default|].
  intros k. unfold edges_of at 1, Dict.get_or.
  rewrite get_getitem_default.
  destruct (String.eqb_spec k node) as [->|]; reflexivity.
Qed.

Lemma chain_app_last (g : Dict.t (list edge)) (path : list string)
  (node : string) :
  chain g path ->
  (path = [] \/ has_edge g (last path "") node) ->
  chain g (path ++ [node]).
Proof.
  induction path as [|x path IH]; intros Hc Hl; [exact I|].
  destruct path as [|y path].
  - destruct Hl as [Hl|Hl]; [discriminate|]. simpl. split; [exact Hl | exact I].
  - destruct Hc as [Hxy Hc]. split; [exact Hxy|].
    apply IH; [exact Hc|]. right. destruct Hl as [Hl|Hl]; [discriminate|].
    exact Hl.
Qed.

Lemma chain_suffix (g : Dict.t (list edge)) (pre post : list string) :
  chain g (pre ++ post) -> chain g post.
Proof.
  induction pre as [|x pre IH]; intros H; [exact H|].
  apply IH. simpl in H. destruct (pre ++ post); [exact I | apply H].
Qed.

Lemma last_app_cons (pre post : list string) (x d : string) :
  last (pre ++ x :: post) d = last (x :: post) d.
Proof.
  induction pre as [|y pre IH]; [reflexivity|].
  simpl app. rewrite <- IH. simpl. destruct (pre ++ x :: post) eqn:E;
    [destruct pre; discriminate | reflexivity].
Qed.

(** [path[path.index(node):]] when [node] is on the path. *)
Lemma skipn_index (node : string) (path : list string) :
  In node path ->
  exists pre post,
    path = pre ++ node :: post /\
    skipn (index node path) path = node :: post.
Proof.
  induction path as [|x path IH]; intros H; [destruct H|]. simpl.
  destruct (String.eqb_spec node x) as [->|Hne].
  - exists [], path. split; reflexivity.
  - destruct H as [E|H]; [congruence|].
    destruct (IH H) as (pre & post & Hp & Hs).
    exists (x :: pre), post. split; [simpl; congruence | exact Hs].
Qed.

Lemma closing_subpath_is_cycle (g : Dict.t (list edge)) (node : string)
  (path : list string) :
  In node path -> NoDup path -> chain g path ->
  has_edge g (last path "") node ->
  simple_cycle g (skipn (index node path) path).
Proof.
  intros Hin Hnd Hc He.
  destruct (skipn_index node path Hin) as (pre & post & Hp & ->).
  rewrite Hp in Hnd, Hc, He. repeat split.
  - discriminate.
  - apply NoDup_app_remove_l in Hnd. exact Hnd.
  - apply chain_suffix in Hc. exact Hc.
  - rewrite last_app_cons in He. exact He.
Qed.

Lemma find_cycles_S (fuel : nat) (node : string) (path visited : list string)
  (g : Dict.t (list edge)) :
  find_cycles (S fuel) node path (visited, g)
  = if PyStr.mem node path then
      Some ([skipn (index node path) path], (visited, g))
    else if PyStr.mem node visited then Some ([], (visited, g))
    else
      fold_left (visit_neighbor fuel (path ++ [node]))
                (fst (Dict.getitem_default [] g node))
                (Some ([], (node :: visited,
                            snd (Dict.getitem_default [] g node)))).
Proof.
  simpl. destruct (PyStr.mem node path); [reflexivity|].
  destruct (PyStr.mem node visited); [reflexivity|].
  destruct (Dict.getitem_default [] g node). reflexivity.
Qed.

Lemma visit_neighbors_None (fuel : nat) (path : list string) (es : list edge) :
  fold_left (visit_neighbor fuel path) es None = None.
Proof. induction es as [|e es IH]; [reflexivity | exact IH]. Qed.

Section Sound.
Variable g0 : Dict.t (list edge).

Lemma visit_neighbors_sound (fuel : nat) (path : list string) :
  call_sound g0 fuel ->
  forall es cs0 st0 cs st',
    same_edges g0 (snd st0) ->
    fold_left (visit_neighbor fuel path) es (Some (cs0, st0)) = Some (cs, st') ->
    same_edges g0 (snd st') /\
    (NoDup path -> chain g0 path ->
     (forall e, In e es -> has_edge g0 (last path "") (fst e)) ->
     path <> [] ->
     Forall (simple_cycle g0) cs0 -> Forall (simple_cycle g0) cs).
Proof.
  intros IH. induction es as [|e es IHes]; intros cs0 st0 cs st' Hg Hf.
  - simpl in Hf. inversion Hf; subst. split; [exact Hg | tauto].
  - simpl in Hf.
    destruct (find_cycles fuel (fst e) path st0) as [[cs1 st1]|] eqn:Hcall;
      [|rewrite visit_neighbors_None in Hf; discriminate].
    destruct (IH _ _ _ _ _ Hg Hcall) as [Hg1 Hs1].
    destruct (IHes _ _ _ _ Hg1 Hf) as [Hg' Hs'].
    split; [exact Hg'|]. intros Hnd Hc He Hne H0.
    apply Hs'; try assumption.
    + intros e' He'. apply He. right; exact He'.
    + apply Forall_app. split; [exact H0|].
      apply Hs1; try assumption. right. apply He. left; reflexivity.
Qed.

Lemma find_cycles_sound (fuel : nat) : call_sound g0 fuel.
Proof.
  induction fuel as [|fuel IH]; intros node path [visited g] cs st' Hg Hf.
  - discriminate.
  - rewrite find_cycles_S in Hf.
    destruct (PyStr.mem node path) eqn:Hp.
    { inversion Hf; subst. split; [exact Hg|]. intros Hnd Hc Hl.
      apply mem_In in Hp. constructor; [|constructor].
      apply closing_subpath_is_cycle; try assumption.
      destruct Hl as [->|Hl]; [destruct Hp | exact Hl]. }
    destruct (PyStr.mem node visited) eqn:Hv.
    { inversion Hf; subst. split; [exact Hg | intros; constructor]. }
    destruct (getitem_default_edges g node) as [Hes Hg1].
    simpl in Hg.
    destruct (@visit_neighbors_sound fuel (path ++ [node]) IH _ []
                (node :: visited, snd (Dict.getitem_default [] g node))
                cs st' (same_edges_trans Hg Hg1) Hf) as [Hg' Hs].
    split; [exact Hg'|]. intros Hnd Hc Hl. apply Hs.
    + apply mem_false in Hp. apply NoDup_app; [exact Hnd | | ].
      * repeat constructor. tauto.
      * intros x Hx [<-|[]]. contradiction.
    + apply chain_app_last; assumption.
    + intros e He. rewrite last_last. unfold has_edge.
      rewrite Hes, (Hg node) in He. apply in_map, He.
    + destruct path; discriminate.
    + constructor.
Qed.

End Sound.

(** The loop over the keys: a normal return carries sound cycles only. *)
Lemma for_each_node_sound (g0 : Dict.t (list edge)) (fuel size : nat)
  (todo : list string) :
  forall all_cycles st cs st',
    same_edges g0 (snd st) ->
    Forall (simple_cycle g0) all_cycles ->
    for_each_node fuel size todo all_cycles st = Some (Returns cs, st') ->
    Forall (simple_cycle g0) cs.
Proof.
  induction todo as [|node todo IH]; intros all_cycles st cs st' Hg H0 Hf;
    simpl in Hf; destruct (negb (length (snd st) =? size)%nat);
    try discriminate.
  - inversion Hf; subst. exact H0.
  - destruct (find_cycles fuel node [] st) as [[cs1 st1]|] eqn:Hcall;
      [|discriminate].
    destruct (@find_cycles_sound g0 fuel _ _ _ _ _ Hg Hcall) as [Hg1 Hs1].
    apply (IH _ _ _ _ Hg1) in Hf; [exact Hf|].
    apply Forall_app. split; [exact H0|].
    apply Hs1; [constructor | exact I | left; reflexivity].
Qed.

Lemma search_reports_simple_cycles (fuel : nat) (a : t)
  (cycles : list (list string)) (c : list string) (st' : search_state) :
  for_each_node fuel (length (import_graph a))
                (Dict.keys (import_graph a)) [] ([], import_graph a)
  = Some (Returns cycles, st') ->
  In c cycles ->
  simple_cycle (import_graph a) c.
Proof.
  intros Hf Hin.
  assert (Hs := @for_each_node_sound (import_graph a) _ _ _ []
                  ([], import_graph a) _ _
                  (same_edges_refl _) (Forall_nil _) Hf).
  rewrite Forall_forall in Hs. apply Hs, Hin.
Qed.

(** C6.  Every list that [get_circular_dependencies] returns is a simple
    cycle of the import graph: it is not empty, its modules are pairwise
    distinct, each has an edge to the next, and the last has an edge to the
    first.  This holds for every order of the keys and of the edge sets. *)
Theorem reported_cycles_are_simple_cycles (rt : runtime) (a : t)
  (cycles : list (list string)) (c : list string) :
  get_circular_dependencies rt a = Some (Returns cycles) ->
  In c cycles ->
  simple_cycle (import_graph a) c.
Proof.
  unfold get_circular_dependencies, search. intros H Hin.
  destruct (for_each_node _ _ _ _ _) as [[r st']|] eqn:Hf; [|discriminate].
  simpl in H. inversion H; subst.
  apply (@search_reports_simple_cycles _ a cycles c st' Hf Hin).
Qed.

End CycleSoundness.

(** ** Cycle detection: a recursion limit that is enough *)

Section CycleTermination.
Import ImportAnalyzer.



Section Total.
Variable g0 : Dict.t (list edge).




End Total.


End CycleTermination.

(** ** Cycle detection on graphs whose targets are all keys *)

Section CycleClosed.
Import ImportAnalyzer.


Section Closed.
Variable g : Dict.t (list edge).
Hypothesis g_closed : closed g.




End Closed.


End CycleClosed.

(** ** Cycle detection: a normal return needs every target to be a key *)

Section CycleRaises.
Import ImportAnalyzer.

Lemma getitem_default_extends (g : Dict.t (list edge)) (node : string) :
  (exists extra, snd (Dict.getitem_default [] g node) = g ++ extra) /\
  In node (Dict.keys (snd (Dict.getitem_default [] g node))).
Proof.
  unfold Dict.getitem_default. destruct (Dict.get g node) as [es|] eqn:E; simpl.
  - split; [exists []; symmetry; apply app_nil_r|].
    apply get_Some_In in E. apply (in_map fst) in E. exact E.
  - apply get_None_keys in E. rewrite (@set_absent _ g node [] E).
    split; [eexists; reflexivity|].
    unfold Dict.keys. rewrite map_app. apply in_or_app. right. left. reflexivity.
Qed.

Lemma keys_app_incl (g extra : Dict.t (list edge)) :
  incl (Dict.keys g) (Dict.keys (g ++ extra)).
Proof.
  intros k Hk. unfold Dict.keys. rewrite map_app. apply in_or_app. left. exact Hk.
Qed.

Lemma search_progress_refl (g0 : Dict.t (list edge)) (st : search_state) :
  visited_are_keys st -> search_progress g0 st st.
Proof.
  intros HK. repeat split.
  - apply incl_refl.
  - exists []. symmetry. apply app_nil_r.
  - exact HK.
  - intros u Hu. left. exact Hu.
Qed.

Lemma search_progress_trans (g0 : Dict.t (list edge))
  (st1 st2 st3 : search_state) :
  search_progress g0 st1 st2 -> search_progress g0 st2 st3 ->
  search_progress g0 st1 st3.
Proof.
  intros (Hi1 & [x1 Hx1] & _ & Hc1) (Hi2 & [x2 Hx2] & HK & Hc2). repeat split.
  - intros u Hu. apply Hi2, Hi1, Hu.
  - exists (x1 ++ x2). rewrite Hx2, Hx1, app_assoc. reflexivity.
  - exact HK.
  - intros u Hu. destruct (Hc2 u Hu) as [H2|H2]; [|right; exact H2].
    destruct (Hc1 u H2) as [H1|H1]; [left; exact H1|].
    right. intros w Hw. apply Hi2, H1, Hw.
Qed.

Section Marks.
Variable g0 : Dict.t (list edge).

Lemma visit_neighbors_marks (fuel : nat) (path : list string) :
  (forall node st cs st',
     same_edges g0 (snd st) -> visited_are_keys st -> incl path (fst st) ->
     find_cycles fuel node path st = Some (cs, st') ->
     search_progress g0 st st' /\ In node (fst st')) ->
  forall es cs0 st0 cs st',
    same_edges g0 (snd st0) -> visited_are_keys st0 -> incl path (fst st0) ->
    fold_left (visit_neighbor fuel path) es (Some (cs0, st0)) = Some (cs, st') ->
    search_progress g0 st0 st' /\ forall e, In e es -> In (fst e) (fst st').
Proof.
  intros IH. induction es as [|e es IHes]; intros cs0 st0 cs st' Hg HK Hp Hf.
  - inversion Hf; subst. split; [apply search_progress_refl, HK | intros e []].
  - simpl in Hf.
    destruct (find_cycles fuel (fst e) path st0) as [[cs1 st1]|] eqn:Hcall;
      [|rewrite visit_neighbors_None in Hf; discriminate].
    destruct (@find_cycles_sound g0 fuel _ _ _ _ _ Hg Hcall) as [Hg1 _].
    destruct (IH _ _ _ _ Hg HK Hp Hcall) as [Hp1 Hn1].
    assert (HK1 : visited_are_keys st1) by apply Hp1.
    assert (Hi1 : incl (fst st0) (fst st1)) by apply Hp1.
    destruct (IHes _ _ _ _ Hg1 HK1 (incl_tran Hp Hi1) Hf) as [Hp2 Hn2].
    split; [apply (search_progress_trans Hp1 Hp2)|].
    intros e' [<-|He']; [|apply Hn2, He'].
    destruct Hp2 as [Hi2 _]. apply Hi2, Hn1.
Qed.

Lemma find_cycles_marks (fuel : nat) :
  forall node path st cs st',
    same_edges g0 (snd st) -> visited_are_keys st -> incl path (fst st) ->
    find_cycles fuel node path st = Some (cs, st') ->
    search_progress g0 st st' /\ In node (fst st').
Proof.
  induction fuel as [|fuel IH]; intros node path [visited g] cs st' Hg HK Hp Hf;
    [discriminate|].
  rewrite find_cycles_S in Hf.
  destruct (PyStr.mem node path) eqn:Hnp.
  { inversion Hf; subst. split; [apply search_progress_refl, HK|].
    apply Hp, mem_In, Hnp. }
  destruct (PyStr.mem node visited) eqn:Hnv.
  { inversion Hf; subst. split; [apply search_progress_refl, HK|].
    apply mem_In, Hnv. }
  destruct (getitem_default_edges g node) as [Hes Hg1].
  destruct (getitem_default_extends g node) as [[extra Hx] Hkey].
  simpl in Hg.
  assert (HK1 : visited_are_keys
                  (node :: visited, snd (Dict.getitem_default [] g node))).
  { intros u [<-|Hu]; [exact Hkey|]. simpl. rewrite Hx.
    apply keys_app_incl, HK, Hu. }
  assert (Hp1 : incl (path ++ [node]) (node :: visited)).
  { intros u Hu. apply in_app_or in Hu as [Hu|[<-|[]]];
      [right; apply Hp, Hu | left; reflexivity]. }
  destruct (@visit_neighbors_marks fuel (path ++ [node])
              (fun n s c s' => IH n (path ++ [node]) s c s') _ []
              (node :: visited, snd (Dict.getitem_default [] g node)) cs st'
              (same_edges_trans Hg Hg1) HK1 Hp1 Hf)
    as [(Hi & [x2 Hx2] & HK' & Hc) Hn].
  split; [|apply Hi; left; reflexivity].
  repeat split.
  - intros u Hu. apply Hi. right. exact Hu.
  - exists (extra ++ x2). rewrite Hx2. simpl. rewrite Hx, app_assoc. reflexivity.
  - exact HK'.
  - intros u Hu. destruct (Hc u Hu) as [[<-|Hv]|Hr];
      [ | left; exact Hv | right; exact Hr].
    right. intros w Hw. unfold has_edge in Hw. rewrite <- (Hg node), <- Hes in Hw.
    apply in_map_iff in Hw as [e [<- He]]. apply Hn, He.
Qed.


End Marks.




End CycleRaises.

(** ** The graph that the scan builds has no key without edges *)

Section KeysHaveEdges.
Import ImportAnalyzer.

Lemma graph_steps_keys_have_edges (rt : runtime) (l : list (string * string)) :
  forall g, keys_have_edges g -> keys_have_edges (fold_left (graph_step rt) l g).
Proof.
  induction l as [|p l IH]; intros g H; simpl; [exact H|].
  apply IH. intros k es. rewrite get_graph_step.
  destruct (String.eqb k (fst p)); [|apply H].
  intros [= <-] E.
  assert (Hin : In (snd p, import_type_of rt (snd p))
                   (edge_set_add (snd p, import_type_of rt (snd p))
                                 (edges_of g (fst p))))
    by (apply edge_set_add_In; left; reflexivity).
  rewrite E in Hin. destruct Hin.
Qed.

(** After [analyze_project] on a fresh analyzer, a module is a key of the
    import graph only if it has at least one edge. *)
Lemma analyze_project_keys_have_edges (rt : runtime) (root : Pathlib.Path)
  (files : list py_file) :
  keys_have_edges (import_graph (analyze_project rt (init root) files)).
Proof.
  rewrite analyze_project_as_pairs, import_graph_record_pairs.
  apply graph_steps_keys_have_edges. intros k es. discriminate.
Qed.

End KeysHaveEdges.

(** ** Cycle detection on concrete graphs *)

Section CycleExamples.
Import ImportAnalyzer Examples.

Lemma edges_of_a_imports_b (u : string) :
  edges_of [("a", [("b", T_local)])] u
  = if String.eqb u "a" then [("b", T_local)] else [].
Proof.
  unfold edges_of, Dict.get_or. simpl. destruct (String.eqb u "a"); reflexivity.
Qed.

Lemma a_imports_b_acyclic : acyclic [("a", [("b", T_local)])].
Proof.
  intros c (Hne & _ & Hc & Hl). unfold has_edge in Hl.
  rewrite edges_of_a_imports_b in Hl.
  destruct (String.eqb_spec (last c "") "a") as [Ha|]; [|destruct Hl].
  destruct Hl as [Hb|[]].
  destruct c as [|x [|y c]]; [congruence | simpl in *; congruence |].
  simpl in Hb. subst x. destruct Hc as [Hxy _]. unfold has_edge in Hxy.
  rewrite edges_of_a_imports_b in Hxy. simpl in Hxy. exact Hxy.
Qed.

Lemma Permutation_three (A : Type) (x y z : A) (l : list A) :
  Permutation [x; y; z] l ->
  l = [x; y; z] \/ l = [x; z; y] \/ l = [y; x; z] \/
  l = [y; z; x] \/ l = [z; x; y] \/ l = [z; y; x].
Proof.
  intros H.
  destruct (Permutation_vs_cons_inv (Permutation_sym H)) as (l1 & l2 & ->).
  apply Permutation_cons_app_inv in H.
  apply Permutation_length_2_inv in H.
  destruct l1 as [|p [|q [|r l1]]]; simpl in *;
    destruct H as [H|H]; inversion H; subst; try tauto;
    match goal with
    | E : _ ++ _ = [] |- _ => apply app_eq_nil in E as [-> E']; try discriminate
    end; subst; tauto.
Qed.

(** The chain A -> B -> C -> A: whatever the order of the keys and the
    categories of the edges, one cycle is returned, a rotation of A, B, C,
    when four calls may nest. *)
Lemma three_module_chain_is_reported (rt : runtime) (t1 t2 t3 : import_type)
  (g : Dict.t (list edge)) :
  (3 < recursion_limit rt)%nat ->
  Permutation [("A", [("B", t1)]); ("B", [("C", t2)]); ("C", [("A", t3)])] g ->
  exists cycle,
    get_circular_dependencies rt (with_graph g) = Some (Returns [cycle]) /\
    rotation ["A"; "B"; "C"] cycle.
Proof.
  intros Hfuel H. apply Permutation_three in H.
  unfold get_circular_dependencies, search.
  destruct (recursion_limit rt) as [|[|[|[|fuel]]]]; try lia.
  destruct H as [-> | [-> | [-> | [-> | [-> | ->]]]]];
    destruct t1, t2, t3;
    first
      [ exists ["A"; "B"; "C"]; split; [reflexivity|];
        exists [], ["A"; "B"; "C"]; split; reflexivity
      | exists ["B"; "C"; "A"]; split; [reflexivity|];
        exists ["A"], ["B"; "C"]; split; reflexivity
      | exists ["C"; "A"; "B"]; split; [reflexivity|];
        exists ["A"; "B"], ["C"]; split; reflexivity ].
Qed.

(** C4.  The project of the single file [a.py] with [import b] has the
    acyclic import graph a -> b, and [get_circular_dependencies] does not
    return the empty list on it: reading [self.import_graph["b"]] inserts
    the key [b] while the keys are being iterated, and the call ends with
    a [RuntimeError]. *)
Theorem acyclic_graph_raises_RuntimeError :
  let a := analyze_project rt0 a0 [a_py] in
  import_graph a = [("a", [("b", T_local)])] /\
  acyclic (import_graph a) /\
  get_circular_dependencies rt0 a = Some RuntimeError /\
  option_map import_graph (after_get_circular_dependencies rt0 a)
  = Some [("a", [("b", T_local)]); ("b", [])].
Proof.
  assert (Hg : import_graph (analyze_project rt0 a0 [a_py])
               = [("a", [("b", T_local)])]) by reflexivity.
  cbv zeta. rewrite Hg.
  split; [reflexivity|]. split; [apply a_imports_b_acyclic|].
  split; reflexivity.
Qed.

(** C5.  The edges X->A, X->Y, A->Y, Y->X contain the simple cycle X, Y.
    When the edge set of X yields A first, the call returns the cycle
    X, A, Y only and no rotation of X, Y; when it yields Y first, the call
    returns X, Y.  The two graphs are equal as Python compares them. *)
Theorem reported_cycles_depend_on_iteration_order :
  exists (g1 g2 : Dict.t (list edge)) (c : list string)
         (cs1 cs2 : list (list string)),
    same_graph g1 g2 /\
    get_circular_dependencies rt0 (with_graph g1) = Some (Returns cs1) /\
    get_circular_dependencies rt0 (with_graph g2) = Some (Returns cs2) /\
    simple_cycle g1 c /\
    (forall c', In c' cs1 -> ~ rotation c c') /\
    In c cs2.
Proof.
  exists gx_A_first, gx_Y_first, ["X"; "Y"], [["X"; "A"; "Y"]], [["X"; "Y"]].
  split; [|split; [reflexivity|split; [reflexivity|split; [|split]]]].
  - intros m. unfold gx_A_first, gx_Y_first. simpl.
    destruct (String.eqb m "X"); [intros e; simpl; tauto|].
    destruct (String.eqb m "A"); [apply same_set_refl|].
    destruct (String.eqb m "Y"); [apply same_set_refl | exact I].
  - repeat split.
    + discriminate.
    + repeat constructor; simpl; intuition discriminate.
    + unfold has_edge. simpl. tauto.
    + unfold has_edge. simpl. tauto.
  - intros c' [<-|[]] (l1 & l2 & H1 & H2).
    apply (f_equal (@length string)) in H1, H2.
    rewrite length_app in H1, H2. simpl in H1, H2. lia.
  - left; reflexivity.
Qed.

End CycleExamples.

(** ** The examples of the specification, and instances of the theorems *)

Section Instances.
Import ImportAnalyzer Examples.
Local Open Scope Z_scope.

(** A file importing [os], [os.path] and [requests] has the two edges
    (os, stdlib) and (requests, third-party) and an [imports] counter of 2,
    in whatever order its set of imports is iterated. *)
Example os_ospath_requests (rank : list string -> string -> nat) :
  let a := analyze_project (rt_ranked rank) a0 [net_py] in
  Permutation (edges_of (import_graph a) "pkg.net")
              [("os", T_stdlib); ("requests", T_third_party)] /\
  imports (stats_of (module_stats a) "pkg.net") = 2.
Proof.
  cbv zeta. unfold analyze_project, scan_step, _analyze_file. simpl.
  unfold set_iteration. simpl.
  match goal with
  | |- context [Nat.leb ?x ?y] => destruct (Nat.leb x y)
  end; split; try reflexivity; apply perm_swap.
Qed.

(** A module with 11 imports is listed under the first header; a module
    with 10 is not. *)
Example suggestions_11_and_10 :
  Optimizer.suggest_optimizations stats_11_10
  = [ "Modules with many imports (consider refactoring):";
      "  - big: 11 imports" ].
Proof. reflexivity. Qed.

(** [envelope.py] and a directory [builder] are skipped, because their
    paths contain ["env"] and ["build"]. *)
Example envelope_and_builder_are_skipped :
  _should_skip_file (filepath a0 envelope_py) = true /\
  _should_skip_file (filepath a0 builder_core_py) = true /\
  _should_skip_file (filepath a0 net_py) = false.
Proof. repeat split. Qed.

(** C1, as stated, fails: after scanning [pkg/empty.py], which is not
    skipped and has no import statement, its module name is not a key of
    the import graph. *)
Lemma module_without_imports_is_not_a_key :
  let a := analyze_project rt0 a0 [empty_py] in
  _should_skip_file (filepath a0 empty_py) = false /\
  content empty_py = Parsed (Node []) /\
  has_import (Node []) = false /\
  _get_module_name a0 (filepath a0 empty_py) = Some "pkg.empty" /\
  ~ Dict.get (import_graph a) "pkg.empty" = Some [].
Proof. repeat split. discriminate. Qed.

(** C2, as stated, fails: [a/b.py] and [a.b.py] both derive the module
    name [a.b] and both import [os]; the edge set of [a.b] has one pair and
    its [imports] counter is 2. *)
Lemma colliding_names_break_imports_counter :
  let a := analyze_project rt0 a0 [a_slash_b_py; a_dot_b_py] in
  analysed_modules a0 [a_slash_b_py; a_dot_b_py] = ["a.b"; "a.b"] /\
  edges_of (import_graph a) "a.b" = [("os", T_stdlib)] /\
  imports (stats_of (module_stats a) "a.b") = 2 /\
  imports (stats_of (module_stats a) "a.b")
  <> Z.of_nat (length (edges_of (import_graph a) "a.b")).
Proof. repeat split. discriminate. Qed.

(** C3, as stated, fails on the same project: the graph has one edge and
    the [imported_by] counters add up to 2. *)
Lemma colliding_names_break_imported_by_sum :
  let a := analyze_project rt0 a0 [a_slash_b_py; a_dot_b_py] in
  total_edges (import_graph a) = 1 /\
  dict_sum imported_by (module_stats a) = 2 /\
  dict_sum imported_by (module_stats a) <> total_edges (import_graph a).
Proof. repeat split. discriminate. Qed.

(** C8, as stated, fails: [m.py] imports [os] and [__main__], and
    [find_spec] raises for [__main__].  The run whose set of imports yields
    [os] first records the edge to [os] before the exception ends the loop;
    the run whose set yields [__main__] first records nothing.  The two
    runs read the same tree in the same environment. *)
Lemma unresolved_import_breaks_reproducibility :
  same_resolution rt0 rt1 /\
  _get_import_type rt0 "__main__" = None /\
  import_graph (analyze_project rt0 a0 [m_py]) = [("m", [("os", T_stdlib)])] /\
  import_graph (analyze_project rt1 a0 [m_py]) = [] /\
  ~ same_graph (import_graph (analyze_project rt0 a0 [m_py]))
               (import_graph (analyze_project rt1 a0 [m_py])) /\
  ~ same_stats (module_stats (analyze_project rt0 a0 [m_py]))
               (module_stats (analyze_project rt1 a0 [m_py])).
Proof.
  split; [split; [reflexivity|]; split; intros m; reflexivity|].
  split; [reflexivity|]. split; [reflexivity|]. split; [reflexivity|].
  split.
  - intros H. specialize (H "m"). exact H.
  - intros H. specialize (H "m"). discriminate H.
Qed.

Lemma file_without_imports_adds_nothing_witness :
  _analyze_file rt0 a0 empty_py = a0 /\
  analyze_project rt0 a0 ([net_py] ++ empty_py :: [a_py])
  = analyze_project rt0 a0 ([net_py] ++ [a_py]).
Proof.
  apply (@file_without_imports_adds_nothing rt0 a0 empty_py (Node [])
           [net_py] [a_py]); reflexivity.
Defined.

Lemma imports_counter_is_edge_count_witness :
  NoDup (edges_of (import_graph (analyze_project rt0 (init root0) [net_py; a_py]))
                  "pkg.net") /\
  imports (stats_of (module_stats
                       (analyze_project rt0 (init root0) [net_py; a_py]))
                    "pkg.net")
  = Z.of_nat (length (edges_of (import_graph
                                  (analyze_project rt0 (init root0)
                                                   [net_py; a_py]))
                               "pkg.net")).
Proof.
  apply (@imports_counter_is_edge_count rt0 root0 [net_py; a_py] "pkg.net").
  vm_compute. repeat constructor; simpl; intuition discriminate.
Defined.

Lemma imported_by_counts_edges_witness :
  dict_sum imported_by
           (module_stats (analyze_project rt0 (init root0) [net_py; a_py]))
  = total_edges (import_graph (analyze_project rt0 (init root0) [net_py; a_py]))
  /\
  forall target,
    imported_by (stats_of (module_stats
                             (analyze_project rt0 (init root0) [net_py; a_py]))
                          target)
    = in_degree (import_graph (analyze_project rt0 (init root0) [net_py; a_py]))
                target.
Proof.
  apply (@imported_by_counts_edges rt0 root0 [net_py; a_py]).
  vm_compute. repeat constructor; simpl; intuition discriminate.
Defined.

Lemma reported_cycles_are_simple_cycles_witness :
  simple_cycle gx_A_first ["X"; "A"; "Y"].
Proof.
  apply (@reported_cycles_are_simple_cycles rt0 (with_graph gx_A_first)
           [["X"; "A"; "Y"]] ["X"; "A"; "Y"]).
  - reflexivity.
  - simpl. left. reflexivity.
Defined.

Lemma suggestions_are_ranked_sections_witness :
  exists heavy common third loc : list (string * Z),
    ranking imports 10 stats_11_10 heavy /\
    ranking imported_by 5 stats_11_10 common /\
    ranking (type_imports T_third_party) 3 stats_11_10 third /\
    ranking (type_imports T_local) 5 stats_11_10 loc /\
    Optimizer.suggest_optimizations stats_11_10
    = report_section Suggest.heavy_header Suggest.heavy_line heavy
      ++ report_section Suggest.common_header Suggest.common_line common
      ++ report_section Suggest.third_party_header Suggest.third_party_line
                        (firstn 5 third)
      ++ report_section Suggest.local_header Suggest.local_line (firstn 5 loc)
    /\
    suggest_optimizations (mkAnalyzer root0 [] stats_11_10)
    = Optimizer.suggest_optimizations stats_11_10.
Proof.
  apply (@suggestions_are_ranked_sections (mkAnalyzer root0 [] stats_11_10)).
  simpl. repeat constructor; simpl; intuition discriminate.
Defined.

Lemma analysis_is_reproducible_witness :
  same_graph (import_graph (analyze_project rt0 (init root0) [net_py; a_py]))
             (import_graph (analyze_project rt1 (init root0) [a_py; net_py]))
  /\ same_stats (module_stats (analyze_project rt0 (init root0) [net_py; a_py]))
                (module_stats (analyze_project rt1 (init root0) [a_py; net_py])).
Proof.
  apply (@analysis_is_reproducible rt0 rt1 root0 [net_py; a_py] [a_py; net_py]).
  - split; [reflexivity|]. split; intros m; reflexivity.
  - apply perm_swap.
  - intros f tree x [<-|[<-|[]]] _ [= <-] _ Hx; simpl in Hx;
      repeat (destruct Hx as [<-|Hx]; [discriminate|]); destruct Hx.
Defined.


Lemma skip_is_by_substring_of_path_witness :
  _should_skip_file (filepath a0 envelope_py) = true /\
  analyze_project rt0 a0 ([net_py] ++ envelope_py :: [a_py])
  = analyze_project rt0 a0 ([net_py] ++ [a_py]).
Proof.
  apply (@skip_is_by_substring_of_path rt0 a0 envelope_py [net_py] [a_py] "env").
  - simpl. tauto.
  - exists "proj/pkg/", "elope.py". reflexivity.
Defined.

End Instances.

(** * Further properties *)

(** ** The visitor collects the first segments of the imported names *)

Section VisitorContents.

Lemma str_set_add_In (x y : string) (s : list string) :
  In y (str_set_add x s) <-> y = x \/ In y s.
Proof.
  unfold str_set_add. destruct (PyStr.mem x s) eqn:E.
  - apply mem_In in E. split; [tauto | intros [->|H]; assumption].
  - rewrite in_app_iff. simpl. intuition congruence.
Qed.

Lemma visit_Import_In (x : string) (names imports : list string) :
  In x (fold_left (fun acc n => str_set_add (PyStr.first_segment "." n) acc)
                  names imports)
  <-> In x imports \/ exists n, In n names /\ PyStr.first_segment "." n = x.
Proof.
  revert imports. induction names as [|n names IH]; intros imports; simpl.
  - split; [tauto | intros [H|[n [[] _]]]; exact H].
  - rewrite IH, str_set_add_In. split.
    + intros [[->|H]|[n' [Hn' E]]].
      * right. exists n. split; [left; reflexivity | reflexivity].
      * left. exact H.
      * right. exists n'. split; [right; exact Hn' | exact E].
    + intros [H|[n' [[<-|Hn'] E]]].
      * left. right. exact H.
      * left. left. symmetry. exact E.
      * right. exists n'. split; assumption.
Qed.

Lemma first_segment_lacks (c : ascii) (s : string) :
  lacks_char c (PyStr.first_segment c s).
Proof.
  induction s as [|a s IH]; simpl; [exact I|].
  destruct (Ascii.eqb_spec a c); simpl; [exact I | split; assumption].
Qed.

(** Induction on a tree, with the property available for every child. *)
Lemma ast_nested_ind (P : ast -> Prop) :
  (forall names, P (Import names)) ->
  (forall module, P (ImportFrom module)) ->
  (forall children, Forall P children -> P (Node children)) ->
  forall node, P node.
Proof.
  intros HI HF HN. fix IH 1. intros [names|module|children].
  - apply HI.
  - apply HF.
  - apply HN. induction children as [|c cs IHcs]; constructor.
    + apply IH.
    + exact IHcs.
Qed.

Lemma visit_children_In (x : string) (children : list ast) :
  Forall (fun c => forall imports,
            In x (ImportVisitor.visit imports c)
            <-> In x imports \/ imports_name x c) children ->
  forall imports,
    In x (fold_left ImportVisitor.visit children imports)
    <-> In x imports \/ exists c, In c children /\ imports_name x c.
Proof.
  induction 1 as [|c cs Hc _ IH]; intros imports; simpl.
  - split; [tauto | intros [H|[c [[] _]]]; exact H].
  - rewrite IH, Hc. split.
    + intros [[H|H]|[c' [Hc' H]]].
      * left. exact H.
      * right. exists c. split; [left; reflexivity | exact H].
      * right. exists c'. split; [right; exact Hc' | exact H].
    + intros [H|[c' [[<-|Hc'] H]]].
      * left. left. exact H.
      * left. right. exact H.
      * right. exists c'. split; assumption.
Qed.

Lemma visit_In (x : string) (node : ast) :
  forall imports : list string,
    In x (ImportVisitor.visit imports node)
    <-> In x imports \/ imports_name x node.
Proof.
  induction node as [names|module|children IH] using ast_nested_ind;
    intros imports; simpl.
  - rewrite visit_Import_In. split.
    + intros [H|[n [Hn E]]]; [left; exact H|].
      right. apply (@imports_name_Import x names n Hn E).
    + intros [H|H]; [left; exact H|]. inversion H; subst.
      right. eexists; split; [eassumption | reflexivity].
  - destruct module as [m|].
    + destruct (PyStr.truthy m) eqn:Hm.
      * rewrite str_set_add_In. split.
        -- intros [->|H]; [|left; exact H].
           right. apply (@imports_name_ImportFrom _ m Hm eq_refl).
        -- intros [H|H]; [right; exact H|]. inversion H; subst.
           left. reflexivity.
      * split; [intros H; left; exact H|].
        intros [H|H]; [exact H|]. inversion H; subst. congruence.
    + split; [intros H; left; exact H|].
      intros [H|H]; [exact H | inversion H].
  - rewrite (visit_children_In IH). split.
    + intros [H|[c [Hc H]]]; [left; exact H|].
      right. apply (@imports_name_Node x children c Hc H).
    + intros [H|H]; [left; exact H|]. inversion H; subst.
      right. eexists; split; eassumption.
Qed.

Lemma imports_name_lacks_dot (x : string) (node : ast) :
  imports_name x node -> lacks_char "." x.
Proof.
  induction node as [names|module|children IH] using ast_nested_ind;
    intros H; inversion H; subst.
  - apply first_segment_lacks.
  - apply first_segment_lacks.
  - rewrite Forall_forall in IH. eapply IH; eassumption.
Qed.

(** X1.  The set that the visitor collects holds exactly the first dotted
    segments of the names imported anywhere in the tree (a [from] import
    without a module name contributes nothing), each once, and no element
    contains a dot. *)
Theorem visitor_collects_first_segments (tree : ast) :
  (forall x, In x (ImportVisitor.run tree) <-> imports_name x tree) /\
  NoDup (ImportVisitor.run tree) /\
  (forall x, In x (ImportVisitor.run tree) -> lacks_char "." x).
Proof.
  assert (H : forall x, In x (ImportVisitor.run tree) <-> imports_name x tree).
  { intros x. unfold ImportVisitor.run. rewrite visit_In. simpl. tauto. }
  split; [exact H|]. split; [apply visit_NoDup; constructor|].
  intros x Hx. apply H in Hx. apply (imports_name_lacks_dot Hx).
Qed.

End VisitorContents.

(** ** What the scan puts into the graph and the statistics *)

Section ScanContents.
Import ImportAnalyzer.
Variable rt : runtime.
Local Open Scope Z_scope.

Lemma import_graph_analyze_project (a : t) (files : list py_file) :
  import_graph (analyze_project rt a files)
  = fold_left (graph_step rt) (recorded_pairs rt a files) (import_graph a).
Proof.
  rewrite analyze_project_as_pairs. apply import_graph_record_pairs.
Qed.

Lemma module_stats_analyze_project (a : t) (files : list py_file) :
  module_stats (analyze_project rt a files)
  = fold_left bump_step (flat_map (bumps_of rt) (recorded_pairs rt a files))
              (module_stats a).
Proof.
  rewrite analyze_project_as_pairs. apply module_stats_record_pairs.
Qed.

(** A recorded pair comes from an analysed file whose tree the visitor
    has got through, and its import has a category. *)
Lemma recorded_pairs_In (a : t) (files : list py_file) (m x : string) :
  In (m, x) (recorded_pairs rt a files) ->
  exists f tree,
    In f files /\ analysed_as a f m tree /\ visit_raises rt tree = false /\
    imports_name x tree /\ _get_import_type rt x <> None.
Proof.
  unfold recorded_pairs. rewrite in_flat_map.
  intros (f & Hf & Hin). unfold imports_of in Hin.
  destruct (_should_skip_file (filepath a f)) eqn:Hs; [destruct Hin|].
  destruct (content f) as [| |tree] eqn:Hc; try destruct Hin.
  destruct (_get_module_name a (filepath a f)) as [m'|] eqn:Hm;
    [|destruct Hin].
  destruct (visit_raises rt tree) eqn:Hr; [destruct Hin|].
  apply in_map_iff in Hin as (x' & [= <- <-] & Hx).
  apply resolved_prefix_In in Hx as [Hx Hty].
  apply (Permutation_in _ (set_iteration_perm rt _)) in Hx.
  unfold ImportVisitor.run in Hx. apply visit_In in Hx as [[]|Hx].
  exists f, tree. repeat split; assumption.
Qed.

(** Every import of an analysed file is recorded, when the visitor gets
    through its tree and each of its imports has a category. *)
Lemma recorded_pairs_complete (a : t) (files : list py_file) (f : py_file)
  (tree : ast) (m x : string) :
  In f files -> analysed_as a f m tree -> visit_raises rt tree = false ->
  (forall y, imports_name y tree -> _get_import_type rt y <> None) ->
  imports_name x tree ->
  In (m, x) (recorded_pairs rt a files).
Proof.
  intros Hf (Hs & Hc & Hm) Hr Hall Hx.
  unfold recorded_pairs. apply in_flat_map. exists f. split; [exact Hf|].
  unfold imports_of. rewrite Hs, Hc, Hm, Hr. apply in_map.
  rewrite resolved_prefix_all.
  - apply (Permutation_in _ (Permutation_sym (set_iteration_perm rt _))).
    unfold ImportVisitor.run. apply visit_In. right. exact Hx.
  - intros y Hy. apply Hall.
    apply (Permutation_in _ (set_iteration_perm rt _)) in Hy.
    unfold ImportVisitor.run in Hy. apply visit_In in Hy as [[]|Hy]. exact Hy.
Qed.

Lemma graph_steps_edges (l : list (string * string)) :
  forall (g : Dict.t (list edge)) (m : string) (e : edge),
    In e (edges_of (fold_left (graph_step rt) l g) m)
    <-> In e (edges_of g m)
        \/ exists x, In (m, x) l /\ e = (x, import_type_of rt x).
Proof.
  induction l as [|[m' x'] l IH]; intros g m e; simpl.
  - split; [tauto | intros [H|[x [[] _]]]; exact H].
  - rewrite IH, edges_of_graph_step. simpl.
    destruct (String.eqb_spec m m') as [->|Hne].
    + rewrite edge_set_add_In. split.
      * intros [[->|H]|[x [Hx E]]].
        -- right. exists x'. split; [left; reflexivity | reflexivity].
        -- left. exact H.
        -- right. exists x. split; [right; exact Hx | exact E].
      * intros [H|[x [[[= <-]|Hx] E]]].
        -- left. right. exact H.
        -- left. left. exact E.
        -- right. exists x. split; assumption.
    + split.
      * intros [H|[x [Hx E]]]; [left; exact H|].
        right. exists x. split; [right; exact Hx | exact E].
      * intros [H|[x [[[= E1 E2]|Hx] E]]]; [left; exact H | congruence |].
        right. exists x. split; assumption.
Qed.

Lemma graph_steps_keys (l : list (string * string)) :
  forall (g : Dict.t (list edge)) (k : string),
    In k (Dict.keys (fold_left (graph_step rt) l g))
    <-> In k (Dict.keys g) \/ In k (map fst l).
Proof.
  induction l as [|p l IH]; intros g k; simpl; [tauto|].
  rewrite IH. clear IH.
  assert (Hk : In k (Dict.keys (graph_step rt g p))
               <-> In k (Dict.keys g) \/ fst p = k).
  { destruct (Dict.get (graph_step rt g p) k) eqn:E; assert (E' := E);
      rewrite get_graph_step in E'.
    - apply get_Some_In in E. apply (in_map fst) in E. split; [|intros _; exact E].
      intros _. destruct (String.eqb_spec k (fst p)) as [->|_];
        [right; reflexivity|].
      left. apply get_Some_In in E'. apply (in_map fst) in E'. exact E'.
    - destruct (String.eqb_spec k (fst p)) as [->|Hne]; [discriminate|].
      apply get_None_keys in E. apply get_None_keys in E'.
      split; [tauto | intros [H|H]; [tauto | congruence]]. }
  rewrite Hk. tauto.
Qed.

End ScanContents.

Section ScanCounters.
Import ImportAnalyzer.
Variable rt : runtime.
Local Open Scope Z_scope.

Lemma bump_steps_keys (bs : list (counter * string)) :
  forall (ms : Dict.t stats) (k : string),
    In k (Dict.keys (fold_left bump_step bs ms))
    <-> In k (Dict.keys ms) \/ In k (map snd bs).
Proof.
  induction bs as [|b bs IH]; intros ms k; simpl; [tauto|].
  rewrite IH. clear IH.
  assert (Hk : In k (Dict.keys (bump_step ms b))
               <-> In k (Dict.keys ms) \/ snd b = k).
  { destruct (Dict.get (bump_step ms b) k) eqn:E; assert (E' := E);
      rewrite get_bump_step in E'.
    - apply get_Some_In in E. apply (in_map fst) in E. split; [|intros _; exact E].
      intros _. destruct (String.eqb_spec k (snd b)) as [->|_];
        [right; reflexivity|].
      left. apply get_Some_In in E'. apply (in_map fst) in E'. exact E'.
    - destruct (String.eqb_spec k (snd b)) as [->|Hne]; [discriminate|].
      apply get_None_keys in E. apply get_None_keys in E'.
      split; [tauto | intros [H|H]; [tauto | congruence]]. }
  rewrite Hk. tauto.
Qed.

(** A counter to which an update of kind [c] adds [delta c]. *)
Lemma bump_steps_field (field : stats -> Z) (delta : counter -> Z) :
  (forall c s, field (bump c s) = field s + delta c) ->
  forall (bs : list (counter * string)) (ms : Dict.t stats) (k : string),
    field (stats_of (fold_left bump_step bs ms) k)
    = field (stats_of ms k) + bump_total delta k bs.
Proof.
  intros Hd. induction bs as [|b bs IH]; intros ms k; simpl; [lia|].
  rewrite IH, stats_of_bump_step, (String.eqb_sym k (snd b)).
  destruct (String.eqb_spec (snd b) k) as [->|_]; [rewrite Hd|]; lia.
Qed.

(** A field that no update changes. *)
Lemma bump_steps_keep (A : Type) (field : stats -> A) :
  (forall c s, field (bump c s) = field s) ->
  forall (bs : list (counter * string)) (ms : Dict.t stats) (k : string),
    field (stats_of (fold_left bump_step bs ms) k) = field (stats_of ms k).
Proof.
  intros Hd. induction bs as [|b bs IH]; intros ms k; simpl; [reflexivity|].
  rewrite IH, stats_of_bump_step.
  destruct (String.eqb_spec k (snd b)) as [->|_]; [apply Hd | reflexivity].
Qed.

Lemma bump_total_app (delta : counter -> Z) (k : string)
  (bs1 bs2 : list (counter * string)) :
  bump_total delta k (bs1 ++ bs2)
  = bump_total delta k bs1 + bump_total delta k bs2.
Proof.
  induction bs1 as [|b bs1 IH]; simpl; [reflexivity|]. rewrite IH. lia.
Qed.

Lemma bump_total_nonneg (delta : counter -> Z) (k : string)
  (bs : list (counter * string)) :
  (forall c, 0 <= delta c) -> 0 <= bump_total delta k bs.
Proof.
  intros H. induction bs as [|b bs IH]; simpl; [lia|].
  specialize (H (fst b)). destruct (String.eqb (snd b) k); lia.
Qed.

Lemma count_pairs_cons (p : string * string -> bool) (x : string * string)
  (l : list (string * string)) :
  count_pairs p (x :: l) = (if p x then 1 else 0) + count_pairs p l.
Proof.
  unfold count_pairs. simpl. destruct (p x); simpl length; lia.
Qed.

Lemma bump_imports (c : counter) (s : stats) :
  imports (bump c s) = imports s + delta_imports c.
Proof. destruct c as [| |[]]; simpl; lia. Qed.

Lemma bump_imported_by (c : counter) (s : stats) :
  imported_by (bump c s) = imported_by s + delta_imported_by c.
Proof. destruct c as [| |[]]; simpl; lia. Qed.

Lemma bump_type_imports (ty : import_type) (c : counter) (s : stats) :
  type_imports ty (bump c s) = type_imports ty s + delta_type ty c.
Proof.
  destruct s as [i b t [s1|] [s2|] [s3|]], c as [| |[]], ty;
    cbv -[Z.add]; lia.
Qed.

Lemma bump_balance (c : counter) (s : stats) :
  balance (bump c s) = balance s + delta_balance c.
Proof.
  unfold balance. rewrite bump_imports, !bump_type_imports.
  destruct c as [| |[]]; simpl; lia.
Qed.

Lemma bump_import_time (c : counter) (s : stats) :
  import_time (bump c s) = import_time s.
Proof. destruct c as [| |[]]; reflexivity. Qed.

Lemma total_imports (k : string) (l : list (string * string)) :
  bump_total delta_imports k (flat_map (bumps_of rt) l)
  = count_pairs (fun p => String.eqb (fst p) k) l.
Proof.
  induction l as [|p l IH]; [reflexivity|].
  rewrite count_pairs_cons, <- IH. simpl.
  destruct (String.eqb (fst p) k), (String.eqb (snd p) k); simpl; lia.
Qed.

Lemma total_imported_by (k : string) (l : list (string * string)) :
  bump_total delta_imported_by k (flat_map (bumps_of rt) l)
  = count_pairs (fun p => String.eqb (snd p) k) l.
Proof.
  induction l as [|p l IH]; [reflexivity|].
  rewrite count_pairs_cons, <- IH. simpl.
  destruct (String.eqb (fst p) k), (String.eqb (snd p) k); simpl; lia.
Qed.

Lemma total_type (ty : import_type) (k : string) (l : list (string * string)) :
  bump_total (delta_type ty) k (flat_map (bumps_of rt) l)
  = count_pairs
      (fun p => String.eqb (fst p) k
                && import_type_eqb (import_type_of rt (snd p)) ty) l.
Proof.
  induction l as [|p l IH]; [reflexivity|].
  rewrite count_pairs_cons, <- IH. simpl.
  destruct (String.eqb (fst p) k), (String.eqb (snd p) k),
    (import_type_eqb (import_type_of rt (snd p)) ty); simpl; lia.
Qed.

Lemma total_balance (k : string) (l : list (string * string)) :
  bump_total delta_balance k (flat_map (bumps_of rt) l) = 0.
Proof.
  induction l as [|p l IH]; [reflexivity|]. simpl.
  simpl in IH. rewrite IH.
  destruct (String.eqb (fst p) k), (String.eqb (snd p) k); simpl; lia.
Qed.

End ScanCounters.

Section ScanTheorems.
Import ImportAnalyzer.
Variable rt : runtime.
Local Open Scope Z_scope.

Lemma recorded_pairs_root (a a' : t) (files : list py_file) :
  project_root a' = project_root a ->
  recorded_pairs rt a' files = recorded_pairs rt a files.
Proof.
  intros H. unfold recorded_pairs. apply flat_map_ext. intros f.
  apply (@imports_of_root rt a a' f H).
Qed.

Lemma edges_of_fresh_scan (root : Pathlib.Path) (files : list py_file)
  (m : string) (e : edge) :
  In e (edges_of (import_graph (analyze_project rt (init root) files)) m)
  <-> exists x, In (m, x) (recorded_pairs rt (init root) files)
                /\ e = (x, import_type_of rt x).
Proof.
  rewrite import_graph_analyze_project, graph_steps_edges.
  split; [|intros H; right; exact H].
  intros [H|H]; [|exact H].
  unfold edges_of, Dict.get_or in H. simpl in H. destruct H.
Qed.

Lemma keys_of_fresh_scan (root : Pathlib.Path) (files : list py_file)
  (k : string) :
  In k (Dict.keys (import_graph (analyze_project rt (init root) files)))
  <-> exists x, In (k, x) (recorded_pairs rt (init root) files).
Proof.
  rewrite import_graph_analyze_project, graph_steps_keys. simpl.
  rewrite in_map_iff. split.
  - intros [[]|[[k' x] [<- H]]]. exists x. exact H.
  - intros [x H]. right. exists (k, x). split; [reflexivity | exact H].
Qed.

Lemma import_type_of_Some (x : string) (ty : import_type) :
  _get_import_type rt x = Some ty -> import_type_of rt x = ty.
Proof. unfold import_type_of. intros ->. reflexivity. Qed.

Lemma import_type_of_resolved (x : string) :
  _get_import_type rt x <> None ->
  _get_import_type rt x = Some (import_type_of rt x).
Proof.
  unfold import_type_of. destruct (_get_import_type rt x); [reflexivity|].
  intros H. destruct (H eq_refl).
Qed.

(** X2.  After [analyze_project] on a fresh analyzer, every pair
    (x, category) in the edge set of module m comes from a file of the scan
    that is not skipped, parses, is named m and is got through by the
    visitor, in which an import statement names a module with the first
    segment x, and the category is the one that [_get_import_type] returns
    for x.  Conversely, for such a file in which [_get_import_type] raises
    for none of the imported names, every pair of an imported name and its
    category is in the edge set of m. *)
Theorem graph_holds_the_imports_of_the_files (root : Pathlib.Path)
  (files : list py_file) (m x : string) (ty : import_type) :
  (In (x, ty) (edges_of (import_graph (analyze_project rt (init root) files)) m)
   -> _get_import_type rt x = Some ty /\
      exists f tree,
        In f files /\ analysed_as (init root) f m tree /\
        visit_raises rt tree = false /\ imports_name x tree) /\
  (forall f tree,
     In f files -> analysed_as (init root) f m tree ->
     visit_raises rt tree = false ->
     (forall y, imports_name y tree -> _get_import_type rt y <> None) ->
     imports_name x tree -> _get_import_type rt x = Some ty ->
     In (x, ty)
        (edges_of (import_graph (analyze_project rt (init root) files)) m)).
Proof.
  split.
  - rewrite edges_of_fresh_scan. intros (x' & Hin & [= -> ->]).
    apply recorded_pairs_In in Hin as (f & tree & Hf & Ha & Hr & Hx & Hty).
    split; [apply import_type_of_resolved, Hty|].
    exists f, tree. repeat split; try assumption; apply Ha.
  - intros f tree Hf Ha Hr Hall Hx Hty. apply edges_of_fresh_scan.
    exists x. split.
    + apply (@recorded_pairs_complete rt (init root) files f tree m x);
        assumption.
    + rewrite (@import_type_of_Some x ty Hty). reflexivity.
Qed.

(** X3.  After [analyze_project] on a fresh analyzer, every key of the
    import graph is the name of an analysed file that the visitor gets
    through and one of whose imports has a category; the name of such a
    file is a key when it imports something and [_get_import_type] raises
    for none of its imports; and the keys are the modules with a non-empty
    edge set. *)
Theorem graph_keys_are_the_importing_modules (root : Pathlib.Path)
  (files : list py_file) (k : string) :
  let g := import_graph (analyze_project rt (init root) files) in
  (In k (Dict.keys g)
   -> exists f tree x,
        In f files /\ analysed_as (init root) f k tree /\
        visit_raises rt tree = false /\ imports_name x tree /\
        _get_import_type rt x <> None) /\
  (forall f tree x,
     In f files -> analysed_as (init root) f k tree ->
     visit_raises rt tree = false ->
     (forall y, imports_name y tree -> _get_import_type rt y <> None) ->
     imports_name x tree ->
     In k (Dict.keys g)) /\
  (In k (Dict.keys g) <-> edges_of g k <> []).
Proof.
  cbv zeta. split; [|split].
  - rewrite keys_of_fresh_scan. intros [x H].
    apply recorded_pairs_In in H as (f & tree & H).
    exists f, tree, x. exact H.
  - intros f tree x Hf Ha Hr Hall Hx. apply keys_of_fresh_scan. exists x.
    apply (@recorded_pairs_complete rt (init root) files f tree k x);
      assumption.
  - rewrite keys_of_fresh_scan. split.
    + intros [x H] E.
      assert (Hin : In (x, import_type_of rt x)
                       (edges_of (import_graph
                                    (analyze_project rt (init root) files)) k)).
      { apply edges_of_fresh_scan. exists x. split; [exact H | reflexivity]. }
      rewrite E in Hin. destruct Hin.
    + intros Hne.
      destruct (edges_of (import_graph (analyze_project rt (init root) files)) k)
        as [|e es] eqn:E; [congruence|].
      assert (Hin : In e (edges_of (import_graph
                                      (analyze_project rt (init root) files)) k))
        by (rewrite E; left; reflexivity).
      apply edges_of_fresh_scan in Hin as (x & H & _). exists x. exact H.
Qed.

(** X4.  After [analyze_project] on a fresh analyzer, the counters count
    the iterations of the loop of [_analyze_file] that have run, over all
    analysed files: the recorded (module, name) pairs, which for each file
    that the visitor gets through are its imports in iteration order up to
    the first one for which [_get_import_type] raises.  The [imports]
    counter of a module is the number of recorded pairs with that module,
    its [imported_by] counter the number of pairs with that name, and its
    counter of a category the number of its pairs whose name has that
    category.  No condition on the file names is needed. *)
Theorem counters_count_the_recorded_imports (root : Pathlib.Path)
  (files : list py_file) (m : string) :
  let s := stats_of (module_stats (analyze_project rt (init root) files)) m in
  let pairs := recorded_pairs rt (init root) files in
  imports s = count_pairs (fun p => String.eqb (fst p) m) pairs /\
  imported_by s = count_pairs (fun p => String.eqb (snd p) m) pairs /\
  forall ty,
    type_imports ty s
    = count_pairs
        (fun p => String.eqb (fst p) m
                  && import_type_eqb (import_type_of rt (snd p)) ty) pairs.
Proof.
  cbv zeta. rewrite module_stats_analyze_project. repeat split.
  - rewrite (bump_steps_field imports delta_imports bump_imports).
    rewrite total_imports. reflexivity.
  - rewrite (bump_steps_field imported_by delta_imported_by bump_imported_by).
    rewrite total_imported_by. reflexivity.
  - intros ty.
    rewrite (bump_steps_field (type_imports ty) (delta_type ty)
               (bump_type_imports ty)).
    rewrite total_type. destruct ty; reflexivity.
Qed.

(** X5.  After [analyze_project] on a fresh analyzer, the [imports] counter
    of every module is the sum of its three category counters, a missing
    category counter counting as 0. *)
Theorem imports_counter_is_sum_of_categories (root : Pathlib.Path)
  (files : list py_file) (m : string) :
  let s := stats_of (module_stats (analyze_project rt (init root) files)) m in
  imports s
  = type_imports T_stdlib s + type_imports T_third_party s
    + type_imports T_local s.
Proof.
  cbv zeta.
  assert (H := bump_steps_field balance delta_balance bump_balance
                 (flat_map (bumps_of rt) (recorded_pairs rt (init root) files))
                 (module_stats (init root)) m).
  rewrite <- module_stats_analyze_project, total_balance in H.
  unfold balance in H. simpl in H. lia.
Qed.

End ScanTheorems.

Section ScanShape.
Import ImportAnalyzer.
Variable rt : runtime.
Local Open Scope Z_scope.

Lemma has_edge_fresh_scan (root : Pathlib.Path) (files : list py_file)
  (u v : string) :
  has_edge (import_graph (analyze_project rt (init root) files)) u v
  <-> In (u, v) (recorded_pairs rt (init root) files).
Proof.
  unfold has_edge. rewrite in_map_iff. split.
  - intros ([x ty] & <- & He). apply edges_of_fresh_scan in He as (x' & H & E).
    inversion E; subst. exact H.
  - intros H. exists (v, import_type_of rt v). split; [reflexivity|].
    apply edges_of_fresh_scan. exists v. split; [exact H | reflexivity].
Qed.

Lemma snd_bumps_of (l : list (string * string)) (k : string) :
  In k (map snd (flat_map (bumps_of rt) l))
  <-> In k (map fst l) \/ In k (map snd l).
Proof.
  induction l as [|p l IH]; simpl; [tauto|]. rewrite IH. tauto.
Qed.

(** X6.  After [analyze_project] on a fresh analyzer, [module_stats] has an
    entry exactly for the keys of the import graph and for the modules that
    some edge points at: a module that is only imported has statistics,
    although it is not a key of the graph. *)
Theorem stats_keys_are_the_graph_nodes (root : Pathlib.Path)
  (files : list py_file) (k : string) :
  let a := analyze_project rt (init root) files in
  In k (Dict.keys (module_stats a))
  <-> In k (Dict.keys (import_graph a))
      \/ exists u, has_edge (import_graph a) u k.
Proof.
  cbv zeta. rewrite module_stats_analyze_project, bump_steps_keys, snd_bumps_of.
  rewrite keys_of_fresh_scan. simpl. rewrite !in_map_iff. split.
  - intros [[]|[([k' x] & <- & H)|([u k'] & <- & H)]].
    + left. exists x. exact H.
    + right. exists u. apply has_edge_fresh_scan. exact H.
  - intros [[x H]|[u H]].
    + right. left. exists (k, x). split; [reflexivity | exact H].
    + right. right. apply has_edge_fresh_scan in H.
      exists (u, k). split; [reflexivity | exact H].
Qed.

Lemma graph_steps_NoDup (l : list (string * string)) :
  forall g : Dict.t (list edge),
    (forall m, NoDup (edges_of g m)) ->
    forall m, NoDup (edges_of (fold_left (graph_step rt) l g) m).
Proof.
  induction l as [|p l IH]; intros g H; simpl; [exact H|].
  apply IH. intros m. rewrite edges_of_graph_step.
  destruct (String.eqb m (fst p)); [apply edge_set_add_NoDup|]; apply H.
Qed.

Lemma NoDup_targets (f : string -> import_type) (es : list edge) :
  NoDup es -> (forall e, In e es -> snd e = f (fst e)) -> NoDup (map fst es).
Proof.
  induction es as [|[x ty] es IH]; intros Hnd Hf; simpl; [constructor|].
  inversion Hnd as [|? ? Hx Hes]; subst. constructor.
  - intros Hin. apply in_map_iff in Hin as ([x' ty'] & E & Hin). simpl in E.
    subst x'. apply Hx.
    assert (E1 := Hf (x, ty) (or_introl eq_refl)).
    assert (E2 := Hf (x, ty') (or_intror Hin)). simpl in E1, E2.
    rewrite E1, <- E2. exact Hin.
  - apply IH; [exact Hes|]. intros e He. apply Hf. right; exact He.
Qed.

(** X7.  After [analyze_project] on a fresh analyzer, the edge set of a
    module has at most one edge to each target: the targets of its edges are
    pairwise distinct, so the size of the edge set is the number of distinct
    modules it imports. *)
Theorem one_edge_per_target (root : Pathlib.Path) (files : list py_file)
  (m : string) :
  NoDup (map fst (edges_of (import_graph (analyze_project rt (init root) files))
                           m)).
Proof.
  apply (@NoDup_targets (import_type_of rt)).
  - rewrite import_graph_analyze_project. apply graph_steps_NoDup.
    intros m'. constructor.
  - intros [x ty] He. apply edges_of_fresh_scan in He as (x' & _ & E).
    inversion E; subst. reflexivity.
Qed.

(** X8.  From any state of the analyzer, [analyze_project] only adds: every
    key and every edge of the graph is kept, every entry of the statistics
    is kept, no [imports] or [imported_by] counter decreases, and no
    [import_time] changes. *)
Theorem scan_only_adds (a : t) (files : list py_file) (m : string) :
  let a' := analyze_project rt a files in
  (In m (Dict.keys (import_graph a)) -> In m (Dict.keys (import_graph a'))) /\
  (forall e, In e (edges_of (import_graph a) m)
             -> In e (edges_of (import_graph a') m)) /\
  (In m (Dict.keys (module_stats a)) -> In m (Dict.keys (module_stats a'))) /\
  imports (stats_of (module_stats a) m)
  <= imports (stats_of (module_stats a') m) /\
  imported_by (stats_of (module_stats a) m)
  <= imported_by (stats_of (module_stats a') m) /\
  import_time (stats_of (module_stats a') m)
  = import_time (stats_of (module_stats a) m).
Proof.
  cbv zeta. rewrite import_graph_analyze_project, module_stats_analyze_project.
  split; [|split; [|split; [|split; [|split]]]].
  - intros H. apply graph_steps_keys. left. exact H.
  - intros e H. apply graph_steps_edges. left. exact H.
  - intros H. apply bump_steps_keys. left. exact H.
  - rewrite (bump_steps_field imports delta_imports bump_imports).
    assert (H := @bump_total_nonneg delta_imports m
                   (flat_map (bumps_of rt) (recorded_pairs rt a files))).
    enough (0 <= bump_total delta_imports m
                   (flat_map (bumps_of rt) (recorded_pairs rt a files))) by lia.
    apply H. intros [| |?]; simpl; lia.
  - rewrite (bump_steps_field imported_by delta_imported_by bump_imported_by).
    enough (0 <= bump_total delta_imported_by m
                   (flat_map (bumps_of rt) (recorded_pairs rt a files))) by lia.
    apply bump_total_nonneg. intros [| |?]; simpl; lia.
  - apply (bump_steps_keep import_time bump_import_time).
Qed.

Lemma same_graph_intro (g g' : Dict.t (list edge)) :
  (forall m, In m (Dict.keys g) <-> In m (Dict.keys g')) ->
  (forall m, same_set (edges_of g m) (edges_of g' m)) ->
  same_graph g g'.
Proof.
  intros Hk He m. specialize (Hk m). specialize (He m).
  unfold edges_of, Dict.get_or in He.
  destruct (Dict.get g m) as [es|] eqn:E1, (Dict.get g' m) as [es'|] eqn:E2.
  - exact He.
  - apply get_Some_In in E1. apply (in_map fst) in E1.
    apply get_None_keys in E2. tauto.
  - apply get_Some_In in E2. apply (in_map fst) in E2.
    apply get_None_keys in E1. tauto.
  - exact I.
Qed.

(** X9.  Calling [analyze_project] a second time on the same analyzer and
    the same files leaves the import graph as it is and doubles every
    [imports] and [imported_by] counter. *)
Theorem second_scan_doubles_the_counters (root : Pathlib.Path)
  (files : list py_file) :
  let a1 := analyze_project rt (init root) files in
  let a2 := analyze_project rt a1 files in
  same_graph (import_graph a2) (import_graph a1) /\
  forall m,
    imports (stats_of (module_stats a2) m)
    = 2 * imports (stats_of (module_stats a1) m) /\
    imported_by (stats_of (module_stats a2) m)
    = 2 * imported_by (stats_of (module_stats a1) m).
Proof.
  cbv zeta.
  assert (Hroot : project_root (analyze_project rt (init root) files)
                  = project_root (init root)) by apply analyze_project_root.
  split.
  - apply same_graph_intro.
    + intros m.
      rewrite (import_graph_analyze_project rt (analyze_project rt (init root) files)).
      rewrite graph_steps_keys, (@recorded_pairs_root rt _ _ files Hroot).
      rewrite keys_of_fresh_scan, in_map_iff. split; [|tauto].
      intros [H|([m' x] & <- & H)]; [exact H | exists x; exact H].
    + intros m e.
      rewrite (import_graph_analyze_project rt (analyze_project rt (init root) files)).
      rewrite graph_steps_edges, (@recorded_pairs_root rt _ _ files Hroot).
      rewrite edges_of_fresh_scan. tauto.
  - intros m.
    rewrite (module_stats_analyze_project rt (analyze_project rt (init root) files)).
    rewrite (@recorded_pairs_root rt _ _ files Hroot).
    rewrite (bump_steps_field imports delta_imports bump_imports).
    rewrite (bump_steps_field imported_by delta_imported_by bump_imported_by).
    rewrite module_stats_analyze_project.
    rewrite (bump_steps_field imports delta_imports bump_imports).
    rewrite (bump_steps_field imported_by delta_imported_by bump_imported_by).
    assert (E : stats_of (module_stats (init root)) m = default_stats)
      by reflexivity.
    rewrite E. cbn [imports imported_by default_stats]. lia.
Qed.

End ScanShape.

(** ** Paths, module names and the skip rule *)

Section PathFacts.
Import ImportAnalyzer.

Lemma string_length_app (s t : string) :
  String.length (s ++ t)%string = (String.length s + String.length t)%nat.
Proof. induction s as [|a s IH]; simpl; [reflexivity | rewrite IH; reflexivity]. Qed.

Lemma substring_all (t : string) : substring 0 (String.length t) t = t.
Proof. induction t as [|a t IH]; simpl; [reflexivity | rewrite IH; reflexivity]. Qed.

Lemma substring_app_left (s t : string) :
  substring 0 (String.length s) (s ++ t)%string = s.
Proof.
  induction s as [|a s IH]; simpl; [destruct t; reflexivity|].
  rewrite IH. reflexivity.
Qed.

Lemma substring_app_right (s t : string) (n : nat) :
  substring (String.length s) n (s ++ t)%string = substring 0 n t.
Proof. induction s as [|a s IH]; simpl; [reflexivity | exact IH]. Qed.

Lemma rfind_app (c : ascii) (s t : string) :
  PyStr.rfind c t = None ->
  PyStr.rfind c (s ++ String c t)%string = Some (String.length s).
Proof.
  intros Ht. induction s as [|a s IH]; simpl.
  - rewrite Ht, Ascii.eqb_refl. reflexivity.
  - rewrite IH. reflexivity.
Qed.

(** The suffix of a name that ends in [.py]. *)
Lemma suffix_of_py (anchor : string) (dirs : list string) (stem : string) :
  Pathlib.suffix (Pathlib.mkPath anchor (dirs ++ [(stem ++ ".py")%string]))
  = match stem with EmptyString => "" | _ => ".py" end.
Proof.
  unfold Pathlib.suffix, Pathlib.name. cbn [Pathlib.parts].
  rewrite last_last.
  rewrite (rfind_app "." stem "py" eq_refl).
  rewrite string_length_app. cbn [String.length].
  destruct stem as [|a stem]; [reflexivity|].
  replace ((String.length (String a stem) + 3 - 1)%nat)
    with (S (S (String.length (String a stem)))) by (simpl; lia).
  replace ((String.length (String a stem) + 3 - String.length (String a stem))%nat)
    with 3%nat by lia.
  assert (H1 : (0 <? String.length (String a stem))%nat = true) by reflexivity.
  assert (H2 : (String.length (String a stem)
                <? S (S (String.length (String a stem))))%nat = true)
    by (apply Nat.ltb_lt; lia).
  rewrite H1, H2. cbn [andb].
  rewrite substring_app_right. reflexivity.
Qed.

Lemma strip_prefix_app (base rest : list string) :
  Pathlib.strip_prefix base (base ++ rest) = Some rest.
Proof.
  induction base as [|b base IH]; simpl; [reflexivity|].
  rewrite String.eqb_refl. exact IH.
Qed.

(** [relative_to] undoes [joinpath]. *)
Lemma relative_to_joinpath (root : Pathlib.Path) (rel : list string) :
  Pathlib.relative_to (Pathlib.joinpath root rel) root
  = Some (Pathlib.mkPath "" rel).
Proof.
  unfold Pathlib.relative_to, Pathlib.joinpath. cbn [Pathlib.anchor Pathlib.parts].
  rewrite String.eqb_refl, strip_prefix_app. reflexivity.
Qed.

Lemma replace_app (a b : ascii) (s t : string) :
  PyStr.replace a b (s ++ t)%string = (PyStr.replace a b s ++ PyStr.replace a b t)%string.
Proof. induction s as [|x s IH]; simpl; [reflexivity | rewrite IH; reflexivity]. Qed.

Lemma replace_lacks (a b : ascii) (s : string) :
  lacks_char a s -> PyStr.replace a b s = s.
Proof.
  induction s as [|x s IH]; simpl; [reflexivity|]. intros [Hx Hs].
  rewrite (IH Hs). destruct (Ascii.eqb_spec x a); [contradiction | reflexivity].
Qed.

Lemma replace_join (parts : list string) :
  (forall d, In d parts -> lacks_char "/" d) ->
  PyStr.replace "/" "." (PyStr.join "/" parts) = PyStr.join "." parts.
Proof.
  induction parts as [|d parts IH]; intros H; [reflexivity|].
  destruct parts as [|d' parts].
  - simpl. apply replace_lacks, H. left; reflexivity.
  - change (PyStr.join "/" (d :: d' :: parts))
      with (d ++ "/" ++ PyStr.join "/" (d' :: parts))%string.
    change (PyStr.join "." (d :: d' :: parts))
      with (d ++ "." ++ PyStr.join "." (d' :: parts))%string.
    rewrite !replace_app, IH by (intros x Hx; apply H; right; exact Hx).
    rewrite (@replace_lacks "/" "." d (H d (or_introl eq_refl))). reflexivity.
Qed.

(** X10.  A file [dirs/stem.py] below the project root, with a non-empty
    stem, gets the module name made of its directories and its stem joined
    by dots, whatever the project root is.  Only the last suffix is removed,
    so dots inside the stem stay. *)
Theorem module_name_is_dotted_relative_path (a : t) (dirs : list string)
  (stem : string) (c : file_content) :
  stem <> "" ->
  (forall d, In d (dirs ++ [stem]) -> lacks_char "/" d) ->
  _get_module_name a (filepath a (mkFile (dirs ++ [(stem ++ ".py")%string]) c))
  = Some (PyStr.join "." (dirs ++ [stem])).
Proof.
  intros Hstem Hparts. unfold _get_module_name, filepath. cbn [rel].
  rewrite relative_to_joinpath. unfold Pathlib.with_suffix_empty.
  rewrite suffix_of_py. unfold Pathlib.name. cbn [Pathlib.parts Pathlib.anchor].
  rewrite last_last, removelast_last.
  destruct stem as [|x stem]; [congruence|].
  cbn [PyStr.truthy append]. rewrite <- (@replace_join _ Hparts).
  do 2 f_equal. unfold Pathlib.str. cbn [Pathlib.parts Pathlib.anchor].
  replace (substring 0 _ _) with (String x stem).
  - destruct (dirs ++ [String x stem]) eqn:E; [destruct dirs; discriminate|].
    reflexivity.
  - change (String x (stem ++ ".py")) with (String x stem ++ ".py")%string.
    rewrite string_length_app. cbn [String.length].
    replace (S (String.length stem) + 3 - 3)%nat
      with (String.length (String x stem)) by (simpl; lia).
    rewrite substring_app_left. reflexivity.
Qed.

End PathFacts.

Section SkipFacts.
Import ImportAnalyzer.

Lemma name_split (p : Pathlib.Path) (n : string) :
  Pathlib.name p = n -> n <> "" ->
  exists dirs, Pathlib.parts p = dirs ++ [n].
Proof.
  unfold Pathlib.name. intros H Hn.
  destruct (Pathlib.parts p) as [|x l] eqn:E; [simpl in H; congruence|].
  destruct (@exists_last _ (x :: l)) as (dirs & y & Hl); [discriminate|].
  exists dirs. rewrite Hl in H |- *. rewrite last_last in H. subst. reflexivity.
Qed.

(** X11.  For a path whose last component ends in [.py], as [rglob("*.py")]
    yields them, the extension test of [_should_skip_file] never fires: the
    file is skipped exactly when one of the skip patterns occurs in the
    whole path string. *)
Theorem py_file_is_skipped_iff_pattern_in_path (p : Pathlib.Path)
  (stem : string) :
  Pathlib.name p = (stem ++ ".py")%string ->
  (_should_skip_file p = true
   <-> exists pattern,
         In pattern skip_patterns /\ is_substring pattern (Pathlib.str p)).
Proof.
  intros Hname.
  assert (Hext : PyStr.mem (Pathlib.suffix p) skip_extensions = false).
  { destruct (@name_split p _ Hname) as [dirs Hp];
      [destruct stem; discriminate|].
    destruct p as [anchor parts]. simpl in Hp. subst parts.
    rewrite suffix_of_py. destruct stem; reflexivity. }
  unfold _should_skip_file. rewrite Hext, orb_false_r, existsb_exists.
  split; intros (pattern & Hin & H); exists pattern; (split; [exact Hin|]);
    apply contains_is_substring; exact H.
Qed.

Lemma append_assoc' (s t u : string) :
  ((s ++ t) ++ u = s ++ t ++ u)%string.
Proof. induction s as [|a s IH]; simpl; [reflexivity | rewrite IH; reflexivity]. Qed.

Lemma join_app (sep : string) (l1 l2 : list string) :
  l1 <> [] -> l2 <> [] ->
  PyStr.join sep (l1 ++ l2)
  = (PyStr.join sep l1 ++ sep ++ PyStr.join sep l2)%string.
Proof.
  intros H1 H2. induction l1 as [|x l1 IH]; [congruence|].
  destruct l1 as [|y l1].
  - simpl. destruct l2; [congruence | reflexivity].
  - change (PyStr.join sep ((x :: y :: l1) ++ l2))
      with (x ++ sep ++ PyStr.join sep ((y :: l1) ++ l2))%string.
    rewrite IH by discriminate.
    change (PyStr.join sep (x :: y :: l1))
      with (x ++ sep ++ PyStr.join sep (y :: l1))%string.
    rewrite !append_assoc'. reflexivity.
Qed.

Lemma is_substring_app_l (pat s t : string) :
  is_substring pat s -> is_substring pat (s ++ t)%string.
Proof.
  intros (pre & post & ->). exists pre, (post ++ t)%string.
  rewrite !append_assoc'. reflexivity.
Qed.

Lemma is_substring_app_r (pat s t : string) :
  is_substring pat t -> is_substring pat (s ++ t)%string.
Proof.
  intros (pre & post & ->). exists (s ++ pre)%string, post.
  rewrite !append_assoc'. reflexivity.
Qed.

Lemma no_pattern_in_dot (pattern : string) :
  In pattern skip_patterns -> ~ is_substring pattern ".".
Proof.
  intros Hin H. apply contains_is_substring in H.
  simpl in Hin.
  repeat (destruct Hin as [<-|Hin]; [discriminate H|]). exact Hin.
Qed.

(** A pattern in the path of the project root is in the path of every file
    below it. *)
Lemma pattern_in_root_in_file (root : Pathlib.Path) (rel : list string)
  (pattern : string) :
  In pattern skip_patterns ->
  is_substring pattern (Pathlib.str root) ->
  is_substring pattern (Pathlib.str (Pathlib.joinpath root rel)).
Proof.
  intros Hin H. destruct root as [anchor parts]. unfold Pathlib.joinpath.
  cbn [Pathlib.anchor Pathlib.parts].
  destruct rel as [|r rel]; [rewrite app_nil_r; exact H|].
  unfold Pathlib.str in *. cbn [Pathlib.anchor Pathlib.parts] in *.
  destruct parts as [|x parts].
  - simpl app. destruct (PyStr.truthy anchor) eqn:Ht.
    + apply is_substring_app_l. exact H.
    + exfalso. apply (no_pattern_in_dot Hin H).
  - destruct ((x :: parts) ++ r :: rel) eqn:E; [discriminate|]. rewrite <- E.
    rewrite join_app by discriminate.
    rewrite <- append_assoc'. apply is_substring_app_l. exact H.
Qed.

(** X12.  When the path of the project root itself contains a skip pattern
    (a root below a directory named [environment], say), every file is
    skipped: [analyze_project] leaves a fresh analyzer empty. *)
Theorem pattern_in_root_skips_every_file (rt : runtime) (root : Pathlib.Path)
  (pattern : string) (files : list py_file) :
  In pattern skip_patterns ->
  is_substring pattern (Pathlib.str root) ->
  analyze_project rt (init root) files = init root.
Proof.
  intros Hin H. unfold analyze_project.
  induction files as [|f files IH]; [reflexivity|]. simpl.
  assert (Hskip : _should_skip_file (filepath (init root) f) = true).
  { unfold _should_skip_file. apply orb_true_iff. left. apply existsb_exists.
    exists pattern. split; [exact Hin|]. apply contains_is_substring.
    apply pattern_in_root_in_file; assumption. }
  unfold scan_step at 2. rewrite Hskip. exact IH.
Qed.

End SkipFacts.

(** ** Cycle detection: when the call returns, and what an empty list means *)

Section CycleOutcome.
Import ImportAnalyzer.







End CycleOutcome.

Section CycleCompleteness.
Import ImportAnalyzer.

Section Finish.
Variable g0 : Dict.t (list edge).





End Finish.




End CycleCompleteness.

(** ** Instances of the further properties *)

Section FurtherInstances.
Import ImportAnalyzer Examples.

Lemma module_name_is_dotted_relative_path_witness :
  _get_module_name a0
    (filepath a0 (mkFile (["pkg"; "sub"] ++ [("net.v2" ++ ".py")%string])
                         Malformed))
  = Some (PyStr.join "." (["pkg"; "sub"] ++ ["net.v2"])).
Proof.
  apply (@module_name_is_dotted_relative_path a0 ["pkg"; "sub"] "net.v2"
           Malformed).
  - discriminate.
  - intros d [<-|[<-|[<-|[]]]]; simpl; repeat split; discriminate.
Defined.

Lemma py_file_is_skipped_iff_pattern_in_path_witness :
  _should_skip_file (filepath a0 envelope_py) = true
  <-> exists pattern,
        In pattern skip_patterns /\
        is_substring pattern (Pathlib.str (filepath a0 envelope_py)).
Proof.
  apply (@py_file_is_skipped_iff_pattern_in_path (filepath a0 envelope_py)
           "envelope").
  reflexivity.
Defined.

Lemma pattern_in_root_skips_every_file_witness :
  analyze_project rt0
    (init (Pathlib.mkPath "/" ["home"; "environment"; "proj"])) [net_py; a_py]
  = init (Pathlib.mkPath "/" ["home"; "environment"; "proj"]).
Proof.
  apply (@pattern_in_root_skips_every_file rt0
           (Pathlib.mkPath "/" ["home"; "environment"; "proj"]) "env"
           [net_py; a_py]).
  - simpl. tauto.
  - exists "/home/", "ironment/proj". reflexivity.
Defined.

End FurtherInstances.

(** ** Cycle detection: what the call leaves behind *)

Section CycleState.
Import ImportAnalyzer.

Lemma for_each_node_state (g0 : Dict.t (list edge)) (fuel size : nat)
  (todo : list string) :
  forall all_cycles st r st',
    same_edges g0 (snd st) -> visited_are_keys st ->
    for_each_node fuel size todo all_cycles st = Some (r, st') ->
    same_edges g0 (snd st') /\
    (exists extra, snd st' = snd st ++ extra) /\
    (r = RuntimeError <-> length (snd st') <> size).
Proof.
  induction todo as [|node todo IH]; intros all_cycles st r st' Hg HK Hf;
    cbn [for_each_node] in Hf;
    destruct (length (snd st) =? size)%nat eqn:Hsize; simpl negb in Hf;
    cbv iota in Hf.
  - inversion Hf; subst. apply Nat.eqb_eq in Hsize.
    split; [exact Hg|]. split; [exists []; symmetry; apply app_nil_r|].
    split; [discriminate | intros H; congruence].
  - inversion Hf; subst. apply Nat.eqb_neq in Hsize.
    split; [exact Hg|]. split; [exists []; symmetry; apply app_nil_r|].
    split; [intros _; exact Hsize | reflexivity].
  - destruct (find_cycles fuel node [] st) as [[cs1 st1]|] eqn:Hcall;
      [|discriminate].
    destruct (@find_cycles_sound g0 fuel _ _ _ _ _ Hg Hcall) as [Hg1 _].
    destruct (@find_cycles_marks g0 fuel node [] st cs1 st1 Hg HK
                (incl_nil_l _) Hcall) as [(_ & [x1 Hx1] & HK1 & _) _].
    destruct (IH _ _ _ _ Hg1 HK1 Hf) as (Hg' & [x2 Hx2] & Hr).
    split; [exact Hg'|]. split; [|exact Hr].
    exists (x1 ++ x2). rewrite Hx2, Hx1, app_assoc. reflexivity.
  - inversion Hf; subst. apply Nat.eqb_neq in Hsize.
    split; [exact Hg|]. split; [exists []; symmetry; apply app_nil_r|].
    split; [intros _; exact Hsize | reflexivity].
Qed.

(** X15.  Whenever [get_circular_dependencies] returns or raises the
    [RuntimeError] of the dictionary iterator (that is, unless a
    [RecursionError] ends it), it leaves the statistics and every edge set
    as they were; the import graph keeps its entries in their order and may
    have gained keys at the end, and it has gained one exactly when the
    call raised. *)
Theorem search_only_adds_keys (rt : runtime) (a : t)
  (r : py_result (list (list string))) :
  get_circular_dependencies rt a = Some r ->
  exists a',
    after_get_circular_dependencies rt a = Some a' /\
    project_root a' = project_root a /\
    module_stats a' = module_stats a /\
    (exists extra, import_graph a' = import_graph a ++ extra) /\
    (forall m, edges_of (import_graph a') m = edges_of (import_graph a) m) /\
    (r = RuntimeError
     <-> (length (import_graph a) < length (import_graph a'))%nat).
Proof.
  intros Hr.
  unfold get_circular_dependencies, after_get_circular_dependencies in *.
  unfold search in *.
  destruct (for_each_node _ _ _ _ _) as [[r' [v g']]|] eqn:Hf; [|discriminate].
  simpl in Hr. inversion Hr; subst r'. clear Hr.
  destruct (@for_each_node_state (import_graph a)
              (recursion_limit rt) (length (import_graph a))
              (Dict.keys (import_graph a)) [] ([], import_graph a) r (v, g')
              (same_edges_refl _) (fun x (H : In x []) => match H with end) Hf)
    as (Hg & [extra Hx] & Hraise).
  simpl in Hg, Hx, Hraise.
  eexists. split; [reflexivity|]. simpl.
  split; [reflexivity|]. split; [reflexivity|].
  split; [exists extra; exact Hx|]. split; [exact Hg|].
  rewrite Hx, length_app in *. split.
  - intros E. apply Hraise in E. lia.
  - intros H. apply Hraise. lia.
Qed.

End CycleState.

(** ** Instances of the properties of the search *)

Section CycleInstances.
Import ImportAnalyzer Examples.

(** A ring of three modules under a recursion limit of three: the fourth
    nested call, which would close the cycle, ends the search with a
    [RecursionError]. *)
Example ring_deeper_than_the_limit (rt : runtime) :
  recursion_limit rt = 3%nat ->
  closed [("A", [("B", T_local)]); ("B", [("C", T_local)]);
          ("C", [("A", T_local)])] /\
  get_circular_dependencies rt
    (with_graph [("A", [("B", T_local)]); ("B", [("C", T_local)]);
                 ("C", [("A", T_local)])])
  = None.
Proof.
  intros H. split.
  - intros u v. unfold has_edge, edges_of, Dict.get_or. simpl.
    destruct (String.eqb u "A"); [simpl; intuition|].
    destruct (String.eqb u "B"); [simpl; intuition|].
    destruct (String.eqb u "C"); simpl; intuition.
  - unfold get_circular_dependencies, search. rewrite H. reflexivity.
Qed.

(** A file whose tree the visitor cannot get through is caught like a
    file that does not parse: nothing of it is recorded. *)
Example visitor_error_changes_nothing (rt : runtime) (a : t) (f : py_file)
  (tree : ast) :
  content f = Parsed tree -> visit_raises rt tree = true ->
  _analyze_file rt a f = a.
Proof.
  intros Hc Hr. unfold _analyze_file. rewrite Hc, Hr.
  destruct (_get_module_name a (filepath a f)); reflexivity.
Qed.



Lemma search_only_adds_keys_witness :
  exists a',
    after_get_circular_dependencies rt0 (analyze_project rt0 a0 [a_py])
    = Some a' /\
    project_root a' = project_root (analyze_project rt0 a0 [a_py]) /\
    module_stats a' = module_stats (analyze_project rt0 a0 [a_py]) /\
    (exists extra,
       import_graph a'
       = import_graph (analyze_project rt0 a0 [a_py]) ++ extra) /\
    (forall m,
       edges_of (import_graph a') m
       = edges_of (import_graph (analyze_project rt0 a0 [a_py])) m) /\
    (@RuntimeError (list (list string)) = RuntimeError
     <-> (length (import_graph (analyze_project rt0 a0 [a_py]))
          < length (import_graph a'))%nat).
Proof.
  apply (@search_only_adds_keys rt0 (analyze_project rt0 a0 [a_py])
           RuntimeError).
  reflexivity.
Defined.

End CycleInstances.

(** ** Suggestions: when there are none *)

Section SuggestionFacts.
Import Suggest.
Local Open Scope Z_scope.

Lemma nonempty_set (V : Type) (d : Dict.t V) (k : string) (v : V) :
  nonempty (Dict.set d k v) = true.
Proof.
  destruct d as [|[k' v'] d]; simpl; [reflexivity|].
  destruct (String.eqb k k'); reflexivity.
Qed.

Lemma comprehension_nonempty_from (value : stats -> Z) (cond : stats -> bool)
  (d : Dict.t stats) :
  forall acc : Dict.t Z,
    nonempty
      (fold_left
         (fun acc (kv : string * stats) =>
            if cond (snd kv) then Dict.set acc (fst kv) (value (snd kv))
            else acc)
         d acc)
    = nonempty acc || existsb (fun kv => cond (snd kv)) d.
Proof.
  induction d as [|[k s] d IH]; intros acc; simpl.
  - rewrite orb_false_r. reflexivity.
  - rewrite IH. destruct (cond s); simpl; [|reflexivity].
    rewrite nonempty_set. destruct (nonempty acc); reflexivity.
Qed.

(** The comprehension is empty exactly when no entry passes its filter. *)
Lemma comprehension_nonempty (value : stats -> Z) (cond : stats -> bool)
  (d : Dict.t stats) :
  nonempty (comprehension value cond d)
  = existsb (fun kv => cond (snd kv)) d.
Proof. unfold comprehension. apply comprehension_nonempty_from. Qed.

Lemma block_is_nil (acc rest : list string) (header : string) (b : bool) :
  (if b then (acc ++ [header]) ++ rest else acc) = []
  <-> acc = [] /\ b = false.
Proof.
  destruct b; split.
  - intros H. apply app_eq_nil in H as [H _].
    apply app_eq_nil in H as [_ H]. discriminate.
  - intros [_ H]. discriminate.
  - intros H. split; [exact H | reflexivity].
  - intros [H _]. exact H.
Qed.

Lemma none_passes (cond : stats -> bool) (ms : Dict.t stats) :
  existsb (fun kv => cond (snd kv)) ms = false
  <-> forall m s, In (m, s) ms -> cond s = false.
Proof.
  split.
  - intros H m s Hin. destruct (cond s) eqn:E; [|reflexivity].
    rewrite <- H. symmetry. apply existsb_exists. exists (m, s).
    split; [exact Hin | exact E].
  - intros H. destruct (existsb _ ms) eqn:E; [|reflexivity].
    apply existsb_exists in E as [[m s] [Hin Hc]]. simpl in Hc.
    rewrite (H m s Hin) in Hc. discriminate.
Qed.

(** X16.  [suggest_optimizations] returns the empty list exactly when no
    module of the statistics exceeds a threshold: every module has at most
    10 imports, is imported at most 5 times, and has at most 3 third-party
    and at most 5 local imports.  The method of the analyzer and the
    function of [optimizer.py] agree on it. *)
Theorem no_suggestion_iff_below_thresholds (a : ImportAnalyzer.t) :
  (ImportAnalyzer.suggest_optimizations a = []
   <-> forall m s,
         In (m, s) (ImportAnalyzer.module_stats a) ->
         imports s <= 10 /\ imported_by s <= 5 /\
         type_imports T_third_party s <= 3 /\ type_imports T_local s <= 5) /\
  (Optimizer.suggest_optimizations (ImportAnalyzer.module_stats a) = []
   <-> ImportAnalyzer.suggest_optimizations a = []).
Proof.
  split; [|reflexivity].
  change (ImportAnalyzer.suggest_optimizations a)
    with (Optimizer.suggest_optimizations (ImportAnalyzer.module_stats a)).
  set (ms := ImportAnalyzer.module_stats a).
  unfold Optimizer.suggest_optimizations. cbv zeta.
  rewrite !block_is_nil, !comprehension_nonempty.
  pose proof (none_passes (fun s => 10 <? imports s) ms) as N1.
  pose proof (none_passes (fun s => 5 <? imported_by s) ms) as N2.
  pose proof (none_passes (fun s => 3 <? type_imports T_third_party s) ms)
    as N3.
  pose proof (none_passes (fun s => 5 <? type_imports T_local s) ms) as N4.
  cbv beta in N1, N2, N3, N4. rewrite N1, N2, N3, N4.
  split.
  - intros ((((_ & H1) & H2) & H3) & H4) m s Hin.
    specialize (H1 m s Hin). specialize (H2 m s Hin).
    specialize (H3 m s Hin). specialize (H4 m s Hin).
    apply Z.ltb_ge in H1, H2, H3, H4. repeat split; assumption.
  - intros H.
    repeat split; intros m s Hin; apply Z.ltb_ge;
      destruct (H m s Hin) as (H1 & H2 & H3 & H4); assumption.
Qed.

End SuggestionFacts.

(** ** Suggestions: the order among equal counts *)

Section SuggestionTies.
Import Suggest.
Local Open Scope Z_scope.

Lemma with_count_insert_desc (c : Z) (x : string * Z) (l : list (string * Z)) :
  with_count c (insert_desc x l)
  = if snd x =? c then x :: with_count c l else with_count c l.
Proof.
  unfold with_count. induction l as [|y l IH]; simpl; [reflexivity|].
  destruct (Z.leb_spec (snd y) (snd x)) as [Hle|Hlt]; simpl; [reflexivity|].
  rewrite IH.
  destruct (Z.eqb_spec (snd x) c) as [Ex|Nx];
    destruct (Z.eqb_spec (snd y) c) as [Ey|Ny]; try reflexivity.
  lia.
Qed.

(** The sort is stable: entries with equal counts keep their order. *)
Lemma with_count_sorted (c : Z) (d : Dict.t Z) :
  with_count c (sorted_by_count d) = with_count c d.
Proof.
  induction d as [|x d IH]; [reflexivity|].
  change (sorted_by_count (x :: d)) with (insert_desc x (sorted_by_count d)).
  rewrite with_count_insert_desc, IH. reflexivity.
Qed.

Lemma filter_map_comm (A B : Type) (f : A -> B) (p : B -> bool) (l : list A) :
  filter p (map f l) = map f (filter (fun x => p (f x)) l).
Proof.
  induction l as [|x l IH]; simpl; [reflexivity|].
  rewrite IH. destruct (p (f x)); reflexivity.
Qed.

Lemma filter_filter (A : Type) (p q : A -> bool) (l : list A) :
  filter q (filter p l) = filter (fun x => p x && q x) l.
Proof.
  induction l as [|x l IH]; simpl; [reflexivity|].
  destruct (p x); simpl; rewrite IH; reflexivity.
Qed.

Lemma sorted_comprehension_ties (value : stats -> Z) (threshold : Z)
  (ms : Dict.t stats) :
  NoDup (Dict.keys ms) ->
  ties_in_dictionary_order value threshold ms
    (sorted_by_count
       (comprehension value (fun s => threshold <? value s) ms)).
Proof.
  intros Hnd c. rewrite with_count_sorted.
  rewrite comprehension_filter_map by exact Hnd.
  unfold with_count. rewrite filter_map_comm, filter_filter. reflexivity.
Qed.

(** X17.  In each of the four sections of the suggestions, modules with
    equal counts appear in the order of the statistics dictionary (the sort
    is stable), and counts never increase along a section; so, of several
    modules tied at the fifth place of a capped section, the ones that the
    dictionary holds first are the ones shown. *)
Theorem tied_modules_keep_dictionary_order (a : ImportAnalyzer.t) :
  NoDup (Dict.keys (ImportAnalyzer.module_stats a)) ->
  exists heavy common third loc : list (string * Z),
    descending heavy /\
    ties_in_dictionary_order imports 10
      (ImportAnalyzer.module_stats a) heavy /\
    descending common /\
    ties_in_dictionary_order imported_by 5
      (ImportAnalyzer.module_stats a) common /\
    descending third /\
    ties_in_dictionary_order (type_imports T_third_party) 3
      (ImportAnalyzer.module_stats a) third /\
    descending loc /\
    ties_in_dictionary_order (type_imports T_local) 5
      (ImportAnalyzer.module_stats a) loc /\
    ImportAnalyzer.suggest_optimizations a
    = report_section heavy_header heavy_line heavy
      ++ report_section common_header common_line common
      ++ report_section third_party_header third_party_line (firstn 5 third)
      ++ report_section local_header local_line (firstn 5 loc).
Proof.
  intros Hnd. set (ms := ImportAnalyzer.module_stats a) in *.
  exists (sorted_by_count (comprehension imports (fun s => 10 <? imports s) ms)),
         (sorted_by_count
            (comprehension imported_by (fun s => 5 <? imported_by s) ms)),
         (sorted_by_count
            (comprehension (type_imports T_third_party)
               (fun s => 3 <? type_imports T_third_party s) ms)),
         (sorted_by_count
            (comprehension (type_imports T_local)
               (fun s => 5 <? type_imports T_local s) ms)).
  repeat (split; [apply sorted_by_count_descending|];
          split; [apply sorted_comprehension_ties, Hnd|]).
  change (ImportAnalyzer.suggest_optimizations a)
    with (Optimizer.suggest_optimizations ms).
  unfold Optimizer.suggest_optimizations. cbv zeta.
  rewrite append_section, append_section.
  rewrite append_capped_section, append_capped_section.
  simpl app at 1. rewrite <- !app_assoc. reflexivity.
Qed.

End SuggestionTies.

Section SuggestionInstances.
Import ImportAnalyzer Examples.

Lemma tied_modules_keep_dictionary_order_witness :
  exists heavy common third loc : list (string * Z),
    descending heavy /\
    ties_in_dictionary_order imports 10 stats_tied heavy /\
    descending common /\
    ties_in_dictionary_order imported_by 5 stats_tied common /\
    descending third /\
    ties_in_dictionary_order (type_imports T_third_party) 3 stats_tied third /\
    descending loc /\
    ties_in_dictionary_order (type_imports T_local) 5 stats_tied loc /\
    suggest_optimizations (mkAnalyzer root0 [] stats_tied)
    = report_section Suggest.heavy_header Suggest.heavy_line heavy
      ++ report_section Suggest.common_header Suggest.common_line common
      ++ report_section Suggest.third_party_header Suggest.third_party_line
                        (firstn 5 third)
      ++ report_section Suggest.local_header Suggest.local_line (firstn 5 loc).
Proof.
  apply (@tied_modules_keep_dictionary_order (mkAnalyzer root0 [] stats_tied)).
  simpl. repeat constructor; simpl; intuition discriminate.
Defined.

End SuggestionInstances.

(** ** Load times *)

Section LoadTimeLoop.
Import ImportAnalyzer.
Variable import_module : string -> import_attempt.

Lemma set_set (V : Type) (d : Dict.t V) (k : string) (v v' : V) :
  Dict.set (Dict.set d k v) k v' = Dict.set d k v'.
Proof.
  induction d as [|[k0 v0] d IH]; simpl.
  - rewrite String.eqb_refl. reflexivity.
  - destruct (String.eqb k k0) eqn:E; simpl; rewrite E; [reflexivity|].
    rewrite IH. reflexivity.
Qed.

Lemma keys_update_stats (f : stats -> stats) (ms : Dict.t stats) (k : string) :
  exists extra, Dict.keys (update_stats f ms k) = Dict.keys ms ++ extra.
Proof.
  unfold update_stats, Dict.getitem_default.
  destruct (Dict.get ms k) as [s|] eqn:E.
  - exists []. rewrite app_nil_r. apply keys_set_present.
    apply get_Some_In in E. apply (in_map fst) in E. exact E.
  - apply get_None_keys in E. exists [k].
    rewrite set_set, set_absent by exact E.
    unfold Dict.keys. rewrite map_app. reflexivity.
Qed.

(** A field that the measurement does not write keeps its value. *)
Lemma time_modules_keep (A : Type) (field : stats -> A) :
  (forall t s, field (set_import_time t s) = field s) ->
  forall (mods : list string) (st : Dict.t stats * list string) (m : string),
    field (stats_of (fst (fst (time_modules import_module mods st))) m)
    = field (stats_of (fst st) m).
Proof.
  intros Hf. induction mods as [|k mods IH]; intros st m; simpl;
    [reflexivity|].
  destruct (import_module k) as [t| |];
    [|rewrite IH; reflexivity|reflexivity].
  rewrite IH. simpl. rewrite stats_of_update_stats.
  destruct (String.eqb_spec m k) as [->|_]; [apply Hf | reflexivity].
Qed.

(** The entry of a module that is not measured is not touched. *)
Lemma time_modules_untouched (mods : list string) :
  forall (st : Dict.t stats * list string) (m : string),
    (~ In m mods \/ forall t, import_module m <> Imported t) ->
    stats_of (fst (fst (time_modules import_module mods st))) m
    = stats_of (fst st) m.
Proof.
  induction mods as [|k mods IH]; intros st m H; simpl; [reflexivity|].
  assert (H' : ~ In m mods \/ forall t, import_module m <> Imported t).
  { destruct H as [H|H]; [left; intros Hin; apply H; right; exact Hin
                         |right; exact H]. }
  destruct (import_module k) as [t| |] eqn:E;
    [|rewrite (IH _ _ H'); reflexivity|reflexivity].
  rewrite (IH _ _ H'). simpl. rewrite stats_of_update_stats.
  destruct (String.eqb_spec m k) as [->|_]; [|reflexivity].
  destruct H as [H|H]; [destruct H; left; reflexivity|].
  destruct (H t E).
Qed.

Lemma time_modules_keys (mods : list string) :
  forall st : Dict.t stats * list string,
    exists extra,
      Dict.keys (fst (fst (time_modules import_module mods st)))
      = Dict.keys (fst st) ++ extra.
Proof.
  induction mods as [|k mods IH]; intros st; simpl.
  - exists []. symmetry. apply app_nil_r.
  - destruct (import_module k) as [t| |].
    + destruct (IH (update_stats (set_import_time t) (fst st) k, snd st))
        as [x2 H2].
      destruct (keys_update_stats (set_import_time t) (fst st) k) as [x1 H1].
      exists (x1 ++ x2). rewrite H2. simpl. rewrite H1, app_assoc.
      reflexivity.
    + destruct (IH (fst st, snd st ++ [LoadTimes.could_not_import_line k]))
        as [x H].
      exists x. exact H.
    + exists []. symmetry. apply app_nil_r.
Qed.

(** When no import raises anything but [ImportError], the loop runs to its
    end, stores every measured time and prints one line per failure. *)
Lemma time_modules_finished (mods : list string) :
  forall st : Dict.t stats * list string,
    (forall k, In k mods -> import_module k <> OtherException) ->
    snd (time_modules import_module mods st) = Finished /\
    (forall m t, In m mods -> import_module m = Imported t ->
       import_time (stats_of (fst (fst (time_modules import_module mods st))) m)
       = t) /\
    snd (fst (time_modules import_module mods st))
    = snd st ++ could_not_import import_module mods.
Proof.
  unfold could_not_import.
  induction mods as [|k mods IH]; intros st Hno; simpl.
  - split; [reflexivity|]. split; [intros m t []|].
    symmetry. apply app_nil_r.
  - assert (Hno' : forall k', In k' mods -> import_module k' <> OtherException)
      by (intros k' Hk'; apply Hno; right; exact Hk').
    unfold import_fails at 1.
    destruct (import_module k) as [t| |] eqn:E.
    + destruct (IH (update_stats (set_import_time t) (fst st) k, snd st) Hno')
        as (He & Ht & Ho).
      split; [exact He|]. split; [|exact Ho].
      intros m t' [<-|Hin] Hm.
      * destruct (in_dec string_dec k mods) as [Hin|Hout];
          [apply Ht; assumption|].
        rewrite time_modules_untouched by (left; exact Hout). simpl.
        rewrite stats_of_update_stats, String.eqb_refl. simpl. congruence.
      * apply Ht; assumption.
    + destruct (IH (fst st, snd st ++ [LoadTimes.could_not_import_line k])
                   Hno') as (He & Ht & Ho).
      split; [exact He|]. split.
      * intros m t [<-|Hin] Hm; [congruence | apply Ht; assumption].
      * rewrite Ho. simpl. rewrite <- app_assoc. reflexivity.
    + destruct (Hno k (or_introl eq_refl) E).
Qed.

(** An exception that is not an [ImportError] ends the loop where it is
    raised. *)
Lemma time_modules_stopped (before : list string) (k : string)
  (after : list string) :
  forall st : Dict.t stats * list string,
    (forall m, In m before -> import_module m <> OtherException) ->
    import_module k = OtherException ->
    time_modules import_module (before ++ k :: after) st
    = (fst (time_modules import_module before st), Propagated).
Proof.
  induction before as [|b before IH]; intros st Hno Hk; simpl.
  - rewrite Hk. reflexivity.
  - assert (Hno' : forall m, In m before -> import_module m <> OtherException)
      by (intros m Hm; apply Hno; right; exact Hm).
    destruct (import_module b) as [t| |] eqn:E.
    + apply IH; assumption.
    + apply IH; assumption.
    + destruct (Hno b (or_introl eq_refl) E).
Qed.

End LoadTimeLoop.

Section LoadTimeSuggestions.
Import ImportAnalyzer Suggest.
Variable import_module : string -> import_attempt.
Variable value : stats -> Z.
Variable cond : stats -> bool.
Hypothesis value_keeps : forall t s, value (set_import_time t s) = value s.
Hypothesis cond_keeps : forall t s, cond (set_import_time t s) = cond s.
Hypothesis cond_default : cond default_stats = false.

Lemma comprehension_set_present (t : float) (k : string) (ms : Dict.t stats) :
  forall (s : stats) (acc : Dict.t Z),
    Dict.get ms k = Some s ->
    fold_left
      (fun acc (kv : string * stats) =>
         if cond (snd kv) then Dict.set acc (fst kv) (value (snd kv)) else acc)
      (Dict.set ms k (set_import_time t s)) acc
    = fold_left
        (fun acc (kv : string * stats) =>
           if cond (snd kv) then Dict.set acc (fst kv) (value (snd kv))
           else acc)
        ms acc.
Proof.
  induction ms as [|[k0 s0] ms IH]; intros s acc H; simpl in *;
    [discriminate|].
  destruct (String.eqb k k0).
  - inversion H; subst. simpl. rewrite cond_keeps, value_keeps. reflexivity.
  - simpl. apply IH, H.
Qed.

Lemma comprehension_update_stats (t : float) (k : string) (ms : Dict.t stats) :
  comprehension value cond (update_stats (set_import_time t) ms k)
  = comprehension value cond ms.
Proof.
  unfold comprehension, update_stats, Dict.getitem_default.
  destruct (Dict.get ms k) as [s|] eqn:E.
  - apply comprehension_set_present, E.
  - apply get_None_keys in E.
    rewrite set_set, set_absent by exact E.
    rewrite fold_left_app. simpl.
    rewrite cond_keeps, cond_default. reflexivity.
Qed.

Lemma comprehension_time_modules (mods : list string) :
  forall st : Dict.t stats * list string,
    comprehension value cond (fst (fst (time_modules import_module mods st)))
    = comprehension value cond (fst st).
Proof.
  induction mods as [|k mods IH]; intros st; simpl; [reflexivity|].
  destruct (import_module k) as [t| |]; [|rewrite IH; reflexivity|reflexivity].
  rewrite IH. simpl. apply comprehension_update_stats.
Qed.

End LoadTimeSuggestions.

Section LoadTimeTheorems.
Import ImportAnalyzer.
Variable import_module : string -> import_attempt.
Local Open Scope Z_scope.

Lemma analyze_import_load_times_eq (a : t) :
  analyze_import_load_times import_module a
  = (mkAnalyzer (project_root a) (import_graph a)
       (fst (fst (time_modules import_module (Dict.keys (import_graph a))
                               (module_stats a, [])))),
     snd (fst (time_modules import_module (Dict.keys (import_graph a))
                            (module_stats a, []))),
     snd (time_modules import_module (Dict.keys (import_graph a))
                       (module_stats a, []))).
Proof.
  unfold analyze_import_load_times.
  destruct (time_modules _ _ _) as [[ms out] e]. reflexivity.
Qed.

(** X18.  However the imports end, [analyze_import_load_times] writes
    nothing but import times: the project root and the import graph are as
    before, the statistics keep their keys in order and may only gain keys
    at the end, every counter of every module is unchanged, and so the
    suggestions are the same before and after the call. *)
Theorem load_times_change_no_counter (a : t) :
  let '(a', _, _) := analyze_import_load_times import_module a in
  project_root a' = project_root a /\
  import_graph a' = import_graph a /\
  (exists extra,
     Dict.keys (module_stats a') = Dict.keys (module_stats a) ++ extra) /\
  (forall m,
     imports (stats_of (module_stats a') m)
     = imports (stats_of (module_stats a) m) /\
     imported_by (stats_of (module_stats a') m)
     = imported_by (stats_of (module_stats a) m) /\
     stdlib_imports (stats_of (module_stats a') m)
     = stdlib_imports (stats_of (module_stats a) m) /\
     third_party_imports (stats_of (module_stats a') m)
     = third_party_imports (stats_of (module_stats a) m) /\
     local_imports (stats_of (module_stats a') m)
     = local_imports (stats_of (module_stats a) m)) /\
  suggest_optimizations a' = suggest_optimizations a.
Proof.
  rewrite analyze_import_load_times_eq.
  set (mods := Dict.keys (import_graph a)).
  cbn [project_root import_graph module_stats].
  split; [reflexivity|]. split; [reflexivity|].
  split; [apply (time_modules_keys import_module mods (module_stats a, []))|].
  split.
  - intros m. repeat split.
    + apply (@time_modules_keep import_module _ imports
               (fun _ _ => eq_refl) mods (module_stats a, []) m).
    + apply (@time_modules_keep import_module _ imported_by
               (fun _ _ => eq_refl) mods (module_stats a, []) m).
    + apply (@time_modules_keep import_module _ stdlib_imports
               (fun _ _ => eq_refl) mods (module_stats a, []) m).
    + apply (@time_modules_keep import_module _ third_party_imports
               (fun _ _ => eq_refl) mods (module_stats a, []) m).
    + apply (@time_modules_keep import_module _ local_imports
               (fun _ _ => eq_refl) mods (module_stats a, []) m).
  - unfold suggest_optimizations. cbn [module_stats].
    rewrite (@comprehension_time_modules import_module imports
               (fun s => 10 <? imports s)
               (fun _ _ => eq_refl) (fun _ _ => eq_refl) eq_refl mods
               (module_stats a, [])).
    rewrite (@comprehension_time_modules import_module imported_by
               (fun s => 5 <? imported_by s)
               (fun _ _ => eq_refl) (fun _ _ => eq_refl) eq_refl mods
               (module_stats a, [])).
    rewrite (@comprehension_time_modules import_module
               (type_imports T_third_party)
               (fun s => 3 <? type_imports T_third_party s)
               (fun _ _ => eq_refl) (fun _ _ => eq_refl) eq_refl mods
               (module_stats a, [])).
    rewrite (@comprehension_time_modules import_module
               (type_imports T_local)
               (fun s => 5 <? type_imports T_local s)
               (fun _ _ => eq_refl) (fun _ _ => eq_refl) eq_refl mods
               (module_stats a, [])).
    reflexivity.
Qed.


(** X20.  An exception other than [ImportError] ends the call at the key
    whose import raises it: the keys before it have been measured as
    usual, and every other module, the keys after it included, keeps its
    entry, whatever its import would have given. *)
Theorem other_exception_stops_the_measurement (a : t)
  (before : list string) (k : string) (after : list string) :
  Dict.keys (import_graph a) = before ++ k :: after ->
  (forall m, In m before -> import_module m <> OtherException) ->
  import_module k = OtherException ->
  let '(a', out, e) := analyze_import_load_times import_module a in
  e = Propagated /\
  (forall m t,
     In m before -> import_module m = Imported t ->
     import_time (stats_of (module_stats a') m) = t) /\
  (forall m,
     ~ In m before -> stats_of (module_stats a') m = stats_of (module_stats a) m) /\
  out = could_not_import import_module before.
Proof.
  intros Hkeys Hno Hk. rewrite analyze_import_load_times_eq, Hkeys.
  rewrite (@time_modules_stopped import_module before k after
             (module_stats a, []) Hno Hk).
  cbn [project_root import_graph module_stats fst snd].
  destruct (@time_modules_finished import_module _ (module_stats a, []) Hno)
    as (_ & Ht & Ho).
  split; [reflexivity|]. split; [exact Ht|]. split; [|exact Ho].
  intros m H.
  apply (@time_modules_untouched import_module _ (module_stats a, []) m).
  left. exact H.
Qed.

End LoadTimeTheorems.

(** ** Load times after a scan *)

Section LoadTimeAfterScan.
Import ImportAnalyzer.
Variable rt : runtime.
Variable import_module : string -> import_attempt.

Lemma Forall_values_set (Q : stats -> Prop) (d : Dict.t stats) (k : string)
  (v : stats) :
  Forall (fun kv => Q (snd kv)) d -> Q v ->
  Forall (fun kv => Q (snd kv)) (Dict.set d k v).
Proof.
  intros Hd Hv. induction d as [|[k0 v0] d IH]; simpl.
  - constructor; [exact Hv | constructor].
  - inversion Hd as [|? ? H0 Hd']; subst.
    destruct (String.eqb k k0); constructor; auto.
Qed.

Lemma Forall_values_update_stats (Q : stats -> Prop) (f : stats -> stats)
  (ms : Dict.t stats) (k : string) :
  Q default_stats -> (forall s, Q s -> Q (f s)) ->
  Forall (fun kv => Q (snd kv)) ms ->
  Forall (fun kv => Q (snd kv)) (update_stats f ms k).
Proof.
  intros H0 Hf Hms. unfold update_stats, Dict.getitem_default.
  destruct (Dict.get ms k) as [s|] eqn:E.
  - apply Forall_values_set; [exact Hms|]. apply Hf.
    apply get_Some_In in E.
    apply (proj1 (Forall_forall _ _) Hms (k, s) E).
  - rewrite set_set. apply Forall_values_set; [exact Hms|]. apply Hf, H0.
Qed.

Lemma bump_steps_no_time (bs : list (counter * string)) :
  forall ms : Dict.t stats,
    Forall (fun kv => import_time (snd kv) = 0%float) ms ->
    Forall (fun kv => import_time (snd kv) = 0%float) (fold_left bump_step bs ms).
Proof.
  induction bs as [|b bs IH]; intros ms H; simpl; [exact H|].
  apply IH. unfold bump_step.
  apply (@Forall_values_update_stats (fun s => import_time s = 0%float));
    [reflexivity | | exact H].
  intros s Hs. rewrite bump_import_time. exact Hs.
Qed.

(** A scan leaves every import time at zero. *)
Lemma fresh_scan_no_time (root : Pathlib.Path) (files : list py_file) :
  Forall (fun kv => import_time (snd kv) = 0%float)
         (module_stats (analyze_project rt (init root) files)).
Proof.
  rewrite module_stats_analyze_project. apply bump_steps_no_time. constructor.
Qed.

Lemma stats_of_no_time (ms : Dict.t stats) (m : string) :
  Forall (fun kv => import_time (snd kv) = 0%float) ms ->
  import_time (stats_of ms m) = 0%float.
Proof.
  intros H. unfold stats_of, Dict.get_or.
  destruct (Dict.get ms m) as [s|] eqn:E; [|reflexivity].
  apply get_Some_In in E.
  apply (proj1 (Forall_forall _ _) H (m, s) E).
Qed.

Lemma sorted_by_time_zero (l : list (string * float)) :
  Forall (fun x => snd x = 0%float) l -> LoadTimes.sorted_by_time l = l.
Proof.
  induction l as [|x l IH]; intros H; [reflexivity|].
  inversion H as [|? ? Hx Hl]; subst.
  change (LoadTimes.sorted_by_time (x :: l))
    with (LoadTimes.insert_by_time x (LoadTimes.sorted_by_time l)).
  rewrite (IH Hl). destruct l as [|y l']; [reflexivity|].
  inversion Hl as [|? ? Hy _]; subst.
  cbn [LoadTimes.insert_by_time]. rewrite Hx, Hy. reflexivity.
Qed.

(** X21.  After a scan of a fresh analyzer, the load-time analysis measures
    only the modules that are keys of the graph, that is the analysed files
    that import something: every other module of the statistics (a module
    that is only imported, or one that imports nothing) keeps its entry and
    its import time of zero, whatever its import would give. *)
Theorem only_importing_files_are_timed (root : Pathlib.Path)
  (files : list py_file) (m : string) :
  ~ (exists f tree x,
       In f files /\ analysed_as (init root) f m tree /\ imports_name x tree) ->
  let a := analyze_project rt (init root) files in
  let '(a', _, _) := analyze_import_load_times import_module a in
  stats_of (module_stats a') m = stats_of (module_stats a) m /\
  import_time (stats_of (module_stats a') m) = 0%float.
Proof.
  intros Hno. cbv zeta. rewrite analyze_import_load_times_eq.
  cbn [module_stats].
  assert (Hkey : ~ In m (Dict.keys (import_graph
                                      (analyze_project rt (init root) files)))).
  { intros Hin. apply keys_of_fresh_scan in Hin as [x Hx].
    apply recorded_pairs_In in Hx as (f & tree & Hf & Ha & _ & Hx & _).
    apply Hno. exists f, tree, x. repeat split; try assumption; apply Ha. }
  assert (E : stats_of
                (fst (fst (time_modules import_module
                             (Dict.keys (import_graph
                                (analyze_project rt (init root) files)))
                             (module_stats
                                (analyze_project rt (init root) files), []))))
                m
              = stats_of (module_stats (analyze_project rt (init root) files))
                         m).
  { apply (@time_modules_untouched import_module _
             (module_stats (analyze_project rt (init root) files), []) m).
    left. exact Hkey. }
  split; [exact E|]. rewrite E.
  apply stats_of_no_time, fresh_scan_no_time.
Qed.

(** X22.  Asked right after a scan, before any load-time analysis,
    [get_top_import_times] has nothing to rank: it returns the modules of
    the statistics in their insertion order, each with the time zero, cut
    as the slice [[:top_n]] cuts (the first [top_n] of them, or all but the
    last [-top_n] for a negative [top_n]). *)
Theorem top_times_before_any_measurement (root : Pathlib.Path)
  (files : list py_file) (top_n : Z) :
  let a := analyze_project rt (init root) files in
  get_top_import_times top_n a
  = LoadTimes.slice_to top_n
      (map (fun m => (m, 0%float)) (Dict.keys (module_stats a))) /\
  length (get_top_import_times top_n a)
  = (if (0 <=? top_n)%Z
     then Nat.min (Z.to_nat top_n) (length (module_stats a))
     else length (module_stats a) - Z.to_nat (- top_n))%nat.
Proof.
  cbv zeta. set (a := analyze_project rt (init root) files).
  assert (Hz : Forall (fun kv => import_time (snd kv) = 0%float)
                      (module_stats a)) by apply fresh_scan_no_time.
  assert (E : map (fun kv : string * stats => (fst kv, import_time (snd kv)))
                  (module_stats a)
              = map (fun m => (m, 0%float)) (Dict.keys (module_stats a))).
  { unfold Dict.keys. rewrite map_map. apply map_ext_in.
    intros kv Hin. rewrite (proj1 (Forall_forall _ _) Hz kv Hin).
    reflexivity. }
  assert (G : get_top_import_times top_n a
              = LoadTimes.slice_to top_n
                  (map (fun m => (m, 0%float)) (Dict.keys (module_stats a)))).
  { unfold get_top_import_times. rewrite E, sorted_by_time_zero; [reflexivity|].
    apply Forall_forall. intros x Hx. apply in_map_iff in Hx as [k [<- _]].
    reflexivity. }
  split; [exact G|]. rewrite G. unfold LoadTimes.slice_to.
  rewrite length_map. unfold Dict.keys. rewrite length_map.
  destruct (0 <=? top_n)%Z; rewrite length_firstn, length_map, length_map.
  - reflexivity.
  - apply Nat.min_l, Nat.le_sub_l.
Qed.

End LoadTimeAfterScan.

(** ** The function of load_time_analyzer.py and the method *)

Section LoadTimeFunction.
Import ImportAnalyzer.
Variable import_module : string -> import_attempt.

Lemma insert_by_time_perm (x : string * float) (l : list (string * float)) :
  Permutation (LoadTimes.insert_by_time x l) (x :: l).
Proof.
  induction l as [|y l IH]; simpl; [reflexivity|].
  destruct (PrimFloat.ltb (snd x) (snd y)); [|reflexivity].
  rewrite IH. apply perm_swap.
Qed.

Lemma sorted_by_time_perm (l : list (string * float)) :
  Permutation (LoadTimes.sorted_by_time l) l.
Proof.
  induction l as [|x l IH]; simpl; [reflexivity|].
  rewrite insert_by_time_perm, IH. reflexivity.
Qed.

Lemma In_firstn (A : Type) (x : A) (n : nat) :
  forall l : list A, In x (firstn n l) -> In x l.
Proof.
  induction n as [|n IH]; intros [|y l] H; simpl in H; try destruct H.
  - left. assumption.
  - right. apply IH. assumption.
Qed.

(** The two loops end alike and print the same lines. *)
Lemma collect_like_time_modules (mods : list string) :
  forall (st1 : list (string * float) * list string)
         (st2 : Dict.t stats * list string),
    snd st1 = snd st2 ->
    snd (LoadTimeAnalyzer.collect import_module mods st1)
    = snd (time_modules import_module mods st2) /\
    snd (fst (LoadTimeAnalyzer.collect import_module mods st1))
    = snd (fst (time_modules import_module mods st2)).
Proof.
  induction mods as [|k mods IH]; intros st1 st2 H; simpl.
  - split; [reflexivity | exact H].
  - destruct (import_module k) as [t| |].
    + apply IH. exact H.
    + apply IH. simpl. rewrite H. reflexivity.
    + split; [reflexivity | exact H].
Qed.

Lemma time_modules_end (mods : list string) :
  forall st : Dict.t stats * list string,
    snd (time_modules import_module mods st) = Finished ->
    forall k, In k mods -> import_module k <> OtherException.
Proof.
  induction mods as [|k mods IH]; intros st H k' Hin; [destruct Hin|].
  simpl in H. destruct Hin as [<-|Hin].
  - intros E. rewrite E in H. discriminate.
  - destruct (import_module k) as [t| |]; [| |discriminate];
      apply (IH _ H k' Hin).
Qed.

(** What the loop of the function appends to [load_times]. *)
Lemma collect_items (mods : list string) :
  forall (st : list (string * float) * list string) (m : string) (t : float),
    In (m, t) (fst (fst (LoadTimeAnalyzer.collect import_module mods st)))
    -> In (m, t) (fst st) \/ (In m mods /\ import_module m = Imported t).
Proof.
  induction mods as [|k mods IH]; intros st m t H; simpl in H.
  - left. exact H.
  - destruct (import_module k) as [t'| |] eqn:E.
    + apply IH in H as [H|[H1 H2]]; [|right; split; [right|]; assumption].
      simpl in H. apply in_app_iff in H as [H|[H|[]]]; [left; exact H|].
      inversion H; subst. right. split; [left; reflexivity | exact E].
    + apply IH in H as [H|[H1 H2]]; [left; exact H|].
      right. split; [right|]; assumption.
    + left. exact H.
Qed.

Lemma collect_keeps (mods : list string) :
  forall (st : list (string * float) * list string) (x : string * float),
    In x (fst st) ->
    In x (fst (fst (LoadTimeAnalyzer.collect import_module mods st))).
Proof.
  induction mods as [|k mods IH]; intros st x H; simpl; [exact H|].
  destruct (import_module k) as [t'| |]; [| |exact H]; apply IH; simpl.
  - apply in_app_iff. left. exact H.
  - exact H.
Qed.

Lemma collect_all (mods : list string) :
  forall (st : list (string * float) * list string) (m : string) (t : float),
    snd (LoadTimeAnalyzer.collect import_module mods st) = Finished ->
    In m mods -> import_module m = Imported t ->
    In (m, t) (fst (fst (LoadTimeAnalyzer.collect import_module mods st))).
Proof.
  induction mods as [|k mods IH]; intros st m t He Hin Hm;
    [destruct Hin|].
  simpl in He |- *. destruct Hin as [<-|Hin].
  - rewrite Hm in He |- *. apply collect_keeps. simpl.
    apply in_app_iff. right. left. reflexivity.
  - destruct (import_module k) as [t'| |]; [| |discriminate];
      apply IH; assumption.
Qed.

Lemma collect_length (mods : list string) :
  forall st : list (string * float) * list string,
    (length (fst (fst (LoadTimeAnalyzer.collect import_module mods st)))
     <= length (fst st) + length mods)%nat.
Proof.
  induction mods as [|k mods IH]; intros st; simpl; [lia|].
  destruct (import_module k) as [t'| |].
  - etransitivity; [apply IH|]. simpl. rewrite length_app. simpl. lia.
  - etransitivity; [apply IH|]. simpl. lia.
  - simpl. lia.
Qed.

(** X23.  Given the same imports, the function of [load_time_analyzer.py]
    on the graph of an analyzer prints the lines that the method
    [analyze_import_load_times] prints and raises exactly when the method
    does.  When it returns, with a [top_n] that is not negative, it lists
    at most [top_n] pairs; each pair is a key of the graph that imports
    successfully with its measured time, which is the import time that the
    method stores for that module; and when [top_n] is at least the number
    of keys, every key that imports successfully is listed. *)
Theorem function_lists_the_times_the_method_stores (a : t) (top_n : Z) :
  (0 <= top_n)%Z ->
  let '(a', out, e) := analyze_import_load_times import_module a in
  let '(out_f, result) :=
    LoadTimeAnalyzer.analyze_import_load_times import_module
      (import_graph a) top_n in
  out_f = out /\
  (result = None <-> e = Propagated) /\
  forall l, result = Some l ->
    (length l <= Z.to_nat top_n)%nat /\
    (forall m t, In (m, t) l ->
       In m (Dict.keys (import_graph a)) /\
       import_module m = Imported t /\
       import_time (stats_of (module_stats a') m) = t) /\
    ((length (Dict.keys (import_graph a)) <= Z.to_nat top_n)%nat ->
     forall m t, In m (Dict.keys (import_graph a)) ->
                 import_module m = Imported t -> In (m, t) l).
Proof.
  intros Hn. rewrite analyze_import_load_times_eq.
  unfold LoadTimeAnalyzer.analyze_import_load_times.
  set (mods := Dict.keys (import_graph a)).
  destruct (@collect_like_time_modules mods ([], []) (module_stats a, [])
              eq_refl) as [He Ho].
  pose proof (@collect_items mods ([], [])) as Hitems.
  pose proof (@collect_all mods ([], [])) as Hall.
  pose proof (@collect_length mods ([], [])) as Hlen.
  destruct (LoadTimeAnalyzer.collect import_module mods ([], []))
    as [[load_times out_f] e_f].
  simpl in He, Ho, Hitems, Hall, Hlen.
  cbn [module_stats]. rewrite <- He, <- Ho.
  assert (Hslice : LoadTimes.slice_to top_n (LoadTimes.sorted_by_time load_times)
                   = firstn (Z.to_nat top_n)
                            (LoadTimes.sorted_by_time load_times)).
  { unfold LoadTimes.slice_to.
    destruct (Z.leb_spec 0 top_n); [reflexivity | lia]. }
  destruct e_f.
  - split; [reflexivity|]. split; [split; discriminate|].
    intros l [= <-]. rewrite Hslice.
    pose proof (@time_modules_end mods (module_stats a, []) (eq_sym He))
      as Hno.
    destruct (@time_modules_finished import_module mods (module_stats a, [])
                Hno) as (_ & Ht & _).
    split; [apply firstn_le_length|]. split.
    + intros m t Hin. apply In_firstn in Hin.
      apply (Permutation_in _ (sorted_by_time_perm load_times)) in Hin.
      destruct (Hitems m t Hin) as [Hf|Hr]; [destruct Hf|].
      destruct Hr as [H1 H2].
      split; [exact H1|]. split; [exact H2|]. apply Ht; assumption.
    + intros Hk m t Hm Ht'.
      rewrite firstn_all2.
      * apply (Permutation_in _ (Permutation_sym
                                   (sorted_by_time_perm load_times))).
        apply Hall; [reflexivity | exact Hm | exact Ht'].
      * rewrite (Permutation_length (sorted_by_time_perm load_times)). lia.
  - split; [reflexivity|]. split; [split; reflexivity|].
    intros l H. discriminate.
Qed.

End LoadTimeFunction.

(** ** Instances of the load-time properties *)

Section LoadTimeInstances.
Import ImportAnalyzer Examples.


Lemma other_exception_stops_the_measurement_witness :
  let '(a', out, e) := analyze_import_load_times load0 scanned_net_ab in
  e = Propagated /\
  (forall m t,
     In m ["pkg.net"] -> load0 m = Imported t ->
     import_time (stats_of (module_stats a') m) = t) /\
  (forall m,
     ~ In m ["pkg.net"] ->
     stats_of (module_stats a') m = stats_of (module_stats scanned_net_ab) m) /\
  out = could_not_import load0 ["pkg.net"].
Proof.
  apply (@other_exception_stops_the_measurement load0 scanned_net_ab
           ["pkg.net"] "a.b" []).
  - reflexivity.
  - intros m [<-|[]]. discriminate.
  - reflexivity.
Defined.

Lemma only_importing_files_are_timed_witness :
  let a := analyze_project rt0 (init root0) [net_py; a_py] in
  let '(a', _, _) := analyze_import_load_times load0 a in
  stats_of (module_stats a') "os" = stats_of (module_stats a) "os" /\
  import_time (stats_of (module_stats a') "os") = 0%float.
Proof.
  apply (@only_importing_files_are_timed rt0 load0 root0 [net_py; a_py] "os").
  intros (f & tree & x & Hf & (_ & _ & Hn) & _).
  destruct Hf as [<-|[<-|[]]]; vm_compute in Hn; discriminate.
Defined.

Lemma function_lists_the_times_the_method_stores_witness :
  let '(a', out, e) := analyze_import_load_times load0 scanned_net_a in
  let '(out_f, result) :=
    LoadTimeAnalyzer.analyze_import_load_times load0
      (import_graph scanned_net_a) 10 in
  out_f = out /\
  (result = None <-> e = Propagated) /\
  forall l, result = Some l ->
    (length l <= Z.to_nat 10)%nat /\
    (forall m t, In (m, t) l ->
       In m (Dict.keys (import_graph scanned_net_a)) /\
       load0 m = Imported t /\
       import_time (stats_of (module_stats a') m) = t) /\
    ((length (Dict.keys (import_graph scanned_net_a)) <= Z.to_nat 10)%nat ->
     forall m t, In m (Dict.keys (import_graph scanned_net_a)) ->
                 load0 m = Imported t -> In (m, t) l).
Proof.
  apply (@function_lists_the_times_the_method_stores load0 scanned_net_a 10).
  lia.
Defined.

End LoadTimeInstances.

(** ** The changed files *)

Section ChangedFiles.
Import LintAndFormat.

Lemma split_cons (sep : ascii) (s : string) :
  exists piece pieces, split sep s = piece :: pieces.
Proof.
  destruct s as [|c s]; simpl; [eexists _, _; reflexivity|].
  destruct (Ascii.eqb c sep); [eexists _, _; reflexivity|].
  destruct (split sep s); eexists _, _; reflexivity.
Qed.

(** A piece without the separator, followed by the separator, is split
    off whole. *)
Lemma split_line (sep : ascii) (name rest : string) :
  lacks_char sep name ->
  split sep (name ++ String sep rest) = name :: split sep rest.
Proof.
  induction name as [|c name IH]; simpl; intros H.
  - rewrite Ascii.eqb_refl. reflexivity.
  - destruct H as [Hc Hn].
    destruct (Ascii.eqb_spec c sep) as [E|_]; [contradiction|].
    rewrite (IH Hn). reflexivity.
Qed.

Lemma split_name_only_output (names : list string) :
  (forall name, In name names -> lacks_char newline name) ->
  split newline (name_only_output names) = names ++ [EmptyString].
Proof.
  induction names as [|name names IH]; intros H; [reflexivity|].
  change (name_only_output (name :: names))
    with (name ++ String newline (name_only_output names))%string.
  rewrite split_line by (apply H; left; reflexivity).
  rewrite IH by (intros n Hn; apply H; right; exact Hn).
  reflexivity.
Qed.

(** X24.  When git prints the staged paths one per line, each followed by
    a newline, [get_changed_files] returns exactly the paths that end in
    [.py], in the order printed; the empty piece after the last newline is
    never among them. *)
Theorem changed_files_are_the_py_lines (names : list string) :
  (forall name, In name names -> lacks_char newline name) ->
  get_changed_files (name_only_output names)
  = filter (endswith ".py") names.
Proof.
  intros H. unfold get_changed_files.
  rewrite (split_name_only_output names H), filter_app.
  change (filter (endswith ".py") [EmptyString]) with (@nil string).
  apply app_nil_r.
Qed.

Lemma changed_files_are_the_py_lines_witness :
  get_changed_files
    (name_only_output ["src/main.py"; "README.md"; "setup.pyc"; "a b.py"])
  = filter (endswith ".py") ["src/main.py"; "README.md"; "setup.pyc"; "a b.py"].
Proof.
  apply (@changed_files_are_the_py_lines
           ["src/main.py"; "README.md"; "setup.pyc"; "a b.py"]).
  intros name [<-|[<-|[<-|[<-|[]]]]]; simpl; repeat split; discriminate.
Defined.

End ChangedFiles.
